(** * NanoVNA-Saver: acquisition and correction pipeline

    A shallow embedding of the calibration engine ([Calibration.py]), the
    sweep worker ([SweepWorker.py]) and the Touchstone reader
    ([Touchstone.py]), with the properties of the specification stated and
    settled against it.

    Conventions of the embedding:
    - Python [int] is [Z]; Python [float] and [complex] are modelled by the
      exact rationals [Qc] (finite values, no rounding);
    - a Python function that may raise returns a [result], whose [Raise]
      carries the exception class;
    - objects mutated in place are records passed in and out. *)

From Stdlib Require Import ZArith QArith Qcanon Qcabs Field Lia Lqa Permutation Ascii String.
From stdpp Require Import base numbers list sorting strings pretty.

Local Open Scope Z_scope.

(** ** Exceptions and the error monad *)

Inductive exn : Type :=
  | ZeroDivisionError
  | IndexError
  | StopIteration
  | ValueError (msg : string)
  | TypeError (msg : string)
  | IOError (msg : string)
  | AttributeError (msg : string)
  | OutOfFuel.  (* not a Python exception: the step budget of a loop ran out *)

Inductive result (A : Type) : Type :=
  | Ok (a : A)
  | Raise (e : exn).
Arguments Ok {A} a.
Arguments Raise {A} e.

Definition result_bind {A B} (f : A → result B) (m : result A) : result B :=
  match m with
  | Ok a => f a
  | Raise e => Raise e
  end.

#[global] Instance result_mbind : MBind result := @result_bind.
#[global] Instance result_mret : MRet result := @Ok.

Definition is_Ok {A} (m : result A) : Prop := ∃ a, m = Ok a.
Definition is_Raise {A} (m : result A) : Prop := ∃ e, m = Raise e.

(** [l[i]] for a non-negative index: [IndexError] past the end. *)
Definition getitem {A} (l : list A) (i : nat) : result A :=
  match l !! i with
  | Some a => Ok a
  | None => Raise IndexError
  end.

(** ** Python string primitives used by the parsers *)

Module Py.

Local Open Scope char_scope.

(** Whitespace for [str.split()] and [str.strip()] (ASCII range). *)
Definition isspace (c : ascii) : bool :=
  let n := nat_of_ascii c in
  bool_decide (9 ≤ n ≤ 13)%nat || bool_decide (28 ≤ n ≤ 32)%nat.

Definition isdigit (c : ascii) : bool :=
  let n := nat_of_ascii c in bool_decide (48 ≤ n ≤ 57)%nat.

Definition digit (c : ascii) : Z := Z.of_nat (nat_of_ascii c) - 48.

Definition lower_char (c : ascii) : ascii :=
  let n := nat_of_ascii c in
  if bool_decide (65 ≤ n ≤ 90)%nat then ascii_of_nat (n + 32) else c.

(** [s.lower()] *)
Fixpoint lower (s : string) : string :=
  match s with
  | EmptyString => EmptyString
  | String c s' => String (lower_char c) (lower s')
  end.

(** [s.lstrip()], [s.rstrip()], [s.strip()] *)
Fixpoint lstrip (s : string) : string :=
  match s with
  | String c s' => if isspace c then lstrip s' else s
  | EmptyString => EmptyString
  end.

Fixpoint rstrip (s : string) : string :=
  match s with
  | EmptyString => EmptyString
  | String c s' =>
      match rstrip s' with
      | EmptyString => if isspace c then EmptyString else String c EmptyString
      | r => String c r
      end
  end.

Definition strip (s : string) : string := rstrip (lstrip s).

(** [s.startswith(p)] *)
Fixpoint startswith (p s : string) : bool :=
  match p, s with
  | EmptyString, _ => true
  | String a p', String b s' => bool_decide (a = b) && startswith p' s'
  | String _ _, EmptyString => false
  end.

(** [p in s] for strings: [p] occurs in [s] as a substring. *)
Fixpoint contains (p s : string) : bool :=
  startswith p s ||
  match s with
  | EmptyString => false
  | String _ s' => contains p s'
  end.

(** [s.split()]: split on runs of whitespace, no empty fields. *)
Fixpoint split_from (cur s : string) : list string :=
  match s with
  | EmptyString => if decide (cur = EmptyString) then [] else [cur]
  | String c s' =>
      if isspace c then
        if decide (cur = EmptyString) then split_from EmptyString s'
        else cur :: split_from EmptyString s'
      else split_from (cur +:+ String c EmptyString) s'
  end.
Definition split (s : string) : list string := split_from EmptyString s.

(** [s.split(sep)] for a one-character separator: every occurrence
    splits, empty fields are kept. *)
Fixpoint split_on_from (sep : ascii) (cur s : string) : list string :=
  match s with
  | EmptyString => [cur]
  | String c s' =>
      if decide (c = sep) then cur :: split_on_from sep EmptyString s'
      else split_on_from sep (cur +:+ String c EmptyString) s'
  end.
Definition split_on (sep : ascii) (s : string) : list string :=
  split_on_from sep EmptyString s.

(** [s.splitlines(keepends=True)] restricted to the newline character:
    the lines a text stream iterates over. *)
Fixpoint lines_from (cur s : string) : list string :=
  match s with
  | EmptyString => if decide (cur = EmptyString) then [] else [cur]
  | String c s' =>
      if decide (c = "010") then
        (cur +:+ String c EmptyString) :: lines_from EmptyString s'
      else lines_from (cur +:+ String c EmptyString) s'
  end.
Definition lines (s : string) : list string := lines_from EmptyString s.

(** The newline character as a string. *)
Definition nl : string := String "010" EmptyString.

(** A run of decimal digits: its value, its length, and the rest. *)
Fixpoint digits (acc : Z) (n : nat) (s : string) : Z * nat * string :=
  match s with
  | String c s' =>
      if isdigit c then digits (10 * acc + digit c) (S n) s' else (acc, n, s)
  | EmptyString => (acc, n, EmptyString)
  end.

Definition sign (s : string) : bool * string :=
  match s with
  | String "-" s' => (true, s')
  | String "+" s' => (false, s')
  | _ => (false, s)
  end.

(** [int(s)] on a decimal literal with optional sign and surrounding
    whitespace; anything else is a [ValueError].  Digit separators are
    outside the model. *)
Definition int (s : string) : result Z :=
  let '(neg, body) := sign (strip s) in
  let '(v, n, rest) := digits 0 0 body in
  if bool_decide (0 < n)%nat && bool_decide (rest = EmptyString)
  then Ok (if neg then - v else v)
  else Raise (ValueError ("invalid literal for int() with base 10: '" +:+ s +:+ "'")).

Definition pow10 (e : Z) : Qc :=
  match e with
  | Z0 => 1%Qc
  | Zpos p => Qc_of_Z (10 ^ Zpos p)
  | Zneg p => (1 / Qc_of_Z (10 ^ Zpos p))%Qc
  end.

(** The exponent part of a float literal, if any: its value and the
    rest, or [None] when an [e] is not followed by digits. *)
Definition exponent (s : string) : option (Z * string) :=
  match s with
  | String c s' =>
      if bool_decide (c = "e") || bool_decide (c = "E") then
        let '(neg, body) := sign s' in
        let '(v, n, rest) := digits 0 0 body in
        if bool_decide (0 < n)%nat then Some (if neg then - v else v, rest)
        else None
      else Some (0, s)
  | EmptyString => Some (0, s)
  end.

(** [float(s)] on a finite decimal literal
    ([[sign] digits [. digits] [e [sign] digits]]) with surrounding
    whitespace, read as an exact rational; anything else is a
    [ValueError].  The special literals ([inf], [nan]) and digit
    separators are outside the model. *)
Definition float (s : string) : result Qc :=
  let '(neg, body) := sign (strip s) in
  let '(ip, ni, rest) := digits 0 0 body in
  let '(fp, nf, rest) :=
    match rest with
    | String "." rest' => digits 0 0 rest'
    | _ => (0, 0%nat, rest)
    end in
  match exponent rest with
  | Some (e, EmptyString) =>
      if bool_decide (0 < ni + nf)%nat then
        let m := (Qc_of_Z ip + Qc_of_Z fp / Qc_of_Z (10 ^ Z.of_nat nf))%Qc in
        let v := (m * pow10 e)%Qc in
        Ok (if neg then (- v)%Qc else v)
      else Raise (ValueError ("could not convert string to float: '" +:+ s +:+ "'"))
  | _ => Raise (ValueError ("could not convert string to float: '" +:+ s +:+ "'"))
  end.

End Py.

(** ** The sweep plan ([class Sweep]) *)

Module Sweep.

Record t : Type := mk {
  start : Z;
  end_ : Z;
  points : Z;
  sweeps : Z;
  span : Z;
  step : Z
}.

(** [__repr__]: note the missing comma between points and sweeps. *)
Definition repr (start end_ points sweeps : Z) : string :=
  "Sweep(" +:+ pretty start +:+ ", " +:+ pretty end_ +:+ ", " +:+
  pretty points +:+ " " +:+ pretty sweeps +:+ ")".

(** [int(self.span / (self.points * self.sweeps - 1))]: true division
    followed by truncation toward zero.  The floating-point quotient of
    two integers truncates to the exact integer quotient as long as the
    span stays below 2^53, far above any frequency in hertz. *)
Definition stepsize (span points sweeps : Z) : result Z :=
  let d := points * sweeps - 1 in
  if decide (d = 0) then Raise ZeroDivisionError
  else Ok (span ÷ d).

Definition check (s : t) : result () :=
  if bool_decide (0 < sweeps s) && bool_decide (0 < points s) &&
     bool_decide (0 < start s) && bool_decide (0 < end_ s) &&
     bool_decide (1 ≤ step s)
  then Ok ()
  else Raise (ValueError ("Illegal sweep settings: " +:+
                repr (start s) (end_ s) (points s) (sweeps s))).

(** [__init__]: the step is computed before the settings are checked. *)
Definition init (start end_ points sweeps : Z) : result t :=
  let span := end_ - start in
  step ← stepsize span points sweeps;
  let s := mk start end_ points sweeps span step in
  _ ← check s;
  Ok s.

Definition get_index_range (s : t) (index : Z) : Z * Z :=
  let start := start s + index * points s * step s in
  let end_ := start + (points s - 1) * step s in
  (start, end_).

(** [Sweep()]: the default arguments, which pass the check. *)
Definition default : t := mk 3600000 30000000 101 1 26400000 264000.

(** [__eq__] *)
Definition eqb (a b : t) : bool :=
  bool_decide (start a = start b) && bool_decide (end_ a = end_ b) &&
  bool_decide (points a = points b) && bool_decide (sweeps a = sweeps b).

End Sweep.

(** ** Complex numbers (Python [complex]) over the exact rationals *)

Module Complex.

Record t : Type := mk { real : Qc; imag : Qc }.

Definition add (a b : t) : t :=
  mk (real a + real b)%Qc (imag a + imag b)%Qc.
Definition sub (a b : t) : t :=
  mk (real a - real b)%Qc (imag a - imag b)%Qc.
Definition neg (a : t) : t :=
  mk (- real a)%Qc (- imag a)%Qc.
Definition mul (a b : t) : t :=
  mk (real a * real b - imag a * imag b)%Qc
     (real a * imag b + imag a * real b)%Qc.

(** [abs(a) ** 2] *)
Definition norm2 (a : t) : Qc := (real a * real a + imag a * imag a)%Qc.

(** [a / b]: [ZeroDivisionError] exactly when [b == 0]. *)
Definition div (a b : t) : result t :=
  if decide (real b = 0%Qc ∧ imag b = 0%Qc) then Raise ZeroDivisionError
  else Ok (mk ((real a * real b + imag a * imag b) / norm2 b)%Qc
              ((imag a * real b - real a * imag b) / norm2 b)%Qc).

Definition of_Qc (x : Qc) : t := mk x 0%Qc.

End Complex.

Declare Scope complex_scope.
Delimit Scope complex_scope with C.
Bind Scope complex_scope with Complex.t.
Infix "+" := Complex.add : complex_scope.
Infix "-" := Complex.sub : complex_scope.
Infix "*" := Complex.mul : complex_scope.
Notation "- x" := (Complex.neg x) : complex_scope.

(** ** [RFTools.Datapoint] *)

(** The frequency of a data point is an [int] in calibration data and a
    [float] in Touchstone data; both are read as rationals. *)
Record Datapoint : Type := mkDatapoint { freq : Qc; re : Qc; im : Qc }.

(** [np.complex(dp.re, dp.im)] *)
Definition complex_of (dp : Datapoint) : Complex.t := Complex.mk (re dp) (im dp).

(** ** Loops with an early [return] *)

Inductive flow (S R : Type) : Type :=
  | Next (s : S)
  | Return (s : S) (r : R).
Arguments Next {S R} s.
Arguments Return {S R} s r.

Fixpoint for_each {S R I} (body : I → S → result (flow S R))
    (items : list I) (s : S) : result (flow S R) :=
  match items with
  | [] => Ok (Next s)
  | i :: items' =>
      r ← body i s;
      match r with
      | Next s' => for_each body items' s'
      | Return s' v => Ok (Return s' v)
      end
  end.

(** ** The calibration engine ([class Calibration]) *)

Module Calibration.

(** The error-term arrays are created as [[np.complex] * n] and filled by
    index; an entry not yet assigned ([None] here) still holds the
    placeholder and cannot take part in arithmetic. *)
Record t : Type := mk {
  s11short : list Datapoint;
  s11open : list Datapoint;
  s11load : list Datapoint;
  s21through : list Datapoint;
  s21isolation : list Datapoint;
  frequencies : list (option Qc);
  e00 : list (option Complex.t);
  e11 : list (option Complex.t);
  deltaE : list (option Complex.t);
  e30 : list (option Complex.t);
  e10e32 : list (option Complex.t);
  useIdealShort : bool;
  useIdealOpen : bool;
  useIdealLoad : bool;
  isCalculated : bool
}.

(** The class-level defaults: a calibration object as created. *)
Definition fresh : t :=
  mk [] [] [] [] [] [] [] [] [] [] [] true true true false.

Definition shortIdeal : Complex.t := Complex.mk (-1) 0.
Definition openIdeal : Complex.t := Complex.mk 1 0.
Definition loadIdeal : Complex.t := Complex.mk 0 0.

Definition isValid1Port (c : t) : bool :=
  bool_decide (0 < length (s11short c))%nat &&
  bool_decide (0 < length (s11open c))%nat &&
  bool_decide (0 < length (s11load c))%nat.

Definition isValid2Port (c : t) : bool :=
  bool_decide (0 < length (s21through c))%nat &&
  bool_decide (0 < length (s21isolation c))%nat &&
  isValid1Port c.

Definition set_frequencies (c : t) v := mk (s11short c) (s11open c) (s11load c)
  (s21through c) (s21isolation c) v (e00 c) (e11 c) (deltaE c) (e30 c)
  (e10e32 c) (useIdealShort c) (useIdealOpen c) (useIdealLoad c) (isCalculated c).
Definition set_e00 (c : t) v := mk (s11short c) (s11open c) (s11load c)
  (s21through c) (s21isolation c) (frequencies c) v (e11 c) (deltaE c) (e30 c)
  (e10e32 c) (useIdealShort c) (useIdealOpen c) (useIdealLoad c) (isCalculated c).
Definition set_e11 (c : t) v := mk (s11short c) (s11open c) (s11load c)
  (s21through c) (s21isolation c) (frequencies c) (e00 c) v (deltaE c) (e30 c)
  (e10e32 c) (useIdealShort c) (useIdealOpen c) (useIdealLoad c) (isCalculated c).
Definition set_deltaE (c : t) v := mk (s11short c) (s11open c) (s11load c)
  (s21through c) (s21isolation c) (frequencies c) (e00 c) (e11 c) v (e30 c)
  (e10e32 c) (useIdealShort c) (useIdealOpen c) (useIdealLoad c) (isCalculated c).
Definition set_e30 (c : t) v := mk (s11short c) (s11open c) (s11load c)
  (s21through c) (s21isolation c) (frequencies c) (e00 c) (e11 c) (deltaE c) v
  (e10e32 c) (useIdealShort c) (useIdealOpen c) (useIdealLoad c) (isCalculated c).
Definition set_e10e32 (c : t) v := mk (s11short c) (s11open c) (s11load c)
  (s21through c) (s21isolation c) (frequencies c) (e00 c) (e11 c) (deltaE c)
  (e30 c) v (useIdealShort c) (useIdealOpen c) (useIdealLoad c) (isCalculated c).
Definition set_isCalculated (c : t) v := mk (s11short c) (s11open c) (s11load c)
  (s21through c) (s21isolation c) (frequencies c) (e00 c) (e11 c) (deltaE c)
  (e30 c) (e10e32 c) (useIdealShort c) (useIdealOpen c) (useIdealLoad c) v.

(** Reading an error term for arithmetic: [IndexError] past the end,
    [TypeError] on a placeholder. *)
Definition term (l : list (option Complex.t)) (i : nat) : result Complex.t :=
  x ← getitem l i;
  match x with
  | Some z => Ok z
  | None => Raise (TypeError "unsupported operand type(s)")
  end.

(** The four expressions of [calculateCorrections], in the modelled
    coefficients [g1 g2 g3] of short, open and load and the measured
    ones [gm1 gm2 gm3]: the common denominator and the numerators of
    [e00], [e11] and [deltaE]. *)
Definition denominator (g1 g2 g3 gm1 gm2 gm3 : Complex.t) : Complex.t :=
  (g1 * (g2 - g3) * gm1 + g2 * g3 * gm2 - g2 * g3 * gm3
   - (g2 * gm2 - g3 * gm3) * g1)%C.
Definition num_e00 (g1 g2 g3 gm1 gm2 gm3 : Complex.t) : Complex.t :=
  (- ((g2 * gm3 - g3 * gm3) * g1 * gm2
      - (g2 * g3 * gm2 - g2 * g3 * gm3 - (g3 * gm2 - g2 * gm3) * g1) * gm1))%C.
Definition num_e11 (g1 g2 g3 gm1 gm2 gm3 : Complex.t) : Complex.t :=
  ((g2 - g3) * gm1 - g1 * (gm2 - gm3) + g3 * gm2 - g2 * gm3)%C.
Definition num_deltaE (g1 g2 g3 gm1 gm2 gm3 : Complex.t) : Complex.t :=
  (- ((g1 * (gm2 - gm3) - g2 * gm2 + g3 * gm3) * gm1
      + (g2 * gm3 - g3 * gm3) * gm2))%C.

Section Model.

(** The parametric standard models evaluate [math.pi] and [np.exp] in
    floating point; the reflection coefficient each one yields at a
    frequency is kept abstract. *)
Variable shortModel openModel loadModel : Qc → result Complex.t.

(** One iteration of the loop of [calculateCorrections]. *)
Definition calculateStep (i : nat) (c : t) : result (flow t (option bool)) :=
  sh ← getitem (s11short c) i;
  let c := set_frequencies c (<[i := Some (freq sh)]> (frequencies c)) in
  let f := freq sh in
  g1 ← (if useIdealShort c then Ok shortIdeal else shortModel f);
  g2 ← (if useIdealOpen c then Ok openIdeal else openModel f);
  g3 ← (if useIdealLoad c then Ok loadIdeal else loadModel f);
  let gm1 := complex_of sh in
  op ← getitem (s11open c) i;
  let gm2 := complex_of op in
  ld ← getitem (s11load c) i;
  let gm3 := complex_of ld in
  let denominator := denominator g1 g2 g3 gm1 gm2 gm3 in
  match
    (v00 ← Complex.div (num_e00 g1 g2 g3 gm1 gm2 gm3) denominator;
     let c := set_e00 c (<[i := Some v00]> (e00 c)) in
     v11 ← Complex.div (num_e11 g1 g2 g3 gm1 gm2 gm3) denominator;
     let c := set_e11 c (<[i := Some v11]> (e11 c)) in
     vdE ← Complex.div (num_deltaE g1 g2 g3 gm1 gm2 gm3) denominator;
     Ok (set_deltaE c (<[i := Some vdE]> (deltaE c))))
  with
  | Raise ZeroDivisionError => Ok (Return (set_isCalculated c false) None)
  | Raise e => Raise e
  | Ok c =>
      if isValid2Port c then
        iso ← getitem (s21isolation c) i;
        let c := set_e30 c (<[i := Some (complex_of iso)]> (e30 c)) in
        thr ← getitem (s21through c) i;
        let s21m := complex_of thr in
        v30 ← term (e30 c) i;
        v11 ← term (e11 c) i;
        Ok (Next (set_e10e32 c
              (<[i := Some ((s21m - v30) * (Complex.of_Qc 1 - v11 * v11))%C]>
                 (e10e32 c))))
      else Ok (Next c)
  end.

(** [calculateCorrections]: the state it leaves and the value it
    returns ([Some true], [Some false], or [None] for the bare
    [return] of the division handler). *)
Definition calculateCorrections (c : t) : result (t * option bool) :=
  if negb (isValid1Port c) then Ok (c, Some false)
  else
    let n := length (s11short c) in
    let c := set_frequencies c (replicate n None) in
    let c := set_e00 c (replicate n None) in
    let c := set_e11 c (replicate n None) in
    let c := set_deltaE c (replicate n None) in
    let c := set_e30 c (replicate n None) in
    let c := set_e10e32 c (replicate n None) in
    r ← for_each calculateStep (seq 0 n) c;
    match r with
    | Return c v => Ok (c, v)
    | Next c =>
        let c := set_isCalculated c true in
        Ok (c, Some (isCalculated c))
    end.

End Model.

(** The nearest-frequency scan shared by [correct11] and [correct21]:
    the loop over [range(len(pts))] from position [i], with the running
    [index] and [distance]. *)
Fixpoint nearest (pts : list Datapoint) (f : Qc) (i index : nat) (distance : Qc) : nat :=
  match pts with
  | [] => index
  | dp :: pts' =>
      if decide (Qcabs (freq dp - f) < distance)%Qc
      then nearest pts' f (S i) i (Qcabs (freq dp - f))
      else nearest pts' f (S i) index distance
  end.

Definition correct11 (c : t) (re im : Qc) (f : Qc) : result (Qc * Qc) :=
  let s11m := Complex.mk re im in
  let index := nearest (s11short c) f 0 0 (Qc_of_Z (10 ^ 10)) in
  v00 ← term (e00 c) index;
  let num := (s11m - v00)%C in
  v11 ← term (e11 c) index;
  vdE ← term (deltaE c) index;
  s11 ← Complex.div num (s11m * v11 - vdE)%C;
  Ok (Complex.real s11, Complex.imag s11).

Definition correct21 (c : t) (re im : Qc) (f : Qc) : result (Qc * Qc) :=
  let s21m := Complex.mk re im in
  let index := nearest (s21through c) f 0 0 (Qc_of_Z (10 ^ 10)) in
  v30 ← term (e30 c) index;
  let num := (s21m - v30)%C in
  v10 ← term (e10e32 c) index;
  s21 ← Complex.div num v10;
  Ok (Complex.real s21, Complex.imag s21).

(** *** Calibration files ([saveCalibration], [loadCalibration]) *)

Definition set_s11short (c : t) v := mk v (s11open c) (s11load c)
  (s21through c) (s21isolation c) (frequencies c) (e00 c) (e11 c) (deltaE c)
  (e30 c) (e10e32 c) (useIdealShort c) (useIdealOpen c) (useIdealLoad c)
  (isCalculated c).
Definition set_s11open (c : t) v := mk (s11short c) v (s11load c)
  (s21through c) (s21isolation c) (frequencies c) (e00 c) (e11 c) (deltaE c)
  (e30 c) (e10e32 c) (useIdealShort c) (useIdealOpen c) (useIdealLoad c)
  (isCalculated c).
Definition set_s11load (c : t) v := mk (s11short c) (s11open c) v
  (s21through c) (s21isolation c) (frequencies c) (e00 c) (e11 c) (deltaE c)
  (e30 c) (e10e32 c) (useIdealShort c) (useIdealOpen c) (useIdealLoad c)
  (isCalculated c).
Definition set_s21through (c : t) v := mk (s11short c) (s11open c) (s11load c)
  v (s21isolation c) (frequencies c) (e00 c) (e11 c) (deltaE c)
  (e30 c) (e10e32 c) (useIdealShort c) (useIdealOpen c) (useIdealLoad c)
  (isCalculated c).
Definition set_s21isolation (c : t) v := mk (s11short c) (s11open c) (s11load c)
  (s21through c) v (frequencies c) (e00 c) (e11 c) (deltaE c)
  (e30 c) (e10e32 c) (useIdealShort c) (useIdealOpen c) (useIdealLoad c)
  (isCalculated c).

(** The two lines [saveCalibration] starts a file with; the second is the
    header [loadCalibration] waits for. *)
Definition title_line : string := "# Calibration data for NanoVNA-Saver".
Definition header_line : string :=
  "# Hz ShortR ShortI OpenR OpenI LoadR LoadI ThroughR ThroughI IsolationR IsolationI".

(** [l.count(" ")] *)
Fixpoint count_spaces (l : string) : nat :=
  match l with
  | EmptyString => 0
  | String c l' => if decide (c = " "%char) then S (count_spaces l') else count_spaces l'
  end.

(** [Datapoint(int(freq), float(r), float(i))] *)
Definition read_point (freq r i : string) : result Datapoint :=
  f ← Py.int freq;
  re ← Py.float r;
  im ← Py.float i;
  Ok (mkDatapoint (Qc_of_Z f) re im).

(** The body of the inner [try] of [loadCalibration] on a stripped line:
    how it ends, and the calibration at that moment.  The points are
    appended one list after the other, so a field that does not parse
    leaves the appends made before it in place. *)
Definition load_line (l : string) (c : t) : result () * t :=
  if decide (count_spaces l = 6%nat) then
    match Py.split_on " " l with
    | [freq; shortr; shorti; openr; openi; loadr; loadi] =>
        match read_point freq shortr shorti with
        | Raise e => (Raise e, c)
        | Ok p =>
        let c := set_s11short c (s11short c ++ [p]) in
        match read_point freq openr openi with
        | Raise e => (Raise e, c)
        | Ok p =>
        let c := set_s11open c (s11open c ++ [p]) in
        match read_point freq loadr loadi with
        | Raise e => (Raise e, c)
        | Ok p => (Ok (), set_s11load c (s11load c ++ [p]))
        end end end
    | _ => (Raise (ValueError "wrong number of values to unpack"), c)
    end
  else
    match Py.split_on " " l with
    | [freq; shortr; shorti; openr; openi; loadr; loadi;
       throughr; throughi; isolationr; isolationi] =>
        match read_point freq shortr shorti with
        | Raise e => (Raise e, c)
        | Ok p =>
        let c := set_s11short c (s11short c ++ [p]) in
        match read_point freq openr openi with
        | Raise e => (Raise e, c)
        | Ok p =>
        let c := set_s11open c (s11open c ++ [p]) in
        match read_point freq loadr loadi with
        | Raise e => (Raise e, c)
        | Ok p =>
        let c := set_s11load c (s11load c ++ [p]) in
        match read_point freq throughr throughi with
        | Raise e => (Raise e, c)
        | Ok p =>
        let c := set_s21through c (s21through c ++ [p]) in
        match read_point freq isolationr isolationi with
        | Raise e => (Raise e, c)
        | Ok p => (Ok (), set_s21isolation c (s21isolation c ++ [p]))
        end end end end end
    | _ => (Raise (ValueError "wrong number of values to unpack"), c)
    end.

(** The loop of [loadCalibration] over the lines of the file.  A
    [ValueError] of a line is logged and the next line is read; any other
    exception would end the loop in the outer handler. *)
Fixpoint load_lines (lines : list string) (parsed_header : bool) (c : t) : t :=
  match lines with
  | [] => c
  | l :: lines' =>
      let l := Py.strip l in
      if Py.startswith "!" l then load_lines lines' parsed_header c
      else if Py.startswith "#" l && negb parsed_header then
        if decide (l = header_line) then load_lines lines' true c
        else load_lines lines' parsed_header c
      else if negb parsed_header then load_lines lines' parsed_header c
      else
        match load_line l c with
        | (Ok _, c') => load_lines lines' parsed_header c'
        | (Raise (ValueError _), c') => load_lines lines' parsed_header c'
        | (Raise _, c') => c'
        end
  end.

(** [loadCalibration]: the calibration afterwards.  [file] is the text of
    the file, or [None] when it cannot be opened. *)
Definition loadCalibration (filename : string) (file : option string) (c : t) : t :=
  if decide (filename = EmptyString) then c
  else
    let c := set_s11short c [] in
    let c := set_s11open c [] in
    let c := set_s11load c [] in
    let c := set_s21through c [] in
    let c := set_s21isolation c [] in
    match file with
    | None => c
    | Some text => load_lines (Py.lines text) false c
    end.

Section Files.

(** [str] of a frequency and of a value, kept abstract. *)
Variable str_freq str_float : Qc → string.

(** The texts of the two writes of a row: the seven fields every row
    has, and the four more of a two-port calibration. *)
Definition one_port_fields (sh op ld : Datapoint) : string :=
  str_freq (freq sh) +:+ " " +:+ str_float (re sh) +:+ " " +:+ str_float (im sh)
  +:+ " " +:+ str_float (re op) +:+ " " +:+ str_float (im op)
  +:+ " " +:+ str_float (re ld) +:+ " " +:+ str_float (im ld).
Definition two_port_fields (th iso : Datapoint) : string :=
  " " +:+ str_float (re th) +:+ " " +:+ str_float (im th)
  +:+ " " +:+ str_float (re iso) +:+ " " +:+ str_float (im iso).

(** One iteration of the loop of [saveCalibration]: how it ends, and the
    text written so far. *)
Definition save_row (i : nat) (c : t) (out : string) : result () * string :=
  match getitem (s11short c) i with
  | Raise e => (Raise e, out)
  | Ok sh =>
  match getitem (s11open c) i with
  | Raise e => (Raise e, out)
  | Ok op =>
  match getitem (s11load c) i with
  | Raise e => (Raise e, out)
  | Ok ld =>
  let out := out +:+ one_port_fields sh op ld in
  if isValid2Port c then
    match getitem (s21through c) i with
    | Raise e => (Raise e, out)
    | Ok th =>
    match getitem (s21isolation c) i with
    | Raise e => (Raise e, out)
    | Ok iso => (Ok (), (out +:+ two_port_fields th iso) +:+ Py.nl)
    end end
  else (Ok (), out +:+ Py.nl)
  end end end.

Fixpoint save_rows (rows : list nat) (c : t) (out : string) : result () * string :=
  match rows with
  | [] => (Ok (), out)
  | i :: rows' =>
      match save_row i c out with
      | (Ok _, out') => save_rows rows' c out'
      | (Raise e, out') => (Raise e, out')
      end
  end.

(** [saveCalibration]: the value it returns and the text it leaves in the
    file ([None] when the file is not written at all).  [writable] says
    whether the file can be opened for writing. *)
Definition saveCalibration (filename : string) (writable : bool) (c : t)
    : bool * option string :=
  if decide (filename = EmptyString) then (false, None)
  else if negb (isValid1Port c) then (false, None)
  else if negb writable then (false, None)
  else
    let out := title_line +:+ Py.nl +:+ header_line +:+ Py.nl in
    match save_rows (seq 0 (length (s11short c))) c out with
    | (Ok _, out') => (true, Some out')
    | (Raise _, out') => (false, Some out')
    end.

End Files.

End Calibration.

(** ** Averaging with outlier rejection ([truncate], [np.average]) *)

Module Averaging.

(** One raw sample [(re, im)]; one repeat is a list of samples, one per
    frequency bin. *)
Definition sample : Type := Qc * Qc.

Definition to_complex (v : sample) : Complex.t := Complex.mk v.1 v.2.

Definition sum_re (vs : list sample) : Qc := foldr (λ v acc, v.1 + acc)%Qc 0%Qc vs.
Definition sum_im (vs : list sample) : Qc := foldr (λ v acc, v.2 + acc)%Qc 0%Qc vs.

(** [np.average(valueset, 0)] on a non-empty list of samples. *)
Definition average (vs : list sample) : sample :=
  let n := Qc_of_Z (Z.of_nat (length vs)) in
  (sum_re vs / n, sum_im vs / n)%Qc.

(** [np.swapaxes(rows, 0, 1).tolist()] on a list of equally long rows;
    NumPy refuses ragged input and has no second axis to swap on an
    empty list. *)
Definition swapaxes (rows : list (list sample)) : result (list (list sample)) :=
  match rows with
  | [] => Raise (ValueError "axis2: axis 1 is out of bounds for array of dimension 1")
  | r :: _ =>
      let m := length r in
      if forallb (λ r', bool_decide (length r' = m)) rows
      then Ok (map (λ j, omap (λ r', r' !! j) rows) (seq 0 m))
      else Raise (ValueError "inhomogeneous shape")
  end.

(** The sort key [abs(a - complex( *v))].  The modulus is a square root;
    the key used here is its square, which orders the samples the same
    way. *)
Definition key (a : Complex.t) (v : sample) : Qc :=
  Complex.norm2 (a - to_complex v)%C.

(** [sorted(l, key=k)]: a stable sort, ascending. *)
Fixpoint insert_by {A} (k : A → Qc) (x : A) (l : list A) : list A :=
  match l with
  | [] => [x]
  | y :: l' =>
      if decide (k x ≤ k y)%Qc then x :: y :: l'
      else y :: insert_by k x l'
  end.
Definition sorted {A} (k : A → Qc) (l : list A) : list A :=
  foldr (insert_by k) [] l.

(** The body of the loop of [truncate] for one frequency bin. *)
Definition truncate_bin (keep : nat) (valueset : list sample) : list sample :=
  let avg := to_complex (average valueset) in
  take keep (sorted (key avg) valueset).

Definition truncate (values : list (list sample)) (count : Z)
    : result (list (list sample)) :=
  let keep := Z.of_nat (length values) - count in
  if bool_decide (count < 1) || bool_decide (keep < 1) then Ok values
  else
    cols ← swapaxes values;
    let truncated := map (truncate_bin (Z.to_nat keep)) cols in
    swapaxes truncated.

(** [np.average(values, 0).tolist()] on the list of repeats: the mean of
    every bin.  On an empty list NumPy yields the scalar [nan], which is
    not a list ([None] here). *)
Definition average0 (values : list (list sample)) : result (option (list sample)) :=
  match values with
  | [] => Ok None
  | _ => cols ← swapaxes values; Ok (Some (map average cols))
  end.

(** What [readAveragedSegment] computes from the repeats of one data
    channel. *)
Definition averaged (values : list (list sample)) (truncates : Z)
    : result (option (list sample)) :=
  kept ← truncate values truncates;
  average0 kept.

End Averaging.

(** ** The instrument session and the host application *)

Module VNA.

(** Modelled from the spec: the instrument session ([Hardware/VNA.py],
    the base class of the device drivers, is not among the sources).  It
    reports whether it is connected, how many points it measures per
    sweep and whether reads are validated; the reply to the [k]-th read
    exchange is a function of [k] and of the command. *)
Record t : Type := mk {
  connected : bool;
  datapoints : Z;
  validateInput : bool;
  readValues : nat → string → list string;
  readFrequencies : nat → list Qc
}.

End VNA.

Module App.

(** The part of the main window the worker reads: the three sweep
    input fields and the calibration object. *)
Record t : Type := mk {
  sweepStartInput : string;
  sweepEndInput : string;
  sweepCountInput : string;
  calibration : Calibration.t
}.

End App.

(** What the worker does to the outside world, in order: the signals
    of [WorkerSignals], the data handed to the application, and the
    commands sent to the device. *)
Inductive event : Type :=
  | SigUpdated
  | SigFinished
  | SigSweepError
  | SigFatalSweepError
  | AppSaveData (data11 data21 : list Datapoint)
  | DevSetSweep (start stop : Z)
  | DevReadFrequencies
  | DevReadValues (data : string)
  | DevResetSweep (start stop : Z).

(** ** The sweep worker ([class SweepWorker]) *)

Module SweepWorker.

Import Averaging.

(** The worker object after [setVNA], together with the number of read
    exchanges made with the device ([reads]) and the record of what the
    worker has done to the outside world ([trace]). *)
Record t : Type := mk {
  vna : VNA.t;
  app : App.t;
  sweep : Sweep.t;
  percentage : Qc;
  data11 : list Datapoint;
  data21 : list Datapoint;
  rawData11 : list Datapoint;
  rawData21 : list Datapoint;
  stopped : bool;
  running : bool;
  continuousSweep : bool;
  averaging : bool;
  averages : Z;
  truncates : Z;
  error_message : string;
  offsetDelay : Qc;
  reads : nat;
  trace : list event
}.

Definition set_vna (w : t) v : t :=
  mk v (app w) (sweep w) (percentage w) (data11 w) (data21 w) (rawData11 w)
     (rawData21 w) (stopped w) (running w) (continuousSweep w) (averaging w)
     (averages w) (truncates w) (error_message w) (offsetDelay w) (reads w)
     (trace w).
Definition set_sweep (w : t) v : t :=
  mk (vna w) (app w) v (percentage w) (data11 w) (data21 w) (rawData11 w)
     (rawData21 w) (stopped w) (running w) (continuousSweep w) (averaging w)
     (averages w) (truncates w) (error_message w) (offsetDelay w) (reads w)
     (trace w).
Definition set_percentage (w : t) v : t :=
  mk (vna w) (app w) (sweep w) v (data11 w) (data21 w) (rawData11 w)
     (rawData21 w) (stopped w) (running w) (continuousSweep w) (averaging w)
     (averages w) (truncates w) (error_message w) (offsetDelay w) (reads w)
     (trace w).
Definition set_data11 (w : t) v : t :=
  mk (vna w) (app w) (sweep w) (percentage w) v (data21 w) (rawData11 w)
     (rawData21 w) (stopped w) (running w) (continuousSweep w) (averaging w)
     (averages w) (truncates w) (error_message w) (offsetDelay w) (reads w)
     (trace w).
Definition set_data21 (w : t) v : t :=
  mk (vna w) (app w) (sweep w) (percentage w) (data11 w) v (rawData11 w)
     (rawData21 w) (stopped w) (running w) (continuousSweep w) (averaging w)
     (averages w) (truncates w) (error_message w) (offsetDelay w) (reads w)
     (trace w).
Definition set_rawData11 (w : t) v : t :=
  mk (vna w) (app w) (sweep w) (percentage w) (data11 w) (data21 w) v
     (rawData21 w) (stopped w) (running w) (continuousSweep w) (averaging w)
     (averages w) (truncates w) (error_message w) (offsetDelay w) (reads w)
     (trace w).
Definition set_rawData21 (w : t) v : t :=
  mk (vna w) (app w) (sweep w) (percentage w) (data11 w) (data21 w)
     (rawData11 w) v (stopped w) (running w) (continuousSweep w)
     (averaging w) (averages w) (truncates w) (error_message w)
     (offsetDelay w) (reads w) (trace w).
Definition set_stopped (w : t) v : t :=
  mk (vna w) (app w) (sweep w) (percentage w) (data11 w) (data21 w)
     (rawData11 w) (rawData21 w) v (running w) (continuousSweep w)
     (averaging w) (averages w) (truncates w) (error_message w)
     (offsetDelay w) (reads w) (trace w).
Definition set_running (w : t) v : t :=
  mk (vna w) (app w) (sweep w) (percentage w) (data11 w) (data21 w)
     (rawData11 w) (rawData21 w) (stopped w) v (continuousSweep w)
     (averaging w) (averages w) (truncates w) (error_message w)
     (offsetDelay w) (reads w) (trace w).
Definition set_continuousSweep (w : t) v : t :=
  mk (vna w) (app w) (sweep w) (percentage w) (data11 w) (data21 w)
     (rawData11 w) (rawData21 w) (stopped w) (running w) v (averaging w)
     (averages w) (truncates w) (error_message w) (offsetDelay w) (reads w)
     (trace w).
Definition set_averaging (w : t) v : t :=
  mk (vna w) (app w) (sweep w) (percentage w) (data11 w) (data21 w)
     (rawData11 w) (rawData21 w) (stopped w) (running w) (continuousSweep w)
     v (averages w) (truncates w) (error_message w) (offsetDelay w) (reads w)
     (trace w).
Definition set_averages (w : t) v : t :=
  mk (vna w) (app w) (sweep w) (percentage w) (data11 w) (data21 w)
     (rawData11 w) (rawData21 w) (stopped w) (running w) (continuousSweep w)
     (averaging w) v (truncates w) (error_message w) (offsetDelay w)
     (reads w) (trace w).
Definition set_truncates (w : t) v : t :=
  mk (vna w) (app w) (sweep w) (percentage w) (data11 w) (data21 w)
     (rawData11 w) (rawData21 w) (stopped w) (running w) (continuousSweep w)
     (averaging w) (averages w) v (error_message w) (offsetDelay w) (reads w)
     (trace w).
Definition set_error_message (w : t) v : t :=
  mk (vna w) (app w) (sweep w) (percentage w) (data11 w) (data21 w)
     (rawData11 w) (rawData21 w) (stopped w) (running w) (continuousSweep w)
     (averaging w) (averages w) (truncates w) v (offsetDelay w) (reads w)
     (trace w).
Definition set_reads (w : t) v : t :=
  mk (vna w) (app w) (sweep w) (percentage w) (data11 w) (data21 w)
     (rawData11 w) (rawData21 w) (stopped w) (running w) (continuousSweep w)
     (averaging w) (averages w) (truncates w) (error_message w)
     (offsetDelay w) v (trace w).
Definition set_trace (w : t) v : t :=
  mk (vna w) (app w) (sweep w) (percentage w) (data11 w) (data21 w)
     (rawData11 w) (rawData21 w) (stopped w) (running w) (continuousSweep w)
     (averaging w) (averages w) (truncates w) (error_message w)
     (offsetDelay w) (reads w) v.

(** [__init__], followed by [setVNA]. *)
Definition init (app : App.t) (vna : VNA.t) : t :=
  mk vna app Sweep.default 0%Qc [] [] [] [] false false false false 3 0
     EmptyString 0%Qc 0%nat [].

Definition setVNA (w : t) (vna : VNA.t) : t := set_vna w vna.

Definition setContinuousSweep (w : t) (continuous_sweep : bool) : t :=
  set_continuousSweep w continuous_sweep.

Definition setAveraging (w : t) (averaging : bool) (averages truncates : string) : t :=
  let w := set_averaging w averaging in
  match Py.int averages with
  | Ok a =>
      let w := set_averages w a in
      match Py.int truncates with
      | Ok tr => set_truncates w tr
      | Raise _ => w
      end
  | Raise _ => w
  end.

(** *** Methods as state transformers that may raise

    An exception leaves the mutations made so far in place. *)
Definition M (A : Type) : Type := t → result A * t.

Definition ret {A} (a : A) : M A := λ w, (Ok a, w).
Definition bind {A B} (f : A → M B) (m : M A) : M B :=
  λ w, match m w with
       | (Ok a, w') => f a w'
       | (Raise e, w') => (Raise e, w')
       end.
#[global] Instance M_mbind : MBind M := @bind.
#[global] Instance M_mret : MRet M := @ret.

Definition raise {A} (e : exn) : M A := λ w, (Raise e, w).
Definition lift {A} (r : result A) : M A := λ w, (r, w).
Definition get : M t := λ w, (Ok w, w).
Definition modify (f : t → t) : M () := λ w, (Ok (), f w).
Definition emit (e : event) : M () := modify (λ w, set_trace w (trace w ++ [e])).

(** [try: m  except ValueError as e: h(str(e))] *)
Definition except_ValueError {A} (m : M A) (h : string → M A) : M A :=
  λ w, match m w with
       | (Raise (ValueError msg), w') => h msg w'
       | r => r
       end.

(** *** Device exchanges *)

Definition vna_setSweep (start stop : Z) : M () := emit (DevSetSweep start stop).
Definition vna_resetSweep (start stop : Z) : M () := emit (DevResetSweep start stop).

Definition vna_readValues (data : string) : M (list string) :=
  w ← get;
  _ ← emit (DevReadValues data);
  _ ← modify (λ w, set_reads w (S (reads w)));
  ret (VNA.readValues (vna w) (reads w) data).

Definition vna_readFrequencies : M (list Qc) :=
  w ← get;
  _ ← emit DevReadFrequencies;
  _ ← modify (λ w, set_reads w (S (reads w)));
  ret (VNA.readFrequencies (vna w) (reads w)).

(** *** [readData] *)

Definition bound : Qc := (Qc_of_Z 95 / Qc_of_Z 10)%Qc.

(** [abs(float(a)) > 9.5 or abs(float(b)) > 9.5] *)
Definition implausible (a b : string) : result bool :=
  fa ← Py.float a;
  if decide (bound < Qcabs fa)%Qc then Ok true
  else fb ← Py.float b; Ok (bool_decide (bound < Qcabs fb)%Qc).

(** The [for d in tmpdata] loop, from the current [done] and
    [returndata]: a line that is not two fields separated by one space
    raises, an implausible pair ends the loop, an unreadable number
    clears [done] and the loop goes on. *)
Fixpoint scan_values (validate : bool) (tmpdata : list string)
    (done : bool) (returndata : list sample) : result (bool * list sample) :=
  match tmpdata with
  | [] => Ok (done, returndata)
  | d :: rest =>
      match Py.split_on " " d with
      | [a; b] =>
          match
            (bad ← (if validate then implausible a b else Ok false);
             if (bad : bool) then Ok None
             else fa ← Py.float a; fb ← Py.float b; Ok (Some (fa, fb)))
          with
          | Ok None => Ok (false, returndata)
          | Ok (Some v) => scan_values validate rest done (returndata ++ [v])
          | Raise (ValueError _) => scan_values validate rest false returndata
          | Raise e => Raise e
          end
      | [] | [_] => Raise (ValueError "not enough values to unpack (expected 2, got 1)")
      | _ => Raise (ValueError "too many values to unpack (expected 2)")
      end
  end.

Definition giving_up (data : string) (count : Z) : string :=
  "Failed reading " +:+ data +:+ " " +:+ pretty count +:+ " times." +:+ Py.nl +:+
  "Data outside expected valid ranges, or in an unexpected format." +:+
  Py.nl +:+ Py.nl +:+
  "You can disable data validation on thedevice settings screen.".

(** The [while not done] loop, entered with [count] failed attempts. *)
Fixpoint readData_loop (fuel : nat) (data : string) (count : Z) : M (list sample) :=
  match fuel with
  | O => raise OutOfFuel
  | S fuel' =>
      tmpdata ← vna_readValues data;
      w ← get;
      r ← lift (scan_values (VNA.validateInput (vna w)) tmpdata true []);
      let '(done, returndata) := r in
      if (done : bool) then ret returndata
      else
        let count := count + 1 in
        if bool_decide (10 ≤ count) then raise (IOError (giving_up data count))
        else readData_loop fuel' data count
  end.

(** Ten attempts always suffice: the tenth failure raises. *)
Definition readData (data : string) : M (list sample) := readData_loop 10 data 0.

(** *** [readSegment] and [readAveragedSegment] *)

Definition readSegment (start stop : Z)
    : M (list Qc * list sample * list sample) :=
  _ ← vna_setSweep start stop;
  frequencies ← vna_readFrequencies;
  values11 ← readData "data 0";
  values21 ← readData "data 1";
  if bool_decide (length frequencies ≠ length values11) ||
     bool_decide (length frequencies ≠ length values21)
  then ret ([], [], [])
  else ret (frequencies, values11, values21).

(** [a / b] on integers: true division. *)
Definition truediv (a b : Z) : result Qc :=
  if decide (b = 0) then Raise ZeroDivisionError
  else Ok (Qc_of_Z a / Qc_of_Z b)%Qc.

(** The [for i in range(averages)] loop with [n] repeats still to go. *)
Fixpoint averaging_loop (n : nat) (start stop averages : Z)
    (acc : list Qc * list (list sample) * list (list sample))
    : M (list Qc * list (list sample) * list (list sample)) :=
  match n with
  | O => ret acc
  | S n' =>
      w ← get;
      if stopped w then ret acc
      else
        let '(_, val11, val21) := acc in
        r ← readSegment start stop;
        let '(freq, tmp11, tmp21) := r in
        inc ← lift (truediv 100 (Sweep.sweeps (sweep w) * averages));
        _ ← modify (λ w, set_percentage w (percentage w + inc)%Qc);
        _ ← emit SigUpdated;
        averaging_loop n' start stop averages (freq, val11 ++ [tmp11], val21 ++ [tmp21])
  end.

Definition readAveragedSegment (start stop averages : Z)
    : M (list Qc * option (list sample) * option (list sample)) :=
  r ← averaging_loop (Z.to_nat averages) start stop averages ([], [], []);
  let '(freq, val11, val21) := r in
  w ← get;
  val11 ← lift (truncate val11 (truncates w));
  val21 ← lift (truncate val21 (truncates w));
  return11 ← lift (average0 val11);
  return21 ← lift (average0 val21);
  ret (freq, return11, return21).

(** [l[i] = v]: [IndexError] past the end. *)
Definition setitem {A} (l : list A) (i : nat) (v : A) : result (list A) :=
  if decide (i < length l)%nat then Ok (<[i := v]> l) else Raise IndexError.

Fixpoint mapM {A B} (f : A → result B) (l : list A) : result (list B) :=
  match l with
  | [] => Ok []
  | a :: l' => b ← f a; bs ← mapM f l'; Ok (b :: bs)
  end.

Section Collaborators.

(** [Formatting.parse_frequency] and [Calibration.correct_delay] are
    imported by the worker but are not among the sources. *)
Variable parse_frequency : string → Z.
Variable correct_delay : Datapoint → Qc → bool → Datapoint.

(** Modelled from the spec: the worker hands [correct11] and
    [correct21] a whole [Datapoint] and gets one back, while
    [Calibration.py] provides them on [(re, im, freq)]; the call is
    taken to pass the fields and keep the frequency. *)
Definition correct11_dp (c : Calibration.t) (dp : Datapoint) : result Datapoint :=
  r ← Calibration.correct11 c (re dp) (im dp) (freq dp);
  Ok (mkDatapoint (freq dp) r.1 r.2).
Definition correct21_dp (c : Calibration.t) (dp : Datapoint) : result Datapoint :=
  r ← Calibration.correct21 c (re dp) (im dp) (freq dp);
  Ok (mkDatapoint (freq dp) r.1 r.2).

Definition applyCalibration (w : t) (raw_data11 raw_data21 : list Datapoint)
    : result (list Datapoint * list Datapoint) :=
  let '(raw_data11, raw_data21) :=
    if decide (offsetDelay w ≠ 0%Qc) then
      (map (λ dp, correct_delay dp (offsetDelay w) true) raw_data11,
       map (λ dp, correct_delay dp (offsetDelay w) false) raw_data21)
    else (raw_data11, raw_data21) in
  let cal := App.calibration (app w) in
  if negb (Calibration.isCalculated cal) then Ok (raw_data11, raw_data21)
  else
    data11 ← (if Calibration.isValid1Port cal
              then mapM (correct11_dp cal) raw_data11
              else Ok raw_data11);
    data21 ← (if Calibration.isValid2Port cal
              then mapM (correct21_dp cal) raw_data21
              else Ok raw_data21);
    Ok (data11, data21).

(** The loop of [saveData]: one [pop(0)] from each value list per
    frequency. *)
Fixpoint pair_up (frequencies : list Qc) (v11 v21 : list sample)
    : result (list Datapoint * list Datapoint) :=
  match frequencies with
  | [] => Ok ([], [])
  | f :: fs =>
      match v11, v21 with
      | (real11, imag11) :: v11', (real21, imag21) :: v21' =>
          r ← pair_up fs v11' v21';
          Ok (mkDatapoint f real11 imag11 :: r.1, mkDatapoint f real21 imag21 :: r.2)
      | _, _ => Raise IndexError
      end
  end.

Definition saveData (frequencies : list Qc) (values11 values21 : list sample) : M () :=
  r ← lift (pair_up frequencies values11 values21);
  let '(raw_data11, raw_data21) := r in
  _ ← modify (λ w, set_rawData11 w raw_data11);
  _ ← modify (λ w, set_rawData21 w raw_data21);
  w ← get;
  d ← lift (applyCalibration w raw_data11 raw_data21);
  _ ← modify (λ w, set_data21 (set_data11 w d.1) d.2);
  _ ← emit (AppSaveData d.1 d.2);
  emit SigUpdated.

(** The loop of [updateData] from position [i] of [values11]. *)
Fixpoint update_from (i : nat) (rest11 : list sample) (values21 : list sample)
    (offset segment_size : Z) : M () :=
  match rest11 with
  | [] => ret ()
  | (re, im) :: rest11' =>
      v21 ← lift (getitem values21 i);
      let '(re21, im21) := v21 in
      let k := Z.to_nat (offset * segment_size + Z.of_nat i) in
      w ← get;
      old ← lift (getitem (data11 w) k);
      let raw_data11 := mkDatapoint (freq old) re im in
      let raw_data21 := mkDatapoint (freq old) re21 im21 in
      d ← lift (applyCalibration w [raw_data11] [raw_data21]);
      d11 ← lift (getitem d.1 0);
      d21 ← lift (getitem d.2 0);
      l ← lift (setitem (data11 w) k d11);
      _ ← modify (λ w, set_data11 w l);
      l ← lift (setitem (data21 w) k d21);
      _ ← modify (λ w, set_data21 w l);
      l ← lift (setitem (rawData11 w) k raw_data11);
      _ ← modify (λ w, set_rawData11 w l);
      l ← lift (setitem (rawData21 w) k raw_data21);
      _ ← modify (λ w, set_rawData21 w l);
      update_from (S i) rest11' values21 offset segment_size
  end.

Definition updateData (values11 values21 : list sample) (offset segment_size : Z) : M () :=
  _ ← update_from 0 values11 values21 offset segment_size;
  w ← get;
  _ ← emit (AppSaveData (data11 w) (data21 w));
  emit SigUpdated.

(** *** [run] *)

(** The lists [run] accumulates: frequencies, values11, values21. *)
Definition buffers : Type := list Qc * list sample * list sample.

(** [values.extend(val)]: the scalar [nan] is not iterable. *)
Definition extend (values : list sample) (val : option (list sample))
    : result (list sample) :=
  match val with
  | Some l => Ok (values ++ l)
  | None => Raise (TypeError "'float' object is not iterable")
  end.

(** The handler of the [except ValueError as e] inside the loop. *)
Definition sweep_failed (msg : string) : M () :=
  _ ← modify (λ w, set_error_message w msg);
  _ ← modify (λ w, set_stopped w true);
  _ ← modify (λ w, set_running w false);
  emit SigSweepError.

(** The body of [for i in range(self.sweep.sweeps)]; [Return] is the
    [break] taken when the worker has been stopped. *)
Definition segment (first_sweep : bool) (i : nat) (b : buffers)
    : M (flow buffers ()) :=
  w ← get;
  if stopped w then ret (Return b ())
  else
    let '(start, stop) := Sweep.get_index_range (sweep w) (Z.of_nat i) in
    let '(frequencies, values11, values21) := b in
    r ← except_ValueError
          (r ← (if averaging w then readAveragedSegment start stop (averages w)
                else r ← readSegment start stop;
                     ret (r.1.1, Some r.1.2, Some r.2));
           p ← lift (truediv ((Z.of_nat i + 1) * 100) (Sweep.sweeps (sweep w)));
           _ ← modify (λ w, set_percentage w p);
           ret (Some r))
          (λ msg, _ ← sweep_failed msg; ret None);
    match r with
    | None => ret (Next b)
    | Some (freq, val11, val21) =>
        if negb first_sweep then
          _ ← except_ValueError
                (updateData values11 values21 (Z.of_nat i) (Sweep.points (sweep w)))
                sweep_failed;
          ret (Next b)
        else
          let frequencies := frequencies ++ freq in
          values11 ← lift (extend values11 val11);
          values21 ← lift (extend values21 val21);
          _ ← except_ValueError (saveData frequencies values11 values21) sweep_failed;
          ret (Next (frequencies, values11, values21))
    end.

Fixpoint segments (first_sweep : bool) (items : list nat) (b : buffers)
    : M (flow buffers ()) :=
  match items with
  | [] => ret (Next b)
  | i :: items' =>
      r ← segment first_sweep i b;
      match r with
      | Next b' => segments first_sweep items' b'
      | Return b' v => ret (Return b' v)
      end
  end.

(** The [while not finished] loop; it ends by itself unless the sweep
    is continuous. *)
Fixpoint sweeping (fuel : nat) (first_sweep : bool) (b : buffers) : M () :=
  match fuel with
  | O => raise OutOfFuel
  | S fuel' =>
      w ← get;
      r ← segments first_sweep (seq 0 (Z.to_nat (Sweep.sweeps (sweep w)))) b;
      let '(b, finished) :=
        match r with
        | Next b => (b, false)
        | Return b _ => (b, true)
        end in
      w ← get;
      if finished || negb (continuousSweep w) then ret ()
      else sweeping fuel' false b
  end.

Definition parse_error : string :=
  "Unable to parse frequency inputs - check start and stop fields.".

Definition run (fuel : nat) : M () :=
  _ ← modify (λ w, set_running w true);
  _ ← modify (λ w, set_percentage w 0%Qc);
  w ← get;
  if negb (VNA.connected (vna w)) then
    modify (λ w, set_running w false)
  else
    r ← except_ValueError
          (let start := parse_frequency (App.sweepStartInput (app w)) in
           let end_ := parse_frequency (App.sweepEndInput (app w)) in
           count ← lift (Py.int (App.sweepCountInput (app w)));
           sw ← lift (Sweep.init start end_ (VNA.datapoints (vna w)) count);
           ret (Some sw))
          (λ _,
             _ ← modify (λ w, set_error_message w parse_error);
             _ ← modify (λ w, set_stopped w true);
             _ ← modify (λ w, set_running w false);
             _ ← emit SigSweepError;
             ret None);
    match r with
    | None => ret ()
    | Some sw =>
        let first_sweep := negb (Sweep.eqb sw (sweep w)) in
        _ ← modify (λ w, set_sweep w sw);
        _ ← sweeping fuel first_sweep ([], [], []);
        w ← get;
        _ ← (if bool_decide (1 < Sweep.sweeps (sweep w)) then
               vna_resetSweep (parse_frequency (App.sweepStartInput (app w)))
                              (parse_frequency (App.sweepEndInput (app w)))
             else ret ());
        _ ← modify (λ w, set_percentage w (Qc_of_Z 100));
        _ ← emit SigFinished;
        modify (λ w, set_running w false)
    end.

End Collaborators.

End SweepWorker.

(** ** The Touchstone reader ([class Options], [class Touchstone]) *)

Module Options.

Record t : Type := mk {
  factor : Z;
  parameter : string;
  format : string;
  resistance : Z
}.

(** [UNIT_TO_FACTOR[p]] for the four keys. *)
Definition UNIT_TO_FACTOR (p : string) : Z :=
  if decide (p = "ghz") then 10 ^ 9
  else if decide (p = "mhz") then 10 ^ 6
  else if decide (p = "khz") then 10 ^ 3
  else 10 ^ 0.

(** [__init__]: the defaults. *)
Definition init : t := mk (UNIT_TO_FACTOR "ghz") "s" "ma" 50.

Definition is_unit (p : string) : bool :=
  bool_decide (p = "ghz") || bool_decide (p = "mhz") ||
  bool_decide (p = "khz") || bool_decide (p = "hz").
Definition is_format (p : string) : bool :=
  bool_decide (p = "ma") || bool_decide (p = "db") || bool_decide (p = "ri").

(** The [for p in params] loop; [next(params)] in the resistance branch
    takes the following token from the same iterator. *)
Fixpoint parse_params (line : string) (params : list string) (o : t)
    (pfact pparam pformat presist : bool) : result t :=
  match params with
  | [] => Ok o
  | p :: rest =>
      if is_unit p && negb pfact then
        parse_params line rest
          (mk (UNIT_TO_FACTOR p) (parameter o) (format o) (resistance o))
          true pparam pformat presist
      else if Py.contains p "syzgh" && negb pparam then
        parse_params line rest
          (mk (factor o) p (format o) (resistance o))
          pfact true pformat presist
      else if is_format p && negb pformat then
        parse_params line rest
          (mk (factor o) (parameter o) p (resistance o))
          pfact pparam true presist
      else if bool_decide (p = "r") && negb presist then
        match rest with
        | [] => Raise StopIteration
        | v :: rest' =>
            r ← Py.int v;
            parse_params line rest'
              (mk (factor o) (parameter o) (format o) r)
              pfact pparam pformat presist
        end
      else Raise (TypeError ("Illegial option line: " +:+ line))
  end.

Definition parse (o : t) (line : string) : result t :=
  if negb (Py.startswith "#" line) then
    Raise (TypeError ("Not an option line: " +:+ line))
  else
    match line with
    | String _ tail => parse_params line (Py.split (Py.lower tail)) o false false false false
    | EmptyString => Ok o
    end.

End Options.

Module Touchstone.

Record t : Type := mk {
  filename : string;
  sdata : list (list Datapoint);
  comments : list string;
  opts : Options.t
}.

Definition init (filename : string) : t :=
  mk filename [[]; []; []; []] [] Options.init.

Definition s11data (ts : t) : result (list Datapoint) := getitem (sdata ts) 0.
Definition s21data (ts : t) : result (list Datapoint) := getitem (sdata ts) 1.
Definition s12data (ts : t) : result (list Datapoint) := getitem (sdata ts) 2.
Definition s22data (ts : t) : result (list Datapoint) := getitem (sdata ts) 3.

(** [_parse_comments]: the comments collected, the first other line
    (stripped; [None] when the file ends first) and the lines left in
    the stream. *)
Fixpoint parse_comments (fp : list string) (comments : list string)
    : list string * option string * list string :=
  match fp with
  | [] => (comments, None, [])
  | line :: fp' =>
      let line := Py.strip line in
      if Py.startswith "!" line then parse_comments fp' (comments ++ [line])
      else (comments, Some line, fp')
  end.

(** [next(data_list).append(dp)] with the iterator at position [slot]. *)
Definition append_slot (sdata : list (list Datapoint)) (slot : nat) (dp : Datapoint)
    : list (list Datapoint) :=
  alter (λ l, l ++ [dp]) slot sdata.

(** The [for v in vals] loop over the values of one data line.  In the
    [ma] branch [cmath.polar], a function of one complex argument, is
    called with two. *)
Fixpoint store_values (fmt : string) (freq : Qc) (vals : list string)
    (slot : nat) (sdata : list (list Datapoint)) : result (list (list Datapoint)) :=
  match vals with
  | [] => Ok sdata
  | v :: rest =>
      if decide (fmt = "ri") then
        if decide (slot < length sdata)%nat then
          a ← Py.float v;
          match rest with
          | [] => Raise StopIteration
          | v' :: rest' =>
              b ← Py.float v';
              store_values fmt freq rest' (S slot)
                (append_slot sdata slot (mkDatapoint freq a b))
          end
        else Raise StopIteration
      else if decide (fmt = "ma") then
        a ← Py.float v;
        match rest with
        | [] => Raise StopIteration
        | v' :: rest' =>
            b ← Py.float v';
            Raise (TypeError "polar() takes exactly one argument (2 given)")
        end
      else store_values fmt freq rest slot sdata
  end.

(** The state of the loop over the data lines. *)
Record cursor : Type := mkCursor {
  prev_freq : Qc;
  prev_len : nat;
  cur_sdata : list (list Datapoint)
}.

(** The head of the loop body: the trailing comment is cut off, the
    rest is split on whitespace, and the first field, scaled by the unit
    factor, is the frequency. *)
Definition fields (o : Options.t) (line : string) : result (Qc * list string) :=
  let data := hd EmptyString (Py.split_on "!" line) in
  let data := Py.split data in
  match data with
  | [] => Raise IndexError
  | f :: data =>
      x ← Py.float f;
      Ok ((x * Qc_of_Z (Options.factor o))%Qc, data)
  end.

(** One data line that is not blank. *)
Definition data_line (o : Options.t) (line : string) (c : cursor) : result cursor :=
  r ← fields o line;
  let '(freq, data) := r in
  let data_len := length data in
  if decide (freq ≤ prev_freq c)%Qc then
    Raise (TypeError ("Frequeny not ascending: " +:+ line))
  else
    let prev_len := if decide (prev_len c = 0%nat) then data_len else prev_len c in
    if decide (data_len `mod` 2 ≠ 0)%nat then
      Raise (TypeError ("Data values aren't pairs: " +:+ line))
    else if decide (data_len ≠ prev_len) then
      Raise (TypeError ("Inconsistent number of pairs: " +:+ line))
    else
      sdata ← store_values (Options.format o) freq data 0 (cur_sdata c);
      Ok (mkCursor freq prev_len sdata).

Fixpoint data_lines (o : Options.t) (file : list string) (c : cursor) : result cursor :=
  match file with
  | [] => Ok c
  | line :: file' =>
      if decide (Py.strip line = EmptyString) then data_lines o file' c
      else c' ← data_line o line c; data_lines o file' c'
  end.

(** [loads]: the object after a successful parse. *)
Definition loads (ts : t) (s : string) : result t :=
  let '(comments, opts_line, file) := parse_comments (Py.lines s) (comments ts) in
  match opts_line with
  | None => Raise (AttributeError "'NoneType' object has no attribute 'startswith'")
  | Some opts_line =>
      o ← Options.parse (opts ts) opts_line;
      c ← data_lines o file (mkCursor 0%Qc 0%nat (sdata ts));
      Ok (mk (filename ts) (cur_sdata c) comments o)
  end.

End Touchstone.

(** ** Impedance of a reflection coefficient ([class RFTools]) *)

Module RFTools.



End RFTools.

(** ** Markers ([class Marker]) *)

Module Marker.



End Marker.

(** ** Vocabulary of the statements *)

(** The samples of frequency bin [j], one from every repeat. *)
Definition bin (values : list (list Averaging.sample)) (j : nat) : list Averaging.sample :=
  omap (λ r, r !! j) values.

(** A reply line carrying the pair [v], both components readable and
    within the plausibility bound. *)
Definition plausible_line (d : string) (v : Averaging.sample) : Prop :=
  ∃ a b, Py.split_on " " d = [a; b] ∧ Py.float a = Ok v.1 ∧ Py.float b = Ok v.2 ∧
         (Qcabs v.1 ≤ SweepWorker.bound)%Qc ∧ (Qcabs v.2 ≤ SweepWorker.bound)%Qc.

(** A reply line of two fields separated by one space. *)
Definition two_fields (d : string) : Prop :=
  ∃ a b, Py.split_on " " d = [a; b].

(** A reply line carrying a pair with a component of magnitude above the
    bound: the first, or else the second. *)
Definition out_of_bound_line (d : string) : Prop :=
  ∃ a b fa, Py.split_on " " d = [a; b] ∧ Py.float a = Ok fa ∧
            ((SweepWorker.bound < Qcabs fa)%Qc ∨
             ∃ fb, Py.float b = Ok fb ∧ (SweepWorker.bound < Qcabs fb)%Qc).

(** A reply all of whose lines are plausible, with the values it carries. *)
Definition valid_reply (reply : list string) (vals : list Averaging.sample) : Prop :=
  Forall2 plausible_line reply vals.

(** A reply with an out-of-bound line, the lines before it being pairs
    of fields. *)
Definition out_of_bound_reply (reply : list string) : Prop :=
  ∃ pre d post, reply = pre ++ d :: post ∧ Forall two_fields pre ∧ out_of_bound_line d.

(** The worker after [k] more reads of the channel [data]. *)
Definition after_reads (w : SweepWorker.t) (data : string) (k : nat) : SweepWorker.t :=
  SweepWorker.set_reads
    (SweepWorker.set_trace w (SweepWorker.trace w ++ replicate k (DevReadValues data)))
    (SweepWorker.reads w + k)%nat.

(** A data line of a Touchstone file as the reader sees it: the scaled
    frequency and the value fields after it. *)
Definition row : Type := Qc * list string.

(** The rows of the lines of [file] that are not blank. *)
Definition data_rows (o : Options.t) (file : list string) (rows : list row) : Prop :=
  Forall2 (λ line r, Touchstone.fields o line = Ok r)
          (filter (λ line, Py.strip line ≠ EmptyString) file) rows.

(** The frequency a row is compared with: that of the row before it, and
    [first] for the first row. *)
Definition preceding (first : Qc) (rows : list row) (i : nat) : Qc :=
  match i with
  | O => first
  | S j => from_option fst 0%Qc (rows !! j)
  end.

Definition not_ascending (first : Qc) (rows : list row) : Prop :=
  ∃ i r, rows !! i = Some r ∧ (r.1 ≤ preceding first rows i)%Qc.
Definition odd_count (rows : list row) : Prop :=
  ∃ i r, rows !! i = Some r ∧ Nat.even (length r.2) = false.
Definition differing_counts (rows : list row) : Prop :=
  ∃ j i rj ri, (j < i)%nat ∧ rows !! j = Some rj ∧ rows !! i = Some ri ∧
               length rj.2 ≠ 0%nat ∧ length ri.2 ≠ length rj.2.

Definition differs_from_first (rows : list row) : Prop :=
  ∃ i r0 ri, rows !! 0%nat = Some r0 ∧ rows !! i = Some ri ∧ length ri.2 ≠ length r0.2.

(** The three structural violations of a data section: a frequency not
    above the one before it (0 before the first), an odd number of
    values, a number of values other than that of the first row. *)
Definition violation (rows : list row) : Prop :=
  not_ascending 0%Qc rows ∨ odd_count rows ∨ differs_from_first rows.

(** The same with the counts compared among all rows that have values. *)
Definition violation_among (rows : list row) : Prop :=
  not_ascending 0%Qc rows ∨ odd_count rows ∨ differing_counts rows.

(** The three errors the consistency checks raise. *)
Definition structural_error (e : exn) : Prop :=
  ∃ line, e = TypeError ("Frequeny not ascending: " +:+ line) ∨
          e = TypeError ("Data values aren't pairs: " +:+ line) ∨
          e = TypeError ("Inconsistent number of pairs: " +:+ line).

(** The checks of the loop on rows, from a previous frequency and a
    previous count. *)
Fixpoint rows_pass (pf : Qc) (pl : nat) (rows : list row) : bool :=
  match rows with
  | [] => true
  | (f, d) :: rest =>
      let n := length d in
      let pl' := if decide (pl = 0%nat) then n else pl in
      bool_decide (pf < f)%Qc && Nat.even n && bool_decide (n = pl') &&
      rows_pass f pl' rest
  end.

(** The violations seen from inside the loop, where a previous count
    [pl], if any, also binds. *)
Definition violation_from (pf : Qc) (pl : nat) (rows : list row) : Prop :=
  not_ascending pf rows ∨ odd_count rows ∨
  (pl ≠ 0%nat ∧ ∃ i r, rows !! i = Some r ∧ length r.2 ≠ pl) ∨
  differing_counts rows.

(** Storing the values of the even rows cannot fail, on any table of
    [n] slots. *)
Definition storable (o : Options.t) (n : nat) (rows : list row) : Prop :=
  ∀ r sdata, r ∈ rows → Nat.even (length r.2) = true → length sdata = n →
    ∃ sdata', Touchstone.store_values (Options.format o) r.1 r.2 0 sdata = Ok sdata' ∧
              length sdata' = n.

(** The parts of the calibration object [calculateCorrections] only
    reads. *)
Definition inputs (c : Calibration.t) :=
  (Calibration.s11short c, Calibration.s11open c, Calibration.s11load c,
   Calibration.s21through c, Calibration.s21isolation c,
   Calibration.useIdealShort c, Calibration.useIdealOpen c,
   Calibration.useIdealLoad c).

(** [filled l v k m l0]: [l] is [l0] with the entries at [k], ...,
    [k + m - 1] (those within range) set to [v]. *)
Definition filled (l : list (option Complex.t)) (v : Complex.t) (k m : nat)
    (l0 : list (option Complex.t)) : Prop :=
  length l = length l0 ∧
  (∀ j, (j < k)%nat → l !! j = l0 !! j) ∧
  (∀ j, (k ≤ j < k + m)%nat → (j < length l0)%nat → l !! j = Some (Some v)).


(** The settings [Sweep.__init__] accepts: all four positive, at least
    two points in all, and a span of at least one hertz per step. *)
Definition legal_plan (start end_ points sweeps : Z) : Prop :=
  0 < start ∧ 0 < end_ ∧ 0 < points ∧ 0 < sweeps ∧
  2 ≤ points * sweeps ∧ points * sweeps - 1 ≤ end_ - start.

(** The distance the nearest-frequency scan compares. *)
Definition distance (f : Qc) (dp : Datapoint) : Qc := Qcabs (freq dp - f).

(** [i] is the first position of [pts] with frequency [f]. *)
Definition first_at (pts : list Datapoint) (f : Qc) (i : nat) : Prop :=
  (∃ dp, pts !! i = Some dp ∧ freq dp = f) ∧
  ∀ j dp, (j < i)%nat → pts !! j = Some dp → freq dp ≠ f.

(** The reflection coefficients the loop of [calculateCorrections] works
    with at index [i]: the modelled [g] and the measured [gm] of short,
    open and load. *)
Definition standards_at (shortModel openModel loadModel : Qc → result Complex.t)
    (c : Calibration.t) (i : nat) (g gm : Complex.t * Complex.t * Complex.t) : Prop :=
  ∃ sh op ld,
    Calibration.s11short c !! i = Some sh ∧
    Calibration.s11open c !! i = Some op ∧
    Calibration.s11load c !! i = Some ld ∧
    (if Calibration.useIdealShort c then Ok Calibration.shortIdeal
     else shortModel (freq sh)) = Ok g.1.1 ∧
    (if Calibration.useIdealOpen c then Ok Calibration.openIdeal
     else openModel (freq sh)) = Ok g.1.2 ∧
    (if Calibration.useIdealLoad c then Ok Calibration.loadIdeal
     else loadModel (freq sh)) = Ok g.2 ∧
    gm = (complex_of sh, complex_of op, complex_of ld).

(** The error terms [v = (e00, e11, deltaE)] computed from [g] and [gm]. *)
Definition solves (g gm v : Complex.t * Complex.t * Complex.t) : Prop :=
  let d := Calibration.denominator g.1.1 g.1.2 g.2 gm.1.1 gm.1.2 gm.2 in
  Complex.div (Calibration.num_e00 g.1.1 g.1.2 g.2 gm.1.1 gm.1.2 gm.2) d = Ok v.1.1 ∧
  Complex.div (Calibration.num_e11 g.1.1 g.1.2 g.2 gm.1.1 gm.1.2 gm.2) d = Ok v.1.2 ∧
  Complex.div (Calibration.num_deltaE g.1.1 g.1.2 g.2 gm.1.1 gm.1.2 gm.2) d = Ok v.2.

(** The error terms of [c'] at index [j] are those the standards of [c]
    determine there. *)
Definition terms_at (shortModel openModel loadModel : Qc → result Complex.t)
    (c c' : Calibration.t) (j : nat) : Prop :=
  ∃ g gm v,
    standards_at shortModel openModel loadModel c j g gm ∧ solves g gm v ∧
    Calibration.e00 c' !! j = Some (Some v.1.1) ∧
    Calibration.e11 c' !! j = Some (Some v.1.2) ∧
    Calibration.deltaE c' !! j = Some (Some v.2) ∧
    (Calibration.isValid2Port c = true →
     ∃ iso thr, Calibration.s21isolation c !! j = Some iso ∧
       Calibration.s21through c !! j = Some thr ∧
       Calibration.e30 c' !! j = Some (Some (complex_of iso)) ∧
       Calibration.e10e32 c' !! j =
         Some (Some ((complex_of thr - complex_of iso) *
                     (Complex.of_Qc 1 - v.1.2 * v.1.2))%C)).

(** Two calibration objects agree on the error terms below index [k],
    and their arrays are equally long. *)
Definition agree_below (k : nat) (c c' : Calibration.t) : Prop :=
  length (Calibration.e00 c') = length (Calibration.e00 c) ∧
  length (Calibration.e11 c') = length (Calibration.e11 c) ∧
  length (Calibration.deltaE c') = length (Calibration.deltaE c) ∧
  length (Calibration.e30 c') = length (Calibration.e30 c) ∧
  length (Calibration.e10e32 c') = length (Calibration.e10e32 c) ∧
  ∀ j, (j < k)%nat →
    Calibration.e00 c' !! j = Calibration.e00 c !! j ∧
    Calibration.e11 c' !! j = Calibration.e11 c !! j ∧
    Calibration.deltaE c' !! j = Calibration.deltaE c !! j ∧
    Calibration.e30 c' !! j = Calibration.e30 c !! j ∧
    Calibration.e10e32 c' !! j = Calibration.e10e32 c !! j.

(** Three complex numbers no two of which are equal. *)
Definition distinct3 (x : Complex.t * Complex.t * Complex.t) : Prop :=
  x.1.1 ≠ x.1.2 ∧ x.1.1 ≠ x.2 ∧ x.1.2 ≠ x.2.

(** A complex number as the pair [correct11] and [correct21] return. *)
Definition parts (z : Complex.t) : Qc * Qc := (Complex.real z, Complex.imag z).

(** A reply line carrying the pair [v], both components readable,
    whatever their magnitude. *)
Definition numeric_line (d : string) (v : Averaging.sample) : Prop :=
  ∃ a b, Py.split_on " " d = [a; b] ∧ Py.float a = Ok v.1 ∧ Py.float b = Ok v.2.

(** The worker after [run] has refused the sweep settings: stopped, not
    running, at 0 percent, with the message of [run], and [sweepError]
    emitted. *)
Definition refused (w : SweepWorker.t) : SweepWorker.t :=
  SweepWorker.set_trace
    (SweepWorker.set_running
       (SweepWorker.set_stopped
          (SweepWorker.set_error_message
             (SweepWorker.set_percentage (SweepWorker.set_running w true) 0%Qc)
             SweepWorker.parse_error)
          true)
       false)
    (SweepWorker.trace w ++ [SigSweepError]).

(** The exchanges of one segment: the sweep command, the frequencies,
    and [k11] and [k21] reads of the two data channels. *)
Definition segment_exchanges (start stop : Z) (k11 k21 : nat) : list event :=
  [DevSetSweep start stop; DevReadFrequencies] ++
  replicate k11 (DevReadValues "data 0") ++ replicate k21 (DevReadValues "data 1").

(** The data points [saveData] builds from the frequencies and the
    values of one channel. *)
Definition datapoints_of (fs : list Qc) (vals : list Averaging.sample) : list Datapoint :=
  zip_with (λ f v, mkDatapoint f v.1 v.2) fs vals.

(** The worker after the exchanges of one segment. *)
Definition after_segment (w : SweepWorker.t) (start stop : Z) (k11 k21 : nat)
    : SweepWorker.t :=
  SweepWorker.set_reads
    (SweepWorker.set_trace w
       (SweepWorker.trace w ++ segment_exchanges start stop k11 k21))
    (SweepWorker.reads w + 1 + k11 + k21)%nat.

(** The worker after [saveData] has published uncorrected data. *)
Definition published (w : SweepWorker.t) (d11 d21 : list Datapoint) : SweepWorker.t :=
  SweepWorker.set_trace
    (SweepWorker.set_data21
       (SweepWorker.set_data11
          (SweepWorker.set_rawData21 (SweepWorker.set_rawData11 w d11) d21) d11) d21)
    (SweepWorker.trace w ++ [AppSaveData d11 d21; SigUpdated]).




(** [sdata'] extends every slot of [sdata]. *)
Definition extends (sdata sdata' : list (list Datapoint)) : Prop :=
  length sdata' = length sdata ∧
  ∀ slot l, sdata !! slot = Some l → ∃ new, sdata' !! slot = Some (l ++ new).


(** The test of the parameter branch of [Options.parse]: [p in "syzgh"]. *)
Definition is_parameter (p : string) : bool := Py.contains p "syzgh".

(** The tokens of an options line: what follows its first character, in
    lower case, split on whitespace. *)
Definition option_tokens (line : string) : list string :=
  match line with
  | String _ tail => Py.split (Py.lower tail)
  | EmptyString => []
  end.

(** How the tokens of kind [K] settle a field of the options, seen from
    inside the loop: with the flag of the kind set no further token of
    the kind occurs and the field keeps its value; with the flag clear at
    most one token of the kind occurs, the field takes the value of any
    that does, and keeps its own when none does. *)
Definition kind_ok {V : Type} (K : string → bool) (flag : bool) (old new : V)
    (value : string → V) (params : list string) : Prop :=
  if flag then Forall (λ p, K p = false) params ∧ new = old
  else (length (List.filter K params) ≤ 1)%nat ∧
       (∀ u, u ∈ params → K u = true → new = value u) ∧
       (Forall (λ p, K p = false) params → new = old).

(** The same for a whole options line. *)
Definition settles {V : Type} (K : string → bool) (old new : V)
    (value : string → V) (toks : list string) : Prop :=
  (length (List.filter K toks) ≤ 1)%nat ∧
  (∀ u, u ∈ toks → K u = true → new = value u) ∧
  (Forall (λ p, K p = false) toks → new = old).





(** The five lists of measured standards of a calibration, and what
    [calculateCorrections] derives from them together with the flags. *)
Definition measurements (c : Calibration.t) :=
  (Calibration.s11short c, Calibration.s11open c, Calibration.s11load c,
   Calibration.s21through c, Calibration.s21isolation c).

Definition derived (c : Calibration.t) :=
  (Calibration.frequencies c, Calibration.e00 c, Calibration.e11 c,
   Calibration.deltaE c, Calibration.e30 c, Calibration.e10e32 c,
   Calibration.useIdealShort c, Calibration.useIdealOpen c,
   Calibration.useIdealLoad c, Calibration.isCalculated c).

(** The lists of standards are filled in the order short, open, load,
    through, isolation: none is longer than the one before it. *)
Definition filled_in_order (c : Calibration.t) : Prop :=
  (length (Calibration.s21isolation c) ≤ length (Calibration.s21through c))%nat ∧
  (length (Calibration.s21through c) ≤ length (Calibration.s11load c))%nat ∧
  (length (Calibration.s11load c) ≤ length (Calibration.s11open c))%nat ∧
  (length (Calibration.s11open c) ≤ length (Calibration.s11short c))%nat.

(** No line of the text is the header of a calibration file. *)
Definition headerless (text : string) : Prop :=
  ∀ l, l ∈ Py.lines text → Py.strip l ≠ Calibration.header_line.

(** Every row of the lists of standards is complete: short, open and
    load have the same length, and the two-port lists either have that
    length too or take no part (no isolation point). *)
Definition rows_complete (c : Calibration.t) : Prop :=
  length (Calibration.s11open c) = length (Calibration.s11short c) ∧
  length (Calibration.s11load c) = length (Calibration.s11short c) ∧
  (Calibration.s21isolation c = [] ∨
   (length (Calibration.s21through c) = length (Calibration.s11short c) ∧
    length (Calibration.s21isolation c) = length (Calibration.s11short c))).

(** Every character of a string passes a test; a string without
    whitespace; fields joined by single spaces. *)
Fixpoint all_chars (p : ascii → bool) (s : string) : bool :=
  match s with
  | EmptyString => true
  | String c s' => p c && all_chars p s'
  end.

Definition spaceless (s : string) : bool := all_chars (λ c, negb (Py.isspace c)) s.

Fixpoint join_spaces (fields : list string) : string :=
  match fields with
  | [] => EmptyString
  | [f] => f
  | f :: fields' => f +:+ " " +:+ join_spaces fields'
  end.

(** [str] prints a value without whitespace and so that [float] reads
    it back; it prints a frequency so that [int] reads it back. *)
Definition prints_value (str_float : Qc → string) (x : Qc) : Prop :=
  spaceless (str_float x) = true ∧ Py.float (str_float x) = Ok x.

Definition prints_frequency (str_freq : Qc → string) (x : Qc) : Prop :=
  spaceless (str_freq x) = true ∧
  ∃ z, x = Qc_of_Z z ∧ Py.int (str_freq x) = Ok z.

(** The numbers of a calibration all print and read back. *)
Definition printable (str_freq str_float : Qc → string) (c : Calibration.t) : Prop :=
  ∀ dp,
    dp ∈ Calibration.s11short c ++ Calibration.s11open c ++ Calibration.s11load c
         ++ Calibration.s21through c ++ Calibration.s21isolation c →
    prints_frequency str_freq (freq dp) ∧
    prints_value str_float (re dp) ∧ prints_value str_float (im dp).

(** The standards were measured at the same frequencies, and through and
    isolation either both were or both were not. *)
Definition same_axis (c : Calibration.t) : Prop :=
  freq <$> Calibration.s11open c = freq <$> Calibration.s11short c ∧
  freq <$> Calibration.s11load c = freq <$> Calibration.s11short c ∧
  ((Calibration.s21through c = [] ∧ Calibration.s21isolation c = []) ∨
   (freq <$> Calibration.s21through c = freq <$> Calibration.s11short c ∧
    freq <$> Calibration.s21isolation c = freq <$> Calibration.s11short c)).

(** Every index of the short list exists in the other lists that a saved
    row takes a point from. *)
Definition covers_short (c : Calibration.t) : Prop :=
  (length (Calibration.s11short c) ≤ length (Calibration.s11open c))%nat ∧
  (length (Calibration.s11short c) ≤ length (Calibration.s11load c))%nat ∧
  (Calibration.isValid2Port c = true →
   (length (Calibration.s11short c) ≤ length (Calibration.s21through c))%nat ∧
   (length (Calibration.s11short c) ≤ length (Calibration.s21isolation c))%nat).

(** What the device answers during one segment: the frequencies and the
    values of the two data channels. *)
Definition segment_reply : Type :=
  list Qc * list Averaging.sample * list Averaging.sample.

(** The device answers a segment read from exchange number [k] on with
    [r]: the frequencies, then one plausible reply per channel, each with
    one value per frequency. *)
Definition answers (vna : VNA.t) (k : nat) (r : segment_reply) : Prop :=
  VNA.readFrequencies vna k = r.1.1 ∧
  valid_reply (VNA.readValues vna (k + 1) "data 0") r.1.2 ∧
  valid_reply (VNA.readValues vna (k + 2) "data 1") r.2 ∧
  length r.1.2 = length r.1.1 ∧ length r.2 = length r.1.1.

(** The device answers the segments of a sweep one after the other,
    three exchanges each. *)
Definition answers_all (vna : VNA.t) (k : nat) (segs : list segment_reply) : Prop :=
  ∀ j r, segs !! j = Some r → answers vna (k + 3 * j) r.

(** The buffers of [run] after the segments [segs] have been added. *)
Definition gathered (b : SweepWorker.buffers) (segs : list segment_reply)
    : SweepWorker.buffers :=
  (b.1.1 ++ concat ((λ r : segment_reply, r.1.1) <$> segs),
   b.1.2 ++ concat ((λ r : segment_reply, r.1.2) <$> segs),
   b.2 ++ concat ((λ r : segment_reply, r.2) <$> segs)).

(** What a clean first sweep logs from segment [i] on: for every segment
    its exchanges, then the publication of all the data gathered so
    far. *)
Fixpoint segments_log (sw : Sweep.t) (i : nat) (segs : list segment_reply)
    (b : SweepWorker.buffers) : list event :=
  match segs with
  | [] => []
  | r :: segs' =>
      let b' := gathered b [r] in
      segment_exchanges (Sweep.get_index_range sw (Z.of_nat i)).1
                        (Sweep.get_index_range sw (Z.of_nat i)).2 1 1
      ++ [AppSaveData (datapoints_of b'.1.1 b'.1.2) (datapoints_of b'.1.1 b'.2);
          SigUpdated]
      ++ segments_log sw (S i) segs' b'
  end.

(** The worker after the clean segments [segs] of a first sweep, from
    segment [i] on. *)
Fixpoint after_segments (i : nat) (segs : list segment_reply)
    (b : SweepWorker.buffers) (w : SweepWorker.t) : SweepWorker.t :=
  match segs with
  | [] => w
  | r :: segs' =>
      let b' := gathered b [r] in
      after_segments (S i) segs' b'
        (published
           (SweepWorker.set_percentage
              (after_segment w
                 (Sweep.get_index_range (SweepWorker.sweep w) (Z.of_nat i)).1
                 (Sweep.get_index_range (SweepWorker.sweep w) (Z.of_nat i)).2 1 1)
              (Qc_of_Z ((Z.of_nat i + 1) * 100)
               / Qc_of_Z (Sweep.sweeps (SweepWorker.sweep w)))%Qc)
           (datapoints_of b'.1.1 b'.1.2) (datapoints_of b'.1.1 b'.2))
  end.

(** A reply line that does not hold exactly two fields separated by one
    space, and the messages of the [ValueError] its unpacking raises. *)
Definition malformed_line (d : string) : Prop :=
  length (Py.split_on " " d) ≠ 2%nat.

Definition unpack_message (msg : string) : Prop :=
  msg = "not enough values to unpack (expected 2, got 1)" ∨
  msg = "too many values to unpack (expected 2)".

(** The worker after the handler of a [ValueError] raised inside the
    sweep: the message kept, stopped, not running, [sweepError]
    emitted. *)
Definition sweep_failed_with (w : SweepWorker.t) (msg : string) : SweepWorker.t :=
  SweepWorker.set_trace
    (SweepWorker.set_running
       (SweepWorker.set_stopped (SweepWorker.set_error_message w msg) true) false)
    (SweepWorker.trace w ++ [SigSweepError]).

(** ** Sample data for the worked instances *)

Definition point (f re im : Z) : Datapoint :=
  mkDatapoint (Qc_of_Z f) (Qc_of_Z re) (Qc_of_Z im).

(** Ideal short, open and load measured at 100 and 200 Hz. *)
Definition ideal_standards : Calibration.t :=
  Calibration.mk
    [point 100 (-1) 0; point 200 (-1) 0]
    [point 100 1 0; point 200 1 0]
    [point 100 0 0; point 200 0 0]
    [] [] [] [] [] [] [] [] true true true false.

(** A parametric model that is never consulted. *)
Definition no_model : Qc → result Complex.t := λ _, Raise ZeroDivisionError.

(** Five repeats of two bins; the last repeat of the first bin is an
    outlier. *)
Definition raw (re im : Z) : Averaging.sample := (Qc_of_Z re, Qc_of_Z im).
Definition five_repeats : list (list Averaging.sample) :=
  [[raw 1 0; raw 1 1]; [raw 2 0; raw 1 1]; [raw 3 0; raw 1 1];
   [raw 4 0; raw 1 1]; [raw 100 0; raw 1 1]].

(** A device whose first nine replies carry an implausible pair and
    whose later replies are clean, and one that never recovers. *)
Definition flaky_vna : VNA.t :=
  VNA.mk true 101 true
    (λ k _, if bool_decide (k < 9)%nat then ["0.5 0.1"; "12.0 0.0"]
            else ["0.5 -0.25"; "0.1 0.2"])
    (λ _, []).
Definition dead_vna : VNA.t :=
  VNA.mk true 101 true (λ _ _, ["0.5 0.1"; "0.0 -10"]) (λ _, []).
Definition unplugged_vna : VNA.t :=
  VNA.mk false 101 true (λ _ _, ["0.5 0.1"]) (λ _, [Qc_of_Z 1000000]).

(** The number a decimal literal denotes. *)
Definition number (s : string) : Qc :=
  match Py.float s with
  | Ok v => v
  | Raise _ => 0%Qc
  end.

(** Stand-ins for the two collaborators that are not among the sources:
    frequencies given in plain hertz, and no delay correction. *)
Definition parse_hz (s : string) : Z :=
  match Py.int s with
  | Ok z => z
  | Raise _ => -1
  end.
Definition no_delay : Datapoint → Qc → bool → Datapoint := λ dp _ _, dp.

Definition sample_app : App.t := App.mk "1000000" "2000000" "1" Calibration.fresh.

(** A Touchstone file that repeats a frequency, and its rows. *)
Definition repeated_frequency : string :=
  "! sample" +:+ Py.nl +:+
  "# hz s ri r 50" +:+ Py.nl +:+
  "1000 0.5 0.25" +:+ Py.nl +:+
  Py.nl +:+
  "1000 0.4 0.2 ! again" +:+ Py.nl.
Definition repeated_frequency_rows : list row :=
  [((number "1000" * Qc_of_Z 1)%Qc, ["0.5"; "0.25"]);
   ((number "1000" * Qc_of_Z 1)%Qc, ["0.4"; "0.2"])].

(** A two-port Touchstone file in kilohertz with ascending frequencies,
    and its rows. *)
Definition ascending_frequencies : string :=
  "# khz s ri" +:+ Py.nl +:+
  "1 0.5 0.25 0.1 0.2" +:+ Py.nl +:+
  "2.5 0.4 0.2 0.1 0.2" +:+ Py.nl.
Definition ascending_frequencies_rows : list row :=
  [((number "1" * Qc_of_Z 1000)%Qc, ["0.5"; "0.25"; "0.1"; "0.2"]);
   ((number "2.5" * Qc_of_Z 1000)%Qc, ["0.4"; "0.2"; "0.1"; "0.2"])].

(** A sample with complex coordinates. *)
Definition cpoint (f re im : Z) : Datapoint :=
  mkDatapoint (Qc_of_Z f) (Qc_of_Z re) (Qc_of_Z im).

(** Short, open, load, through and isolation as an uncorrected
    instrument might report them at 100 and 200 Hz. *)
Definition measured_standards : Calibration.t :=
  Calibration.mk
    [cpoint 100 (-2) 0; cpoint 200 (-2) 1]
    [cpoint 100 2 0; cpoint 200 2 1]
    [cpoint 100 0 1; cpoint 200 1 1]
    [cpoint 100 3 0; cpoint 200 3 1]
    [cpoint 100 0 0; cpoint 200 1 0]
    [] [] [] [] [] [] true true true false.

(** The same with the open standard reported like the short one at
    200 Hz. *)
Definition degenerate_standards : Calibration.t :=
  Calibration.mk
    [cpoint 100 (-2) 0; cpoint 200 (-2) 1]
    [cpoint 100 2 0; cpoint 200 (-2) 1]
    [cpoint 100 0 1; cpoint 200 1 1]
    [] [] [] [] [] [] [] [] true true true false.

(** A device with validation switched off that reports a value far out
    of range. *)
Definition unchecked_vna : VNA.t :=
  VNA.mk true 101 false (λ _ _, ["0.5 0.1"; "12.0 -40"]) (λ _, []).

(** A device that answers every read with the same two points. *)
Definition steady_vna : VNA.t :=
  VNA.mk true 101 true (λ _ _, ["0.5 0.1"; "0.2 -0.3"])
         (λ _, [Qc_of_Z 1000000; Qc_of_Z 2000000]).

(** A Touchstone object that already holds a point and a comment. *)
Definition loaded_before : Touchstone.t :=
  Touchstone.mk "a.s2p" [[cpoint 500 1 0]; []; []; []] ["! earlier"] Options.init.


(** A calibration file of one one-port row, and one without its header. *)
Definition one_port_file : string :=
  Calibration.title_line +:+ Py.nl +:+ Calibration.header_line +:+ Py.nl
  +:+ "100 -1 0 1 0 0 0" +:+ Py.nl.
Definition headerless_file : string := "100 -1 0 1 0 0 0" +:+ Py.nl.

(** A printer for whole numbers. *)
Definition show_whole (x : Qc) : string := pretty (Qnum (this x)).

(** A session asking for two segments, and what [steady_vna] answers in
    each of them. *)
Definition two_segment_app : App.t :=
  App.mk "1000000" "2000000" "2" Calibration.fresh.
Definition steady_reply : segment_reply :=
  ([Qc_of_Z 1000000; Qc_of_Z 2000000],
   [(number "0.5", number "0.1"); (number "0.2", number "-0.3")],
   [(number "0.5", number "0.1"); (number "0.2", number "-0.3")]).

(** A device whose replies hold a line that is not a pair. *)
Definition garbled_vna : VNA.t :=
  VNA.mk true 101 true (λ _ _, ["0.5 0.1"; "oops"])
         (λ _, [Qc_of_Z 1000000; Qc_of_Z 2000000]).
(** ** Properties of the sweep plan *)

Section SweepFacts.

Lemma init_inv (start end_ points sweeps : Z) (s : Sweep.t) :
  Sweep.init start end_ points sweeps = Ok s →
  s = Sweep.mk start end_ points sweeps (end_ - start)
        ((end_ - start) ÷ (points * sweeps - 1)) ∧
  points * sweeps - 1 ≠ 0 ∧
  0 < sweeps ∧ 0 < points ∧ 0 < start ∧ 0 < end_ ∧
  1 ≤ (end_ - start) ÷ (points * sweeps - 1).
Proof.
  unfold Sweep.init, Sweep.stepsize, mbind, result_mbind, result_bind.
  destruct (decide (points * sweeps - 1 = 0)) as [|Hd]; [discriminate|].
  unfold Sweep.check; cbn [Sweep.sweeps Sweep.points Sweep.start Sweep.end_ Sweep.step].
  repeat case_bool_decide; cbn; try discriminate.
  intros [= <-]. done.
Qed.


End SweepFacts.




(** C10. Constructing a sweep with one point and one segment divides by
    zero in [stepsize], whatever the frequencies: the constructor raises
    [ZeroDivisionError] and never reaches [check], so the outcome is not
    the [ValueError] of illegal settings, and construction is not total
    on positive arguments. *)
Theorem sweep_single_point_divides_by_zero (start end_ : Z) :
  Sweep.stepsize (end_ - start) 1 1 = Raise ZeroDivisionError ∧
  Sweep.init start end_ 1 1 = Raise ZeroDivisionError ∧
  (∀ msg, Sweep.init start end_ 1 1 ≠ Raise (ValueError msg)) ∧
  ¬ is_Ok (Sweep.init start end_ 1 1).
Proof.
  assert (Sweep.init start end_ 1 1 = Raise ZeroDivisionError) as Hinit by done.
  split; [done|]. split; [done|]. rewrite Hinit.
  split; [intros msg [=] | intros [s [=]]].
Qed.




(** ** Properties of the calibration engine *)

Lemma complex_eq (a b : Complex.t) :
  Complex.real a = Complex.real b → Complex.imag a = Complex.imag b → a = b.
Proof. destruct a, b; cbn; congruence. Qed.

(** Closed equations between rationals and between complex numbers, by
    evaluation of the underlying fractions. *)
Ltac qc_closed := apply Qc_is_canon; vm_compute; reflexivity.
Ltac complex_closed := apply complex_eq; qc_closed.

Section CalibrationFacts.

Import Calibration.

Lemma ideal_e00 :
  Complex.div (num_e00 shortIdeal openIdeal loadIdeal shortIdeal openIdeal loadIdeal)
              (denominator shortIdeal openIdeal loadIdeal shortIdeal openIdeal loadIdeal)
  = Ok (Complex.mk 0 0).
Proof.
  unfold Complex.div. case_decide as Hz.
  - destruct Hz as [Hz _]. apply (f_equal this) in Hz. vm_compute in Hz. discriminate.
  - f_equal. complex_closed.
Qed.

Lemma ideal_e11 :
  Complex.div (num_e11 shortIdeal openIdeal loadIdeal shortIdeal openIdeal loadIdeal)
              (denominator shortIdeal openIdeal loadIdeal shortIdeal openIdeal loadIdeal)
  = Ok (Complex.mk 0 0).
Proof.
  unfold Complex.div. case_decide as Hz.
  - destruct Hz as [Hz _]. apply (f_equal this) in Hz. vm_compute in Hz. discriminate.
  - f_equal. complex_closed.
Qed.

Lemma ideal_deltaE :
  Complex.div (num_deltaE shortIdeal openIdeal loadIdeal shortIdeal openIdeal loadIdeal)
              (denominator shortIdeal openIdeal loadIdeal shortIdeal openIdeal loadIdeal)
  = Ok (Complex.mk (-1) 0).
Proof.
  unfold Complex.div. case_decide as Hz.
  - destruct Hz as [Hz _]. apply (f_equal this) in Hz. vm_compute in Hz. discriminate.
  - f_equal. complex_closed.
Qed.

(** With error terms [0], [0] and [-1] the correction formula is the
    identity. *)
Lemma correct_identity (re im : Qc) :
  Complex.div (Complex.mk re im - Complex.mk 0 0)%C
              (Complex.mk re im * Complex.mk 0 0 - Complex.mk (-1) 0)%C
  = Ok (Complex.mk re im).
Proof.
  unfold Complex.div, Complex.norm2; cbn.
  case_decide as Hz.
  - destruct Hz as [Hz _]. exfalso.
    assert ((re * 0 - im * 0 - -1)%Qc = 1%Qc) as E by ring.
    rewrite E in Hz. discriminate.
  - f_equal. apply complex_eq; cbn; field; intros E;
      ring_simplify in E; discriminate.
Qed.

Variable shortModel openModel loadModel : Qc → result Complex.t.

Lemma calculateStep_ideal (i : nat) (c c' : Calibration.t) :
  useIdealShort c = true → useIdealOpen c = true → useIdealLoad c = true →
  (∀ dp, s11short c !! i = Some dp → complex_of dp = shortIdeal) →
  (∀ dp, s11open c !! i = Some dp → complex_of dp = openIdeal) →
  (∀ dp, s11load c !! i = Some dp → complex_of dp = loadIdeal) →
  calculateStep shortModel openModel loadModel i c = Ok (Next c') →
  inputs c' = inputs c ∧
  e00 c' = <[i := Some (Complex.mk 0 0)]> (e00 c) ∧
  e11 c' = <[i := Some (Complex.mk 0 0)]> (e11 c) ∧
  deltaE c' = <[i := Some (Complex.mk (-1) 0)]> (deltaE c).
Proof.
  intros Hs Ho Hl Hsh Hop Hld.
  unfold calculateStep, getitem.
  destruct (s11short c !! i) as [sh|] eqn:Esh; [|discriminate].
  cbn. rewrite Hs, Ho, Hl. cbn.
  destruct (s11open c !! i) as [op|] eqn:Eop; [|discriminate].
  cbn.
  destruct (s11load c !! i) as [ld|] eqn:Eld; [|discriminate].
  cbn.
  rewrite (Hsh _ eq_refl), (Hop _ eq_refl), (Hld _ eq_refl).
  rewrite ideal_e00. cbn. rewrite ideal_e11. cbn.
  rewrite ideal_deltaE. cbn.
  destruct (isValid2Port _) eqn:E2.
  - cbn. destruct (s21isolation c !! i); [|discriminate]. cbn.
    destruct (s21through c !! i); [|discriminate]. cbn.
    unfold term, getitem. cbn.
    destruct (<[i:=_]> (e30 c) !! i) as [[v30|]|]; cbn; try discriminate.
    destruct (<[i:=_]> (e11 c) !! i) as [[v11|]|]; cbn; try discriminate.
    intros [= <-]. done.
  - intros [= <-]. done.
Qed.

Lemma filled_nil l v k : filled l v k 0 l.
Proof. split; [done|]. split; [done|]. intros j Hj; lia. Qed.

Lemma filled_cons l v k m l0 :
  filled l v (S k) m (<[k := Some v]> l0) → filled l v k (S m) l0.
Proof.
  intros (Hlen & Hlo & Hhi). rewrite length_insert in Hlen, Hhi.
  split; [done|]. split.
  - intros j Hj. rewrite Hlo by lia. apply list_lookup_insert_ne. lia.
  - intros j Hj Hlt. destruct (decide (j = k)) as [->|Hne].
    + rewrite Hlo by lia. by apply list_lookup_insert_eq.
    + apply Hhi; [lia|done].
Qed.

Lemma calculateLoop_ideal (m : nat) : ∀ (k : nat) (c c' : Calibration.t),
  useIdealShort c = true → useIdealOpen c = true → useIdealLoad c = true →
  Forall (λ dp, complex_of dp = shortIdeal) (s11short c) →
  Forall (λ dp, complex_of dp = openIdeal) (take (length (s11short c)) (s11open c)) →
  Forall (λ dp, complex_of dp = loadIdeal) (take (length (s11short c)) (s11load c)) →
  for_each (calculateStep shortModel openModel loadModel) (seq k m) c = Ok (Next c') →
  inputs c' = inputs c ∧
  filled (e00 c') (Complex.mk 0 0) k m (e00 c) ∧
  filled (e11 c') (Complex.mk 0 0) k m (e11 c) ∧
  filled (deltaE c') (Complex.mk (-1) 0) k m (deltaE c).
Proof.
  induction m as [|m IH]; intros k c c' Hs Ho Hl Hsh Hop Hld; cbn.
  - intros [= <-]. eauto using filled_nil.
  - destruct (calculateStep _ _ _ k c) as [[c1|c1 v]|e] eqn:Estep; cbn;
      [|discriminate..].
    intros Hrest.
    apply calculateStep_ideal in Estep as (Hin & E00 & E11 & EdE); try done.
    + assert (s11short c1 = s11short c ∧ s11open c1 = s11open c ∧
              s11load c1 = s11load c ∧ useIdealShort c1 = useIdealShort c ∧
              useIdealOpen c1 = useIdealOpen c ∧ useIdealLoad c1 = useIdealLoad c)
        as (Es & Eo & El & Eus & Euo & Eul)
        by (unfold inputs in Hin; by simplify_eq).
      apply IH in Hrest as (Hin' & F00 & F11 & FdE);
        rewrite ?Es, ?Eo, ?El, ?Eus, ?Euo, ?Eul; try done.
      rewrite E00 in F00. rewrite E11 in F11. rewrite EdE in FdE.
      split; [congruence|].
      split; [by apply filled_cons|]. split; by apply filled_cons.
    + intros dp Hdp. eapply Forall_lookup_1 in Hsh; eauto.
    + intros dp Hdp. eapply Forall_lookup_1 in Hop; [done|].
      rewrite lookup_take_lt; [done|].
      unfold calculateStep, getitem in Estep.
      destruct (s11short c !! k) eqn:E; [|discriminate].
      by eapply lookup_lt_Some.
    + intros dp Hdp. eapply Forall_lookup_1 in Hld; [done|].
      rewrite lookup_take_lt; [done|].
      unfold calculateStep, getitem in Estep.
      destruct (s11short c !! k) eqn:E; [|discriminate].
      by eapply lookup_lt_Some.
Qed.

(** The loop leaves early only through the handler of the division
    error, which returns nothing. *)
Lemma calculateStep_Return (i : nat) (c c' : Calibration.t) (v : option bool) :
  calculateStep shortModel openModel loadModel i c = Ok (Return c' v) → v = None.
Proof.
  unfold calculateStep, mbind, result_mbind, result_bind.
  repeat (case_match; try discriminate); by intros [= _ <-].
Qed.

Lemma calculateLoop_Return (items : list nat) : ∀ (c c' : Calibration.t) (v : option bool),
  for_each (calculateStep shortModel openModel loadModel) items c = Ok (Return c' v) →
  v = None.
Proof.
  induction items as [|i items IH]; intros c c' v; cbn; [discriminate|].
  destruct (calculateStep _ _ _ i c) as [[c1|c1 v1]|e] eqn:Estep; cbn; [eauto| |discriminate].
  intros [= _ <-]. by eapply calculateStep_Return.
Qed.

(** On ideal data a step goes through, provided the lists it indexes are
    long enough. *)
Lemma calculateStep_ideal_next (i : nat) (c : Calibration.t) :
  useIdealShort c = true → useIdealOpen c = true → useIdealLoad c = true →
  (∃ dp, s11short c !! i = Some dp ∧ complex_of dp = shortIdeal) →
  (∃ dp, s11open c !! i = Some dp ∧ complex_of dp = openIdeal) →
  (∃ dp, s11load c !! i = Some dp ∧ complex_of dp = loadIdeal) →
  (isValid2Port c = true →
   (i < length (s21isolation c))%nat ∧ (i < length (s21through c))%nat ∧
   (i < length (e30 c))%nat ∧ (i < length (e11 c))%nat) →
  ∃ c', calculateStep shortModel openModel loadModel i c = Ok (Next c') ∧
        length (e30 c') = length (e30 c).
Proof.
  intros Hs Ho Hl (sh & Esh & Hsh) (op & Eop & Hop) (ld & Eld & Hld) H2.
  unfold calculateStep, getitem. rewrite Esh. cbn. rewrite Hs, Ho, Hl, Eop. cbn.
  rewrite Eld. cbn. rewrite Hsh, Hop, Hld.
  rewrite ideal_e00. cbn. rewrite ideal_e11. cbn. rewrite ideal_deltaE. cbn.
  destruct (isValid2Port _) eqn:E2; [|by eexists].
  destruct (H2 eq_refl) as (Hiso & Hthr & H30 & H11).
  destruct (lookup_lt_is_Some_2 _ _ Hiso) as [iso ->].
  destruct (lookup_lt_is_Some_2 _ _ Hthr) as [thr ->]. cbn.
  unfold term, getitem. cbn.
  rewrite !list_lookup_insert_eq by done. cbn.
  eexists. split; [done|]. cbn. by rewrite length_insert.
Qed.

Lemma calculateLoop_ideal_next (m : nat) : ∀ (k : nat) (c : Calibration.t),
  useIdealShort c = true → useIdealOpen c = true → useIdealLoad c = true →
  Forall (λ dp, complex_of dp = shortIdeal) (s11short c) →
  Forall (λ dp, complex_of dp = openIdeal) (take (length (s11short c)) (s11open c)) →
  Forall (λ dp, complex_of dp = loadIdeal) (take (length (s11short c)) (s11load c)) →
  (k + m ≤ length (s11short c))%nat →
  (length (s11short c) ≤ length (s11open c))%nat →
  (length (s11short c) ≤ length (s11load c))%nat →
  (isValid2Port c = true →
   (length (s11short c) ≤ length (s21isolation c))%nat ∧
   (length (s11short c) ≤ length (s21through c))%nat ∧
   length (e30 c) = length (s11short c) ∧ length (e11 c) = length (s11short c)) →
  ∃ c', for_each (calculateStep shortModel openModel loadModel) (seq k m) c = Ok (Next c').
Proof.
  induction m as [|m IH]; intros k c Hs Ho Hl Hsh Hop Hld Hk Hlo Hll H2; cbn;
    [by eexists|].
  destruct (lookup_lt_is_Some_2 (s11short c) k ltac:(lia)) as [sh Esh].
  destruct (lookup_lt_is_Some_2 (s11open c) k ltac:(lia)) as [op Eop].
  destruct (lookup_lt_is_Some_2 (s11load c) k ltac:(lia)) as [ld Eld].
  assert (complex_of sh = shortIdeal) as Hsh' by (by eapply Forall_lookup_1 in Hsh).
  assert (complex_of op = openIdeal) as Hop'.
  { eapply Forall_lookup_1 in Hop; [done|]. rewrite lookup_take_lt; [done|lia]. }
  assert (complex_of ld = loadIdeal) as Hld'.
  { eapply Forall_lookup_1 in Hld; [done|]. rewrite lookup_take_lt; [done|lia]. }
  destruct (calculateStep_ideal_next k c) as (c1 & Estep & Hlen30); eauto.
  { intros E2. destruct (H2 E2) as (? & ? & ? & ?). lia. }
  rewrite Estep. cbn.
  pose proof Estep as Hstep.
  apply calculateStep_ideal in Hstep as (Hin & _ & E11 & _); try done;
    try (intros dp Hdp; congruence).
  assert (s11short c1 = s11short c ∧ s11open c1 = s11open c ∧
          s11load c1 = s11load c ∧ s21through c1 = s21through c ∧
          s21isolation c1 = s21isolation c ∧ useIdealShort c1 = useIdealShort c ∧
          useIdealOpen c1 = useIdealOpen c ∧ useIdealLoad c1 = useIdealLoad c)
    as (Es & Eo & El & Et & Ei & Eus & Euo & Eul)
    by (unfold inputs in Hin; by simplify_eq).
  apply IH; rewrite ?Es, ?Eo, ?El, ?Et, ?Ei, ?Eus, ?Euo, ?Eul; try done; try lia.
  intros E2.
  assert (isValid2Port c = true) as E2'.
  { unfold isValid2Port, isValid1Port in *. by rewrite Es, Eo, El, Et, Ei in E2. }
  destruct (H2 E2') as (? & ? & ? & ?).
  rewrite Hlen30, E11, length_insert. done.
Qed.

(** On ideal data [calculateCorrections] succeeds, provided open and
    load cover the axis of short, and through and isolation do too when
    both are present. *)
Lemma calculateCorrections_ideal_succeeds (c : Calibration.t) :
  useIdealShort c = true → useIdealOpen c = true → useIdealLoad c = true →
  Forall (λ dp, complex_of dp = shortIdeal) (s11short c) →
  Forall (λ dp, complex_of dp = openIdeal) (take (length (s11short c)) (s11open c)) →
  Forall (λ dp, complex_of dp = loadIdeal) (take (length (s11short c)) (s11load c)) →
  (0 < length (s11short c) ≤ length (s11open c))%nat →
  (length (s11short c) ≤ length (s11load c))%nat →
  (isValid2Port c = true →
   (length (s11short c) ≤ length (s21isolation c))%nat ∧
   (length (s11short c) ≤ length (s21through c))%nat) →
  ∃ c', calculateCorrections shortModel openModel loadModel c = Ok (c', Some true).
Proof.
  intros Hs Ho Hl Hsh Hop Hld Hn Hll H2. unfold calculateCorrections.
  assert (isValid1Port c = true) as ->.
  { unfold isValid1Port. rewrite !bool_decide_eq_true_2 by lia. done. }
  cbn.
  match goal with |- context [for_each ?b (seq 0 ?n) ?c0] =>
    destruct (calculateLoop_ideal_next n 0 c0) as [c1 ->] end; try done; try (cbn; lia).
  - intros E2. cbn. rewrite !length_replicate. destruct (H2 E2). done.
  - by eexists.
Qed.

Lemma nearest_range (pts : list Datapoint) (f : Qc) : ∀ (i index : nat) (d : Qc),
  nearest pts f i index d = index ∨
  (i ≤ nearest pts f i index d < i + length pts)%nat.
Proof.
  induction pts as [|dp pts IH]; intros i index d; cbn; [by left|].
  case_decide.
  - right. destruct (IH (S i) i (Qcabs (freq dp - f))) as [->|?]; lia.
  - destruct (IH (S i) index d) as [->|?]; [by left|right; lia].
Qed.

End CalibrationFacts.

(** C1. With the ideal models for short, open and load and every
    measured standard equal to its modelled value, once
    [calculateCorrections] has succeeded [correct11] returns every sample
    [(re, im)] unchanged, at every frequency. *)
Theorem calibration_identity (shortModel openModel loadModel : Qc → result Complex.t)
    (c c' : Calibration.t) :
  Calibration.useIdealShort c = true →
  Calibration.useIdealOpen c = true →
  Calibration.useIdealLoad c = true →
  Forall (λ dp, complex_of dp = Calibration.shortIdeal) (Calibration.s11short c) →
  Forall (λ dp, complex_of dp = Calibration.openIdeal)
         (take (length (Calibration.s11short c)) (Calibration.s11open c)) →
  Forall (λ dp, complex_of dp = Calibration.loadIdeal)
         (take (length (Calibration.s11short c)) (Calibration.s11load c)) →
  Calibration.calculateCorrections shortModel openModel loadModel c = Ok (c', Some true) →
  Calibration.isCalculated c' = true ∧
  ∀ re im f, Calibration.correct11 c' re im f = Ok (re, im).
Proof.
  intros Hs Ho Hl Hsh Hop Hld. unfold Calibration.calculateCorrections.
  destruct (Calibration.isValid1Port c) eqn:Hvalid; cbn; [|discriminate].
  match goal with |- context [for_each ?b ?l ?c0] =>
    destruct (for_each b l c0) as [[c1|c1 v]|e] eqn:Eloop end; cbn;
    [| |discriminate].
  2: { apply calculateLoop_Return in Eloop as ->. discriminate. }
  intros [= <-]. split; [done|].
  apply calculateLoop_ideal in Eloop as (Hin & F00 & F11 & FdE); try done.
  unfold inputs in Hin; cbn in Hin.
  assert (Calibration.s11short c1 = Calibration.s11short c) as Es by congruence.
  destruct F00 as (_ & _ & F00), F11 as (_ & _ & F11), FdE as (_ & _ & FdE).
  cbn in F00, F11, FdE. rewrite length_replicate in F00, F11, FdE.
  intros re im f. unfold Calibration.correct11; cbn. rewrite Es.
  set (index := Calibration.nearest _ _ _ _ _).
  assert (0 < length (Calibration.s11short c))%nat as Hn.
  { unfold Calibration.isValid1Port in Hvalid.
    apply andb_prop in Hvalid as [[H _]%andb_prop _]. by apply bool_decide_eq_true in H. }
  assert (index < length (Calibration.s11short c))%nat as Hidx.
  { subst index. match goal with |- (Calibration.nearest ?p ?f ?i ?j ?d < _)%nat =>
      destruct (nearest_range p f i j d) as [->|?] end; lia. }
  unfold Calibration.term, getitem.
  rewrite F00, F11, FdE by lia. cbn.
  by rewrite correct_identity.
Qed.

Lemma calibration_identity_witness :
  ∃ c', Calibration.calculateCorrections no_model no_model no_model ideal_standards
        = Ok (c', Some true) ∧
        Calibration.isCalculated c' = true ∧
        ∀ re im f, Calibration.correct11 c' re im f = Ok (re, im).
Proof.
  eexists. split; [vm_compute; reflexivity|].
  apply (calibration_identity no_model no_model no_model ideal_standards);
    try reflexivity.
  - repeat constructor; complex_closed.
  - repeat constructor; complex_closed.
  - repeat constructor; complex_closed.
Defined.

(** C2, as stated, fails: [correct11] carries no guard.  On a
    calibration object as created ([isCalculated] false, no error terms)
    it raises [IndexError] instead of returning the sample. *)
Lemma correct11_unguarded :
  Calibration.isCalculated Calibration.fresh = false ∧
  Calibration.e00 Calibration.fresh = [] ∧
  Calibration.correct11 Calibration.fresh (Qc_of_Z 1) (Qc_of_Z 0) (Qc_of_Z 1000000)
  = Raise IndexError.
Proof. done. Qed.

(** C2, amended.  The bypass is made by the caller:
    [SweepWorker.applyCalibration], with a zero offset delay, returns
    both raw lists unchanged whenever [isCalculated] is false or the
    one-port standards are incomplete, without calling [correct11]. *)
Theorem applyCalibration_bypass (correct_delay : Datapoint → Qc → bool → Datapoint)
    (w : SweepWorker.t) (raw_data11 raw_data21 : list Datapoint) :
  SweepWorker.offsetDelay w = 0%Qc →
  Calibration.isCalculated (App.calibration (SweepWorker.app w)) = false ∨
  Calibration.isValid1Port (App.calibration (SweepWorker.app w)) = false →
  SweepWorker.applyCalibration correct_delay w raw_data11 raw_data21
  = Ok (raw_data11, raw_data21).
Proof.
  intros Hdelay Hguard. unfold SweepWorker.applyCalibration.
  rewrite Hdelay. case_decide; [done|].
  destruct (Calibration.isCalculated _); cbn; [|done].
  destruct Hguard as [|Hinvalid]; [done|].
  unfold Calibration.isValid2Port. rewrite Hinvalid, andb_false_r. done.
Qed.

Lemma applyCalibration_bypass_witness :
  let w := SweepWorker.init (App.mk "1M" "2M" "1" Calibration.fresh)
             (VNA.mk true 101 true (λ _ _, []) (λ _, [])) in
  SweepWorker.applyCalibration (λ dp _ _, dp) w [point 1000000 1 0] [point 1000000 0 1]
  = Ok ([point 1000000 1 0], [point 1000000 0 1]).
Proof.
  intros w. apply (applyCalibration_bypass (λ dp _ _, dp) w); [reflexivity|].
  left. reflexivity.
Defined.

(** ** Properties of the averaging *)

Section AveragingFacts.

Import Averaging.

Context {A : Type} (k : A → Qc).






End AveragingFacts.

Section Transpose.

Context {A : Type}.




End Transpose.

Section TrimmedAverage.

Import Averaging.






End TrimmedAverage.



(** The instance of the specification: of the samples 1, 2, 3, 4 and 100
    the outlier is dropped and the result is 5/2, the mean of the other
    four, where the mean of all five is 22. *)
Example trimmed_average_outlier :
  ∃ res, Averaging.averaged five_repeats 1 = Ok (Some res) ∧
         res !! 0%nat = Some ((Qc_of_Z 5 / Qc_of_Z 2)%Qc, Qc_of_Z 0) ∧
         Averaging.average (bin five_repeats 0) = (Qc_of_Z 22, Qc_of_Z 0).
Proof.
  eexists. split; [vm_compute; reflexivity|].
  split; [cbn; do 2 f_equal; qc_closed|].
  unfold Averaging.average. f_equal; qc_closed.
Qed.

(** ** Properties of the Python primitives *)

Lemma even_mod (n : nat) : Nat.even n = true ↔ (n `mod` 2 = 0)%nat.
Proof.
  rewrite Nat.even_spec. split.
  - intros [k ->]. rewrite Nat.mul_comm. apply Nat.Div0.mod_mul.
  - intros H. exists (n `div` 2)%nat. pose proof (Nat.div_mod_eq n 2). lia.
Qed.

Lemma float_raises (s : string) (e : exn) :
  Py.float s = Raise e → ∃ msg, e = ValueError msg.
Proof.
  unfold Py.float. repeat case_match; intros [=]; subst; eauto.
Qed.

(** ** Properties of the sweep worker *)

(** Running the worker's monadic code on a given state. *)
Ltac step_M :=
  repeat (unfold mbind, mret, SweepWorker.M_mbind, SweepWorker.M_mret,
            SweepWorker.bind, SweepWorker.ret, SweepWorker.raise,
            SweepWorker.lift, SweepWorker.get, SweepWorker.modify,
            SweepWorker.emit, SweepWorker.except_ValueError,
            SweepWorker.vna_readValues, SweepWorker.vna_readFrequencies,
            SweepWorker.vna_setSweep, SweepWorker.vna_resetSweep,
            SweepWorker.set_reads, SweepWorker.set_trace,
            SweepWorker.set_running, SweepWorker.set_percentage,
            SweepWorker.set_stopped, SweepWorker.set_error_message,
            SweepWorker.set_sweep;
          cbn).

Section ReadData.

Import SweepWorker.

Lemma scan_valid (reply : list string) (vals : list Averaging.sample) :
  valid_reply reply vals →
  ∀ done acc, scan_values true reply done acc = Ok (done, acc ++ vals).
Proof.
  induction 1 as [|d v reply vals (a & b & Hsplit & Ha & Hb & Hla & Hlb) _ IH];
    intros done acc; cbn.
  - by rewrite app_nil_r.
  - rewrite Hsplit. unfold implausible. rewrite Ha. cbn.
    case_decide as H1; [by apply Qclt_not_le in H1|].
    rewrite Hb. cbn.
    rewrite bool_decide_eq_false_2 by (by apply Qcle_not_lt). cbn.
    rewrite IH, <-app_assoc. by destruct v.
Qed.

(** A line of two fields never makes the scan raise: it is stored, or
    clears [done], or ends the scan with [done] cleared. *)
Lemma scan_two_fields (d : string) (rest : list string) (done : bool)
    (acc : list Averaging.sample) :
  two_fields d →
  (∃ acc', scan_values true (d :: rest) done acc = Ok (false, acc')) ∨
  (∃ done' acc', scan_values true (d :: rest) done acc = scan_values true rest done' acc').
Proof.
  intros (a & b & Hsplit). cbn. rewrite Hsplit. unfold implausible.
  destruct (Py.float a) as [fa|e] eqn:Ha; cbn.
  - case_decide; cbn; [left; by eexists|].
    destruct (Py.float b) as [fb|e] eqn:Hb; cbn.
    + case_bool_decide; cbn; [left; by eexists|]. right. by eexists _, _.
    + apply float_raises in Hb as [msg ->]. right. by eexists _, _.
  - apply float_raises in Ha as [msg ->]. right. by eexists _, _.
Qed.

Lemma scan_out_of_bound_line (d : string) (rest : list string) (done : bool)
    (acc : list Averaging.sample) :
  out_of_bound_line d →
  ∃ acc', scan_values true (d :: rest) done acc = Ok (false, acc').
Proof.
  intros (a & b & fa & Hsplit & Ha & Hbad). cbn. rewrite Hsplit.
  unfold implausible. rewrite Ha. cbn.
  case_decide; cbn; [by eexists|].
  destruct Hbad as [|(fb & Hb & Hbad)]; [done|]. rewrite Hb. cbn.
  rewrite bool_decide_eq_true_2 by done. by eexists.
Qed.

Lemma scan_out_of_bound (reply : list string) :
  out_of_bound_reply reply →
  ∃ acc, scan_values true reply true [] = Ok (false, acc).
Proof.
  intros (pre & d & post & -> & Hpre & Hbad).
  enough (∀ done acc, ∃ acc', scan_values true (pre ++ d :: post) done acc = Ok (false, acc'))
    by done.
  induction Hpre as [|d' pre Hd' _ IH]; intros done acc.
  - by apply scan_out_of_bound_line.
  - rewrite <-app_comm_cons.
    destruct (scan_two_fields d' (pre ++ d :: post) done acc Hd')
      as [?|(done' & acc' & ->)]; [done|]. apply IH.
Qed.

Lemma after_reads_0 (w : t) (data : string) : after_reads w data 0 = w.
Proof.
  destruct w. unfold after_reads, set_reads, set_trace; cbn.
  by rewrite app_nil_r, Nat.add_0_r.
Qed.

Lemma after_reads_S (w : t) (data : string) (k : nat) :
  after_reads (after_reads w data 1) data k = after_reads w data (S k).
Proof.
  destruct w. unfold after_reads, set_reads, set_trace; cbn.
  rewrite <-app_assoc. f_equal. lia.
Qed.

(** One turn of the loop: a read, then the scan of the reply. *)
Lemma readData_loop_unfold (fuel : nat) (data : string) (count : Z) (w : t) :
  readData_loop (S fuel) data count w =
  let w' := after_reads w data 1 in
  match scan_values (VNA.validateInput (vna w)) (VNA.readValues (vna w) (reads w) data) true [] with
  | Ok (true, returndata) => (Ok returndata, w')
  | Ok (false, _) =>
      if bool_decide (10 ≤ count + 1) then (Raise (IOError (giving_up data (count + 1))), w')
      else readData_loop fuel data (count + 1) w'
  | Raise e => (Raise e, w')
  end.
Proof.
  destruct w. cbn. unfold after_reads. step_M. rewrite Nat.add_1_r.
  destruct (scan_values _ _ _ _) as [[[] ?]|]; step_M; try done.
  by case_bool_decide.
Qed.

(** Failed attempts followed by a valid reply. *)
Lemma readData_loop_retry (data : string) (vals : list Averaging.sample) (n : nat) :
  ∀ (fuel : nat) (count : Z) (w : t),
  VNA.validateInput (vna w) = true →
  (n < fuel)%nat → 0 ≤ count → count + Z.of_nat n < 10 →
  (∀ i, (i < n)%nat → out_of_bound_reply (VNA.readValues (vna w) (reads w + i) data)) →
  valid_reply (VNA.readValues (vna w) (reads w + n) data) vals →
  readData_loop fuel data count w = (Ok vals, after_reads w data (S n)).
Proof.
  induction n as [|n IH]; intros fuel count w Hval Hfuel Hcount Hlt Hbad Hgood;
    (destruct fuel as [|fuel]; [lia|]); rewrite readData_loop_unfold; cbn zeta.
  - rewrite Nat.add_0_r in Hgood. rewrite Hval, (scan_valid _ _ Hgood). done.
  - destruct (scan_out_of_bound _ (Hbad 0%nat ltac:(lia))) as [acc Hscan].
    rewrite Nat.add_0_r in Hscan. rewrite Hval, Hscan.
    rewrite bool_decide_eq_false_2 by lia.
    rewrite (IH fuel (count + 1) (after_reads w data 1)).
    + by rewrite after_reads_S.
    + by destruct w.
    + lia.
    + lia.
    + lia.
    + intros i Hi. specialize (Hbad (S i) ltac:(lia)).
      destruct w; cbn in *. by rewrite <-Nat.add_assoc.
    + destruct w; cbn in *. by rewrite <-Nat.add_assoc.
Qed.

(** Failed attempts up to the tenth. *)
Lemma readData_loop_give_up (data : string) (n : nat) :
  ∀ (fuel : nat) (count : Z) (w : t),
  VNA.validateInput (vna w) = true →
  (n < fuel)%nat → 0 ≤ count → count + Z.of_nat n = 9 →
  (∀ i, (i ≤ n)%nat → out_of_bound_reply (VNA.readValues (vna w) (reads w + i) data)) →
  readData_loop fuel data count w
  = (Raise (IOError (giving_up data 10)), after_reads w data (S n)).
Proof.
  induction n as [|n IH]; intros fuel count w Hval Hfuel Hcount Hlt Hbad;
    (destruct fuel as [|fuel]; [lia|]); rewrite readData_loop_unfold; cbn zeta;
    destruct (scan_out_of_bound _ (Hbad 0%nat ltac:(lia))) as [acc Hscan];
    rewrite Nat.add_0_r in Hscan; rewrite Hval, Hscan.
  - rewrite bool_decide_eq_true_2 by lia.
    by replace (count + 1) with 10 by lia.
  - rewrite bool_decide_eq_false_2 by lia.
    rewrite (IH fuel (count + 1) (after_reads w data 1)).
    + by rewrite after_reads_S.
    + by destruct w.
    + lia.
    + lia.
    + lia.
    + intros i Hi. specialize (Hbad (S i) ltac:(lia)).
      destruct w; cbn in *. by rewrite <-Nat.add_assoc.
Qed.

Lemma scan_values_raises (validate : bool) (tmpdata : list string) :
  ∀ (done : bool) (acc : list Averaging.sample) (e : exn),
  scan_values validate tmpdata done acc = Raise e → ∃ msg, e = ValueError msg.
Proof.
  induction tmpdata as [|d rest IH]; intros done acc e; cbn; [discriminate|].
  destruct (Py.split_on " " d) as [|a [|b [|]]]; try (intros [= <-]; by eexists).
  destruct (_ ≫= _) as [[v|]|[]] eqn:Hline; try (by apply IH); try discriminate.
  all: exfalso; revert Hline; unfold implausible, mbind, result_mbind, result_bind.
  all: repeat case_match; try discriminate.
  all: repeat match goal with
         | H : Py.float _ = Raise _ |- _ => apply float_raises in H as [? ?]
         end; simplify_eq; try discriminate.
Qed.

(** The ten turns granted to the loop are enough: [readData] returns or
    raises an error of the code, whatever the device replies. *)
Lemma readData_loop_total (data : string) (fuel : nat) :
  ∀ (count : Z) (w : t) (e : exn),
  0 ≤ count ≤ 9 → 10 - count ≤ Z.of_nat fuel →
  (readData_loop fuel data count w).1 = Raise e →
  (∃ msg, e = ValueError msg) ∨ (∃ msg, e = IOError msg).
Proof.
  induction fuel as [|fuel IH]; intros count w e Hcount Hfuel; [lia|].
  rewrite readData_loop_unfold. cbn zeta.
  destruct (scan_values _ _ _ _) as [[[] returndata]|e'] eqn:Hscan; cbn.
  - discriminate.
  - case_bool_decide; cbn.
    + intros [= <-]. right. by eexists.
    + apply IH; lia.
  - intros [= <-]. left. by eapply scan_values_raises.
Qed.

Lemma readData_total (data : string) (w : t) :
  (readData data w).1 ≠ Raise OutOfFuel.
Proof.
  intros H. apply readData_loop_total in H as [[msg [=]]|[msg [=]]]; lia.
Qed.

End ReadData.

(** C8. With validation enabled, a reply holding a pair with a
    component of magnitude above 9.5 is discarded and the channel is read
    again: after [n < 10] such replies a valid reply is returned as it
    is, having read the channel [n + 1] times (for [n = 9]: nine failures,
    success on the tenth attempt); after ten such replies in a row
    [readData] raises [IOError] with the message about disabling
    validation, having read the channel ten times. *)
Theorem readData_retry (data : string) (w : SweepWorker.t) :
  VNA.validateInput (SweepWorker.vna w) = true →
  let reply i := VNA.readValues (SweepWorker.vna w) (SweepWorker.reads w + i) data in
  (∀ (n : nat) (vals : list Averaging.sample),
     (n < 10)%nat →
     (∀ i, (i < n)%nat → out_of_bound_reply (reply i)) →
     valid_reply (reply n) vals →
     SweepWorker.readData data w = (Ok vals, after_reads w data (S n))) ∧
  ((∀ i, (i < 10)%nat → out_of_bound_reply (reply i)) →
   SweepWorker.readData data w
   = (Raise (IOError (SweepWorker.giving_up data 10)), after_reads w data 10)).
Proof.
  intros Hval reply. split.
  - intros n vals Hn Hbad Hgood.
    apply readData_loop_retry; try done; lia.
  - intros Hbad.
    apply (readData_loop_give_up data 9); try done; try lia.
    intros i Hi. apply Hbad. lia.
Qed.

Lemma readData_retry_witness :
  SweepWorker.readData "data 0" (SweepWorker.init sample_app flaky_vna)
  = (Ok [(number "0.5", number "-0.25"); (number "0.1", number "0.2")],
     after_reads (SweepWorker.init sample_app flaky_vna) "data 0" 10) ∧
  SweepWorker.readData "data 0" (SweepWorker.init sample_app dead_vna)
  = (Raise (IOError (SweepWorker.giving_up "data 0" 10)),
     after_reads (SweepWorker.init sample_app dead_vna) "data 0" 10).
Proof.
  assert (∀ d a b, Py.split_on " " d = [a; b] →
                   Py.float a = Ok (number a) → Py.float b = Ok (number b) →
                   bool_decide (Qcabs (number a) ≤ SweepWorker.bound)%Qc = true →
                   bool_decide (Qcabs (number b) ≤ SweepWorker.bound)%Qc = true →
                   plausible_line d (number a, number b)) as Hplausible.
  { intros d a b ? ? ? ?%bool_decide_eq_true ?%bool_decide_eq_true. by exists a, b. }
  split.
  - apply (proj1 (readData_retry "data 0" (SweepWorker.init sample_app flaky_vna) eq_refl) 9%nat).
    + lia.
    + intros i Hi. cbn. rewrite bool_decide_eq_true_2 by done.
      exists ["0.5 0.1"], "12.0 0.0", [].
      split; [done|]. split; [repeat constructor; by exists "0.5", "0.1"|].
      exists "12.0", "0.0", (number "12.0").
      split; [vm_compute; reflexivity|]. split; [vm_compute; reflexivity|].
      left. by vm_compute.
    + repeat constructor; apply Hplausible; vm_compute; reflexivity.
  - apply (proj2 (readData_retry "data 0" (SweepWorker.init sample_app dead_vna) eq_refl)).
    intros i Hi. cbn.
    exists ["0.5 0.1"], "0.0 -10", [].
    split; [done|]. split; [repeat constructor; by exists "0.5", "0.1"|].
    exists "0.0", "-10", (number "0.0").
    split; [vm_compute; reflexivity|]. split; [vm_compute; reflexivity|].
    right. exists (number "-10"). split; [vm_compute; reflexivity|]. by vm_compute.
Defined.

(** What the error of C8 does to a sweep: [run] catches [ValueError]
    only, so the [IOError] of [readData] leaves [run] at once; the sweep
    ends there, with no further device exchange and no signal. *)
Example run_aborts_when_reads_fail :
  let out := SweepWorker.run parse_hz no_delay 1
               (SweepWorker.init sample_app dead_vna) in
  out.1 = Raise (IOError (SweepWorker.giving_up "data 0" 10)) ∧
  SweepWorker.trace out.2
  = [DevSetSweep 1000000 2000000; DevReadFrequencies] ++ replicate 10 (DevReadValues "data 0").
Proof. split; reflexivity. Qed.

(** C9, as stated, fails: a run on a disconnected session ends without
    any signal and without an error message. *)
Lemma run_not_connected_is_silent :
  let out := SweepWorker.run parse_hz no_delay 1
               (SweepWorker.init sample_app unplugged_vna) in
  out.1 = Ok () ∧
  SweepWorker.trace out.2 = [] ∧
  SweepWorker.error_message out.2 = EmptyString.
Proof. done. Qed.

(** C9, amended.  A run on a session that reports not connected returns
    at once and normally: the worker is left not running, at 0 percent,
    and otherwise as it was; nothing is added to its trace, so no signal
    is emitted ([sweepError], [fatalSweepError], [finished], [updated])
    and the device is not addressed. *)
Theorem run_not_connected (parse_frequency : string → Z)
    (correct_delay : Datapoint → Qc → bool → Datapoint)
    (fuel : nat) (w : SweepWorker.t) :
  VNA.connected (SweepWorker.vna w) = false →
  SweepWorker.run parse_frequency correct_delay fuel w
  = (Ok (), SweepWorker.set_running (SweepWorker.set_percentage w 0%Qc) false) ∧
  SweepWorker.trace (SweepWorker.run parse_frequency correct_delay fuel w).2
  = SweepWorker.trace w ∧
  SweepWorker.reads (SweepWorker.run parse_frequency correct_delay fuel w).2
  = SweepWorker.reads w.
Proof.
  intros Hdown.
  assert (SweepWorker.run parse_frequency correct_delay fuel w
          = (Ok (), SweepWorker.set_running (SweepWorker.set_percentage w 0%Qc) false)) as ->.
  { unfold SweepWorker.run. step_M. rewrite Hdown. cbn. by destruct w. }
  done.
Qed.

Lemma run_not_connected_witness :
  let w := SweepWorker.init sample_app unplugged_vna in
  SweepWorker.run parse_hz no_delay 1 w
  = (Ok (), SweepWorker.set_running (SweepWorker.set_percentage w 0%Qc) false) ∧
  SweepWorker.trace (SweepWorker.run parse_hz no_delay 1 w).2 = SweepWorker.trace w ∧
  SweepWorker.reads (SweepWorker.run parse_hz no_delay 1 w).2 = SweepWorker.reads w.
Proof.
  intros w. apply (run_not_connected parse_hz no_delay 1 w). reflexivity.
Defined.

(** ** Properties of the Touchstone reader *)

Section RowChecks.

Lemma rows_pass_sound (rows : list row) : ∀ (pf : Qc) (pl : nat),
  rows_pass pf pl rows = false → violation_from pf pl rows.
Proof.
  induction rows as [|[f d] rest IH]; intros pf pl; cbn; [discriminate|].
  set (n := length d). set (pl' := if decide (pl = 0%nat) then n else pl).
  intros Hfail.
  destruct (decide (pf < f)%Qc) as [Hasc|Hasc].
  2: { left. exists 0%nat, (f, d). split; [done|]. cbn. by apply Qcnot_lt_le. }
  destruct (Nat.even n) eqn:Heven.
  2: { right; left. by exists 0%nat, (f, d). }
  destruct (decide (n = pl')) as [Hn|Hn].
  2: { right; right; left. subst pl'. case_decide; [done|].
       split; [done|]. by exists 0%nat, (f, d). }
  rewrite !bool_decide_eq_true_2 in Hfail by done. cbn in Hfail.
  destruct (IH _ _ Hfail) as [(i & r & Hi & Hle)|[(i & r & Hi & Hodd)|[(Hpl & i & r & Hi & Hne)|
    (j & i & rj & ri & Hji & Hj & Hi & Hnz & Hne)]]].
  - left. exists (S i), r. split; [done|]. by destruct i.
  - right; left. by exists (S i), r.
  - subst pl'. case_decide as Hz.
    + right; right; right. exists 0%nat, (S i), (f, d), r. cbn.
      split; [lia|]. done.
    + right; right; left. split; [done|]. by exists (S i), r.
  - right; right; right. exists (S j), (S i), rj, ri. split; [lia|]. done.
Qed.

Lemma rows_pass_complete (rows : list row) : ∀ (pf : Qc) (pl : nat),
  rows_pass pf pl rows = true → ¬ violation_from pf pl rows.
Proof.
  induction rows as [|[f d] rest IH]; intros pf pl; cbn.
  - intros _ [(i & r & Hi & _)|[(i & r & Hi & _)|[(_ & i & r & Hi & _)|
      (j & i & rj & ri & _ & Hj & _)]]]; done.
  - intros [[[Hasc%bool_decide_eq_true Heven]%andb_prop Hn%bool_decide_eq_true]%andb_prop
              Hrest]%andb_prop.
    specialize (IH _ _ Hrest).
    intros [(i & r & Hi & Hle)|[(i & r & Hi & Hodd)|[(Hpl & i & r & Hi & Hne)|
      (j & i & rj & ri & Hji & Hj & Hi & Hnz & Hne)]]].
    + destruct i as [|i]; cbn in Hi, Hle.
      * simplify_eq. by apply Qclt_not_le in Hasc.
      * apply IH. left. exists i, r. split; [done|]. by destruct i.
    + destruct i as [|i]; cbn in Hi.
      * simplify_eq. cbn in Hodd. congruence.
      * apply IH. right; left. by exists i, r.
    + case_decide; [done|].
      destruct i as [|i]; cbn in Hi.
      * by simplify_eq.
      * apply IH. right; right; left. split; [done|]. by exists i, r.
    + destruct i as [|i]; [lia|]. destruct j as [|j]; cbn in Hi, Hj.
      * simplify_eq. cbn in Hnz, Hne.
        apply IH. right; right; left. split; [by case_decide; congruence|].
        exists i, ri. split; [done|]. case_decide; congruence.
      * apply IH. right; right; right. exists j, i, rj, ri. split; [lia|]. done.
Qed.

(** At the start of the data section the loop's view coincides with the
    three violations. *)
Lemma rows_pass_violation_among (rows : list row) :
  rows_pass 0%Qc 0 rows = false ↔ violation_among rows.
Proof.
  split.
  - intros [?|[?|[[? _]|?]]]%rows_pass_sound; unfold violation_among; by eauto.
  - intros Hv. destruct (rows_pass 0%Qc 0 rows) eqn:Hpass; [|done].
    exfalso. apply (rows_pass_complete _ _ _ Hpass).
    destruct Hv as [?|[?|?]]; unfold violation_from; by eauto.
Qed.

(** When the first row has values, comparing with the first row and
    comparing among the rows with values come to the same. *)
Lemma violation_first (rows : list row) :
  (∀ r, rows !! 0%nat = Some r → length r.2 ≠ 0%nat) →
  violation rows ↔ violation_among rows.
Proof.
  intros Hfirst. unfold violation, violation_among.
  do 2 (apply or_iff_compat_l). split.
  - intros (i & r0 & ri & H0 & Hi & Hne).
    destruct i as [|i]; [by simplify_eq|].
    exists 0%nat, (S i), r0, ri. split; [lia|]. eauto.
  - intros (j & i & rj & ri & Hji & Hj & Hi & Hnz & Hne).
    destruct (rows !! 0%nat) as [r0|] eqn:H0.
    + destruct (decide (length rj.2 = length r0.2)) as [E|E].
      * exists i, r0, ri. split; [done|]. split; [done|]. congruence.
      * by exists j, r0, rj.
    + apply lookup_ge_None in H0. apply lookup_lt_Some in Hj. lia.
Qed.

Lemma rows_pass_violation (rows : list row) :
  (∀ r, rows !! 0%nat = Some r → length r.2 ≠ 0%nat) →
  rows_pass 0%Qc 0 rows = false ↔ violation rows.
Proof. intros H. by rewrite rows_pass_violation_among, violation_first. Qed.

End RowChecks.

Section Reader.

Import Touchstone.

Lemma store_values_raises (fmt : string) (f : Qc) (n : nat) :
  ∀ (vals : list string) (slot : nat) (sdata : list (list Datapoint)) (e : exn),
  (length vals ≤ n)%nat →
  store_values fmt f vals slot sdata = Raise e →
  e = StopIteration ∨ (∃ msg, e = ValueError msg) ∨
  e = TypeError "polar() takes exactly one argument (2 given)".
Proof.
  induction n as [|n IH]; intros vals slot sdata e Hlen;
    destruct vals as [|v vals]; cbn in *; try discriminate; try lia.
  repeat case_decide.
  - destruct (Py.float v) eqn:Ev; cbn.
    + destruct vals as [|v' vals]; cbn; [intros [= <-]; eauto|].
      destruct (Py.float v') eqn:Ev'; cbn.
      * apply IH. cbn in Hlen. lia.
      * intros [= <-]. right; left. by eapply float_raises.
    + intros [= <-]. right; left. by eapply float_raises.
  - intros [= <-]. eauto.
  - destruct (Py.float v) eqn:Ev; cbn.
    + destruct vals as [|v' vals]; cbn; [intros [= <-]; eauto|].
      destruct (Py.float v') eqn:Ev'; cbn.
      * intros [= <-]. eauto.
      * intros [= <-]. right; left. by eapply float_raises.
    + intros [= <-]. right; left. by eapply float_raises.
  - apply IH. lia.
Qed.

Lemma store_values_not_structural (fmt : string) (f : Qc) (vals : list string)
    (slot : nat) (sdata : list (list Datapoint)) (e : exn) :
  store_values fmt f vals slot sdata = Raise e → ¬ structural_error e.
Proof.
  intros H. apply (store_values_raises _ _ (length vals)) in H; [|done].
  destruct H as [->|[[msg ->]| ->]]; intros [line [?|[?|?]]]; discriminate.
Qed.

(** One data line whose fields are known, seen as the checks followed by
    the store. *)
Lemma data_line_unfold (o : Options.t) (line : string) (c : cursor) (f : Qc) (d : list string) :
  fields o line = Ok (f, d) →
  data_line o line c =
  if decide (f ≤ prev_freq c)%Qc then
    Raise (TypeError ("Frequeny not ascending: " +:+ line))
  else
    let pl' := if decide (prev_len c = 0%nat) then length d else prev_len c in
    if negb (Nat.even (length d)) then
      Raise (TypeError ("Data values aren't pairs: " +:+ line))
    else if decide (length d ≠ pl') then
      Raise (TypeError ("Inconsistent number of pairs: " +:+ line))
    else
      sdata ← store_values (Options.format o) f d 0 (cur_sdata c);
      Ok (mkCursor f pl' sdata).
Proof.
  intros Hf. unfold data_line. rewrite Hf. cbn.
  case_decide; [done|].
  destruct (Nat.even (length d)) eqn:Heven; cbn.
  - apply even_mod in Heven. by case_decide.
  - case_decide as Hmod; [done|]. exfalso.
    assert (Nat.even (length d) = true); [|congruence].
    apply even_mod. by destruct (decide (length d `mod` 2 = 0)%nat).
Qed.

Lemma data_lines_cons_blank (o : Options.t) (line : string) (file : list string) (c : cursor) :
  Py.strip line = EmptyString → data_lines o (line :: file) c = data_lines o file c.
Proof. intros H. cbn. by case_decide. Qed.

Lemma data_lines_cons (o : Options.t) (line : string) (file : list string) (c : cursor) :
  Py.strip line ≠ EmptyString →
  data_lines o (line :: file) c = c' ← data_line o line c; data_lines o file c'.
Proof. intros H. cbn. by case_decide. Qed.

Lemma data_rows_cons_blank (o : Options.t) (line : string) (file : list string) (rows : list row) :
  Py.strip line = EmptyString → data_rows o (line :: file) rows → data_rows o file rows.
Proof.
  unfold data_rows. intros Hblank. rewrite filter_cons. by case_decide.
Qed.

Lemma data_rows_cons (o : Options.t) (line : string) (file : list string) (rows : list row) :
  Py.strip line ≠ EmptyString → data_rows o (line :: file) rows →
  ∃ r rows', rows = r :: rows' ∧ fields o line = Ok r ∧ data_rows o file rows'.
Proof.
  unfold data_rows. intros Hline. rewrite filter_cons. case_decide; [|done].
  intros (r & rows' & Hr & Hrows & ->)%Forall2_cons_inv_l. eauto.
Qed.

(** Entering a line that is not blank: its row, and the equation of the
    loop. *)
Ltac enter_line Hrows Hline :=
  match type of Hrows with
  | data_rows ?o (?line :: ?file) ?rows =>
      let r := fresh "r" in
      let rows' := fresh "rows" in
      let Hf := fresh "Hfields" in
      let f := fresh "f" in
      let d := fresh "d" in
      apply (data_rows_cons _ _ _ _ Hline) in Hrows as (r & rows' & -> & Hf & Hrows);
      destruct r as [f d];
      rewrite (data_lines_cons _ _ _ _ Hline), (data_line_unfold _ _ _ _ _ Hf)
  end.

Lemma rows_pass_cons (pf : Qc) (pl : nat) (f : Qc) (d : list string) (rows : list row) :
  ¬ (f ≤ pf)%Qc → Nat.even (length d) = true →
  length d = (if decide (pl = 0%nat) then length d else pl) →
  rows_pass pf pl ((f, d) :: rows)
  = rows_pass f (if decide (pl = 0%nat) then length d else pl) rows.
Proof.
  intros Hasc Heven Hn. cbn. rewrite Heven.
  rewrite bool_decide_eq_true_2 by (by apply Qcnot_le_lt).
  by rewrite bool_decide_eq_true_2.
Qed.

Lemma data_lines_fail (o : Options.t) (file : list string) :
  ∀ (rows : list row) (c : cursor),
  data_rows o file rows →
  rows_pass (prev_freq c) (prev_len c) rows = false →
  is_Raise (data_lines o file c).
Proof.
  induction file as [|line file IH]; intros rows c Hrows Hfail.
  - apply Forall2_nil_inv_l in Hrows as ->. discriminate.
  - destruct (decide (Py.strip line = EmptyString)) as [Hline|Hline].
    + rewrite data_lines_cons_blank by done. eauto using data_rows_cons_blank.
    + enter_line Hrows Hline.
      case_decide as Hasc; [by eexists|]. cbn zeta.
      destruct (Nat.even (length d)) eqn:Heven; cbn; [|by eexists].
      case_decide as Hn; [by eexists|].
      rewrite rows_pass_cons in Hfail by done.
      destruct (store_values _ _ _ _ _) as [sdata|e] eqn:Hstore; cbn; [|by eexists].
      by apply (IH rows0).
Qed.

Lemma data_lines_structural (o : Options.t) (n : nat) (file : list string) :
  ∀ (rows : list row) (c : cursor),
  data_rows o file rows → storable o n rows → length (cur_sdata c) = n →
  rows_pass (prev_freq c) (prev_len c) rows = false →
  ∃ e, data_lines o file c = Raise e ∧ structural_error e.
Proof.
  induction file as [|line file IH]; intros rows c Hrows Hstorable Hlen Hfail.
  - apply Forall2_nil_inv_l in Hrows as ->. discriminate.
  - destruct (decide (Py.strip line = EmptyString)) as [Hline|Hline].
    + rewrite data_lines_cons_blank by done. eauto using data_rows_cons_blank.
    + enter_line Hrows Hline.
      case_decide as Hasc; [eexists; split; [done|]; exists line; eauto|]. cbn zeta.
      destruct (Nat.even (length d)) eqn:Heven; cbn;
        [|eexists; split; [done|]; exists line; eauto].
      case_decide as Hn; [eexists; split; [done|]; exists line; eauto|].
      rewrite rows_pass_cons in Hfail by done.
      destruct (Hstorable (f, d) (cur_sdata c)) as (sdata & Hstore & Hlen');
        [by left|done|done|]. cbn in Hstore. rewrite Hstore. cbn.
      apply (IH rows0); try done.
      intros r sd Hr. apply Hstorable. by right.
Qed.

Lemma data_lines_pass (o : Options.t) (file : list string) :
  ∀ (rows : list row) (c : cursor) (e : exn),
  data_rows o file rows →
  rows_pass (prev_freq c) (prev_len c) rows = true →
  data_lines o file c = Raise e → ¬ structural_error e.
Proof.
  induction file as [|line file IH]; intros rows c e Hrows Hpass; [discriminate|].
  destruct (decide (Py.strip line = EmptyString)) as [Hline|Hline].
  - rewrite data_lines_cons_blank by done. eauto using data_rows_cons_blank.
  - enter_line Hrows Hline.
    cbn in Hpass.
    apply andb_prop in Hpass as [[[Hasc%bool_decide_eq_true Heven]%andb_prop
      Hn%bool_decide_eq_true]%andb_prop Hpass].
    destruct (decide (f ≤ prev_freq c)%Qc) as [Hle|_];
      [by destruct (Qclt_not_le _ _ Hasc)|]. cbn zeta.
    rewrite Heven. cbn. destruct (decide (length d ≠ _)) as [Hne|_]; [done|].
    destruct (store_values _ _ _ _ _) as [sdata|e'] eqn:Hstore; cbn.
    + by apply (IH rows0).
    + intros [= <-]. by eapply store_values_not_structural.
Qed.

Lemma data_lines_ok (o : Options.t) (n : nat) (file : list string) :
  ∀ (rows : list row) (c : cursor),
  data_rows o file rows → storable o n rows → length (cur_sdata c) = n →
  rows_pass (prev_freq c) (prev_len c) rows = true →
  is_Ok (data_lines o file c).
Proof.
  induction file as [|line file IH]; intros rows c Hrows Hstorable Hlen Hpass;
    [by eexists|].
  destruct (decide (Py.strip line = EmptyString)) as [Hline|Hline].
  - rewrite data_lines_cons_blank by done. eauto using data_rows_cons_blank.
  - enter_line Hrows Hline.
    cbn in Hpass.
    apply andb_prop in Hpass as [[[Hasc%bool_decide_eq_true Heven]%andb_prop
      Hn%bool_decide_eq_true]%andb_prop Hpass].
    destruct (decide (f ≤ prev_freq c)%Qc) as [Hle|_];
      [by destruct (Qclt_not_le _ _ Hasc)|]. cbn zeta.
    rewrite Heven. cbn. destruct (decide (length d ≠ _)) as [Hne|_]; [done|].
    destruct (Hstorable (f, d) (cur_sdata c)) as (sdata & Hstore & Hlen');
      [by left|done|done|]. cbn in Hstore. rewrite Hstore. cbn.
    apply (IH rows0); try done.
    intros r sd Hr. apply Hstorable. by right.
Qed.

(** Under [ri], numeric values in at most as many pairs as there are
    slots can always be stored. *)
Lemma store_values_ri (f : Qc) (n : nat) :
  ∀ (vals : list string) (slot : nat) (sdata : list (list Datapoint)),
  (length vals ≤ n)%nat → Nat.even (length vals) = true →
  Forall (λ v, is_Ok (Py.float v)) vals →
  (2 * slot + length vals ≤ 2 * length sdata)%nat →
  ∃ sdata', store_values "ri" f vals slot sdata = Ok sdata' ∧
            length sdata' = length sdata.
Proof.
  induction n as [|n IH]; intros vals slot sdata Hlen Heven Hnum Hroom;
    destruct vals as [|v [|v' vals]]; cbn in *; try discriminate; try lia; eauto.
  apply Forall_cons in Hnum as [[a Ha] [[b Hb] Hnum]%Forall_cons].
  case_decide; [|done]. case_decide; [|lia].
  rewrite Ha. cbn. rewrite Hb. cbn.
  destruct (IH vals (S slot) (append_slot sdata slot (mkDatapoint f a b)))
    as (sdata' & -> & Hlen'); try done; try lia.
  - unfold append_slot. rewrite length_alter. lia.
  - eexists. split; [done|]. unfold append_slot in Hlen'. by rewrite length_alter in Hlen'.
Qed.

Lemma storable_ri (o : Options.t) (n : nat) (rows : list row) :
  Options.format o = "ri" →
  Forall (λ r : row, Forall (λ v, is_Ok (Py.float v)) r.2 ∧ (length r.2 ≤ 2 * n)%nat) rows →
  storable o n rows.
Proof.
  intros Hri Hrows r sdata Hr Heven Hlen. rewrite Hri.
  rewrite Forall_forall in Hrows. destruct (Hrows r Hr) as [Hnum Hroom].
  destruct (store_values_ri r.1 (length r.2) r.2 0 sdata) as (sdata' & ? & ?);
    try done; try lia.
  exists sdata'. split; [done|]. congruence.
Qed.

End Reader.

(** C6, as stated, fails in both directions: a single data line at
    0 Hz, with no line before it, is rejected as not ascending; and a
    second line with two values is accepted after a first line with
    none. *)
Lemma touchstone_checks_counterexample :
  Touchstone.loads (Touchstone.init "a.s1p")
    ("# hz s ri" +:+ Py.nl +:+ "0 1 0" +:+ Py.nl)
  = Raise (TypeError ("Frequeny not ascending: 0 1 0" +:+ Py.nl)) ∧
  is_Ok (Touchstone.loads (Touchstone.init "a.s1p")
    ("# hz s ri" +:+ Py.nl +:+ "1" +:+ Py.nl +:+ "2 1 0" +:+ Py.nl)).
Proof. split; [reflexivity|]. eexists. vm_compute. reflexivity. Qed.

(** C6, amended.  Take a file whose options line parses, whose data
    lines each start with a numeric frequency, and whose first data line
    has at least one value.  If some data line has a scaled frequency not
    above that of the line before it (or not above 0, for the first), or
    an odd number of values, or a number of values other than that of the
    first data line, parsing fails; the failure is one of the three
    consistency errors unless storing values fails first.  If no line
    does, parsing raises none of the three consistency errors, and
    succeeds whenever the values can be stored. *)
Theorem touchstone_structural_checks (ts : Touchstone.t) (s : string)
    (cm : list string) (ol : string) (file : list string) (o : Options.t)
    (rows : list row) :
  Touchstone.parse_comments (Py.lines s) (Touchstone.comments ts) = (cm, Some ol, file) →
  Options.parse (Touchstone.opts ts) ol = Ok o →
  data_rows o file rows →
  (∀ r, rows !! 0%nat = Some r → length r.2 ≠ 0%nat) →
  (violation rows → is_Raise (Touchstone.loads ts s)) ∧
  (violation rows → storable o (length (Touchstone.sdata ts)) rows →
   ∃ e, Touchstone.loads ts s = Raise e ∧ structural_error e) ∧
  (¬ violation rows → ∀ e, Touchstone.loads ts s = Raise e → ¬ structural_error e) ∧
  (¬ violation rows → storable o (length (Touchstone.sdata ts)) rows →
   is_Ok (Touchstone.loads ts s)).
Proof.
  intros Hcm Hopts Hrows Hfirst.
  unfold Touchstone.loads. rewrite Hcm, Hopts. cbn.
  set (c0 := Touchstone.mkCursor 0%Qc 0 (Touchstone.sdata ts)).
  pose proof (rows_pass_violation rows Hfirst) as Hiff.
  repeat split.
  - intros Hv%Hiff.
    destruct (data_lines_fail o file rows c0 Hrows Hv) as [e ->]. by eexists.
  - intros Hv%Hiff Hst.
    destruct (data_lines_structural o _ file rows c0 Hrows Hst eq_refl Hv) as (e & -> & He).
    by exists e.
  - intros Hv e.
    destruct (rows_pass 0%Qc 0 rows) eqn:Hpass; [|by destruct Hv; apply Hiff].
    destruct (Touchstone.data_lines o file c0) as [c|e'] eqn:Hlines; cbn; [done|].
    intros [= <-]. by eapply (data_lines_pass o file rows c0).
  - intros Hv Hst.
    destruct (rows_pass 0%Qc 0 rows) eqn:Hpass; [|by destruct Hv; apply Hiff].
    destruct (data_lines_ok o _ file rows c0 Hrows Hst eq_refl Hpass) as [c ->].
    by eexists.
Qed.

Lemma touchstone_structural_checks_witness :
  (∃ e, Touchstone.loads (Touchstone.init "a.s1p") repeated_frequency = Raise e ∧
        structural_error e) ∧
  is_Ok (Touchstone.loads (Touchstone.init "a.s1p") ascending_frequencies).
Proof.
  assert (∀ rows, Forall (λ r : row, Forall (λ v, is_Ok (Py.float v)) r.2 ∧
                                     (length r.2 ≤ 2 * 4)%nat) rows →
                  storable (Options.mk 1 "s" "ri" 50) 4 rows) as Hstorable
    by (intros rows; by apply storable_ri).
  split.
  - apply (touchstone_structural_checks (Touchstone.init "a.s1p") repeated_frequency
             ["! sample"] "# hz s ri r 50"
             ["1000 0.5 0.25" +:+ Py.nl; Py.nl; "1000 0.4 0.2 ! again" +:+ Py.nl]
             (Options.mk 1 "s" "ri" 50) repeated_frequency_rows).
    + reflexivity.
    + reflexivity.
    + repeat constructor; vm_compute; reflexivity.
    + intros r [= <-]. cbn. lia.
    + left. exists 1%nat, ((number "1000" * Qc_of_Z 1)%Qc, ["0.4"; "0.2"]).
      split; [reflexivity|]. cbn. apply Qcle_refl.
    + apply Hstorable.
      repeat constructor; cbn; try lia; eexists; vm_compute; reflexivity.
  - apply (touchstone_structural_checks (Touchstone.init "a.s1p") ascending_frequencies
             [] "# khz s ri"
             ["1 0.5 0.25 0.1 0.2" +:+ Py.nl; "2.5 0.4 0.2 0.1 0.2" +:+ Py.nl]
             (Options.mk 1000 "s" "ri" 50) ascending_frequencies_rows).
    + reflexivity.
    + reflexivity.
    + repeat constructor; vm_compute; reflexivity.
    + intros r [= <-]. cbn. lia.
    + intros Hv. apply rows_pass_violation in Hv.
      * vm_compute in Hv. discriminate.
      * intros r [= <-]. cbn. lia.
    + apply Hstorable.
      repeat constructor; cbn; try lia; eexists; vm_compute; reflexivity.
Defined.

(** The instance of the specification: a repeated frequency is refused
    as not ascending. *)
Example repeated_frequency_refused :
  Touchstone.loads (Touchstone.init "a.s1p") repeated_frequency
  = Raise (TypeError ("Frequeny not ascending: 1000 0.4 0.2 ! again" +:+ Py.nl)).
Proof. reflexivity. Qed.

(** C5 at the inputs where the reader departs from it.  Under [db]
    nothing is ever stored: the loop over the values has no branch for
    that format, so a file in [db] format loads with every parameter slot
    empty.  Under [ma], the default, the first pair of a data line raises
    [TypeError], because [cmath.polar] is called with two arguments. *)
Theorem touchstone_polar_formats_not_decoded :
  (∀ freq vals slot sdata,
     Touchstone.store_values "db" freq vals slot sdata = Ok sdata) ∧
  Touchstone.loads (Touchstone.init "a.s1p")
    ("# hz s db r 50" +:+ Py.nl +:+ "1000 -6.0 45.0" +:+ Py.nl)
  = Ok (Touchstone.mk "a.s1p" [[]; []; []; []] [] (Options.mk 1 "s" "db" 50)) ∧
  Touchstone.loads (Touchstone.init "a.s1p")
    ("# hz s ma r 50" +:+ Py.nl +:+ "1000 0.5 45.0" +:+ Py.nl)
  = Raise (TypeError "polar() takes exactly one argument (2 given)") ∧
  Touchstone.loads (Touchstone.init "a.s1p")
    ("# hz s r 50" +:+ Py.nl +:+ "1000 0.5 45.0" +:+ Py.nl)
  = Raise (TypeError "polar() takes exactly one argument (2 given)").
Proof.
  split; [|split; [|split]]; try reflexivity.
  intros freq vals. induction vals as [|v vals IH]; intros slot sdata; cbn; [done|].
  repeat case_decide; try discriminate. apply IH.
Qed.

(** The part of C5 that holds: under [ri] the pairs of a line go, in
    order, to S11, S21, S12 and S22, as they are written. *)
Example touchstone_ri_slots :
  ∃ ts, Touchstone.loads (Touchstone.init "a.s2p")
          ("# hz s ri r 50" +:+ Py.nl +:+ "1000 0.1 0.2 0.3 0.4 0.5 0.6 0.7 0.8" +:+ Py.nl)
        = Ok ts ∧
        Touchstone.sdata ts
        = [[mkDatapoint (number "1000" * Qc_of_Z 1) (number "0.1") (number "0.2")];
           [mkDatapoint (number "1000" * Qc_of_Z 1) (number "0.3") (number "0.4")];
           [mkDatapoint (number "1000" * Qc_of_Z 1) (number "0.5") (number "0.6")];
           [mkDatapoint (number "1000" * Qc_of_Z 1) (number "0.7") (number "0.8")]].
Proof. eexists. split; vm_compute; reflexivity. Qed.

(** C7 at the inputs where the parser departs from it.  A second
    [r <value>] is accepted and overrides the first, because the flag of
    the resistance branch is never set; and a token such as [sy] is
    accepted as the parameter type, because the test is for a substring
    of ["syzgh"]. *)
Theorem options_accepts_what_it_should_refuse :
  Options.parse Options.init "# hz s ri r 50 r 75" = Ok (Options.mk 1 "s" "ri" 75) ∧
  Options.parse Options.init "# hz sy ri" = Ok (Options.mk 1 "sy" "ri" 50) ∧
  Options.parse Options.init "# hz hz" = Raise (TypeError "Illegial option line: # hz hz") ∧
  Options.parse Options.init "# dbm" = Raise (TypeError "Illegial option line: # dbm").
Proof. repeat split; reflexivity. Qed.

(** ** Further properties of the sweep plan *)
Lemma quot_ge_1 (a d : Z) : 0 < d → (1 ≤ a ÷ d ↔ d ≤ a).
Proof.
  intros Hd. split.
  - intros H. destruct (decide (0 ≤ a)) as [Ha|Ha].
    + rewrite Z.quot_div_nonneg in H by lia.
      pose proof (Z.mul_div_le a d Hd). nia.
    + pose proof (Z.quot_opp_l a d ltac:(lia)).
      pose proof (Z.quot_pos (- a) d ltac:(lia) Hd). lia.
  - intros H. rewrite Z.quot_div_nonneg by lia.
    apply Z.div_le_lower_bound; lia.
Qed.

Lemma init_legal (start end_ points sweeps : Z) :
  legal_plan start end_ points sweeps →
  Sweep.init start end_ points sweeps
  = Ok (Sweep.mk start end_ points sweeps (end_ - start)
          ((end_ - start) ÷ (points * sweeps - 1))).
Proof.
  unfold legal_plan, Sweep.init, Sweep.stepsize, mbind, result_mbind, result_bind.
  intros (Hs & He & Hp & Hw & H2 & Hspan).
  case_decide; [lia|]. unfold Sweep.check. cbn.
  rewrite !bool_decide_eq_true_2; [done|..]; try done.
  apply quot_ge_1; lia.
Qed.

Lemma init_illegal (start end_ points sweeps : Z) :
  points * sweeps ≠ 1 → ¬ legal_plan start end_ points sweeps →
  Sweep.init start end_ points sweeps
  = Raise (ValueError ("Illegal sweep settings: " +:+
                       Sweep.repr start end_ points sweeps)).
Proof.
  unfold legal_plan, Sweep.init, Sweep.stepsize, mbind, result_mbind, result_bind.
  intros H1 Hn. case_decide; [lia|]. unfold Sweep.check. cbn.
  repeat case_bool_decide; cbn; try done.
  destruct Hn. repeat split; try done; try nia.
  apply quot_ge_1; [nia|done].
Qed.

Lemma init_single (start end_ points sweeps : Z) :
  points * sweeps = 1 → Sweep.init start end_ points sweeps = Raise ZeroDivisionError.
Proof.
  unfold Sweep.init, Sweep.stepsize, mbind, result_mbind, result_bind.
  intros H. case_decide; [done|lia].
Qed.


(** ** The complex numbers as a field *)

Lemma complex_ring :
  ring_theory (Complex.of_Qc 0) (Complex.of_Qc 1) Complex.add Complex.mul
              Complex.sub Complex.neg eq.
Proof.
  split; intros; apply complex_eq; cbn; ring.
Qed.

Add Ring complex_ring_inst : complex_ring.

Lemma sum_squares_zero (x y : Qc) : (x * x + y * y = 0)%Qc → x = 0%Qc ∧ y = 0%Qc.
Proof.
  intros H. apply (f_equal this) in H. cbn in H.
  assert (this x * this x + this y * this y == 0)%Q as H'.
  { rewrite <-(Qred_correct (this x * this x)), <-(Qred_correct (this y * this y)),
      <-(Qred_correct (_ + _)), H. reflexivity. }
  assert (0 <= this x * this x)%Q as Hx by nra.
  assert (0 <= this y * this y)%Q as Hy by nra.
  assert (this x * this x == 0)%Q as Hx0 by lra.
  assert (this y * this y == 0)%Q as Hy0 by lra.
  split; apply Qc_is_canon; cbn.
  - apply Qmult_integral in Hx0. tauto.
  - apply Qmult_integral in Hy0. tauto.
Qed.

Lemma norm2_zero (a : Complex.t) : Complex.norm2 a = 0%Qc ↔ a = Complex.of_Qc 0.
Proof.
  split.
  - destruct a as [x y]. unfold Complex.norm2; cbn.
    by intros [-> ->]%sum_squares_zero.
  - intros ->. unfold Complex.norm2; cbn. ring.
Qed.

Lemma norm2_mul (a b : Complex.t) :
  Complex.norm2 (a * b) = (Complex.norm2 a * Complex.norm2 b)%Qc.
Proof. unfold Complex.norm2; cbn. ring. Qed.

Lemma complex_integral (a b : Complex.t) :
  (a * b)%C = Complex.of_Qc 0 → a = Complex.of_Qc 0 ∨ b = Complex.of_Qc 0.
Proof.
  intros H%norm2_zero. rewrite norm2_mul in H.
  apply Qcmult_integral in H as [H|H]; [left|right]; by apply norm2_zero.
Qed.

Lemma div_Ok (a b c : Complex.t) :
  Complex.div a b = Ok c ↔ b ≠ Complex.of_Qc 0 ∧ (c * b)%C = a.
Proof.
  unfold Complex.div. case_decide as Hz.
  - split; [done|]. intros [Hb _]. destruct Hb. destruct b; cbn in *.
    destruct Hz as [-> ->]. done.
  - assert (b ≠ Complex.of_Qc 0) as Hb.
    { intros ->. by destruct Hz. }
    assert (Complex.norm2 b ≠ 0%Qc) as Hn by (by intros ?%norm2_zero).
    split.
    + intros [= <-]. split; [done|].
      unfold Complex.norm2 in *. apply complex_eq; cbn; field; done.
    + intros [_ Hc]. f_equal. subst a.
      unfold Complex.norm2 in *. apply complex_eq; cbn; field; done.
Qed.

Lemma div_Raise (a b : Complex.t) (e : exn) :
  Complex.div a b = Raise e ↔ b = Complex.of_Qc 0 ∧ e = ZeroDivisionError.
Proof.
  unfold Complex.div. case_decide as Hz.
  - split; [intros [= <-]|intros [_ ->]; done]. split; [|done].
    destruct b; cbn in *. by destruct Hz as [-> ->].
  - split; [done|]. intros [-> _]. by destruct Hz.
Qed.

Lemma sol_short (g1 g2 g3 gm1 gm2 gm3 : Complex.t) :
  let D := Calibration.denominator g1 g2 g3 gm1 gm2 gm3 in
  (gm1 * D - Calibration.num_e00 g1 g2 g3 gm1 gm2 gm3)%C =
  (g1 * (gm1 * Calibration.num_e11 g1 g2 g3 gm1 gm2 gm3
         - Calibration.num_deltaE g1 g2 g3 gm1 gm2 gm3))%C.
Proof.
  unfold Calibration.denominator, Calibration.num_e00, Calibration.num_e11,
    Calibration.num_deltaE. cbn zeta. ring.
Qed.

Lemma sol_open (g1 g2 g3 gm1 gm2 gm3 : Complex.t) :
  let D := Calibration.denominator g1 g2 g3 gm1 gm2 gm3 in
  (gm2 * D - Calibration.num_e00 g1 g2 g3 gm1 gm2 gm3)%C =
  (g2 * (gm2 * Calibration.num_e11 g1 g2 g3 gm1 gm2 gm3
         - Calibration.num_deltaE g1 g2 g3 gm1 gm2 gm3))%C.
Proof.
  unfold Calibration.denominator, Calibration.num_e00, Calibration.num_e11,
    Calibration.num_deltaE. cbn zeta. ring.
Qed.

Lemma sol_load (g1 g2 g3 gm1 gm2 gm3 : Complex.t) :
  let D := Calibration.denominator g1 g2 g3 gm1 gm2 gm3 in
  (gm3 * D - Calibration.num_e00 g1 g2 g3 gm1 gm2 gm3)%C =
  (g3 * (gm3 * Calibration.num_e11 g1 g2 g3 gm1 gm2 gm3
         - Calibration.num_deltaE g1 g2 g3 gm1 gm2 gm3))%C.
Proof.
  unfold Calibration.denominator, Calibration.num_e00, Calibration.num_e11,
    Calibration.num_deltaE. cbn zeta. ring.
Qed.

Lemma sol_short_den (g1 g2 g3 gm1 gm2 gm3 : Complex.t) :
  (gm1 * Calibration.num_e11 g1 g2 g3 gm1 gm2 gm3
         - Calibration.num_deltaE g1 g2 g3 gm1 gm2 gm3)%C
  = ((g2 - g3) * (gm1 - gm2) * (gm1 - gm3))%C.
Proof.
  unfold Calibration.denominator, Calibration.num_e00, Calibration.num_e11,
    Calibration.num_deltaE. ring.
Qed.
Lemma sol_open_den (g1 g2 g3 gm1 gm2 gm3 : Complex.t) :
  (gm2 * Calibration.num_e11 g1 g2 g3 gm1 gm2 gm3
         - Calibration.num_deltaE g1 g2 g3 gm1 gm2 gm3)%C
  = ((g1 - g3) * (gm1 - gm2) * (gm2 - gm3))%C.
Proof.
  unfold Calibration.denominator, Calibration.num_e00, Calibration.num_e11,
    Calibration.num_deltaE. ring.
Qed.
Lemma sol_load_den (g1 g2 g3 gm1 gm2 gm3 : Complex.t) :
  (gm3 * Calibration.num_e11 g1 g2 g3 gm1 gm2 gm3
         - Calibration.num_deltaE g1 g2 g3 gm1 gm2 gm3)%C
  = ((g1 - g2) * (gm1 - gm3) * (gm2 - gm3))%C.
Proof.
  unfold Calibration.denominator, Calibration.num_e00, Calibration.num_e11,
    Calibration.num_deltaE. ring.
Qed.

(** ** Further properties of the calibration engine *)

Section CalibrationSteps.

Import Calibration.

Variable shortModel openModel loadModel : Qc → result Complex.t.

Lemma calculateStep_Next (i : nat) (c c' : Calibration.t) :
  calculateStep shortModel openModel loadModel i c = Ok (Next c') →
  ∃ g gm v,
    standards_at shortModel openModel loadModel c i g gm ∧ solves g gm v ∧
    inputs c' = inputs c ∧ isCalculated c' = isCalculated c ∧
    e00 c' = <[i := Some v.1.1]> (e00 c) ∧
    e11 c' = <[i := Some v.1.2]> (e11 c) ∧
    deltaE c' = <[i := Some v.2]> (deltaE c) ∧
    if isValid2Port c then
      ∃ iso thr, s21isolation c !! i = Some iso ∧ s21through c !! i = Some thr ∧
        (i < length (e30 c))%nat ∧ (i < length (e11 c))%nat ∧
        e30 c' = <[i := Some (complex_of iso)]> (e30 c) ∧
        e10e32 c' = <[i := Some ((complex_of thr - complex_of iso) *
                                 (Complex.of_Qc 1 - v.1.2 * v.1.2))%C]> (e10e32 c)
    else e30 c' = e30 c ∧ e10e32 c' = e10e32 c.
Proof.
  unfold calculateStep, getitem.
  destruct (s11short c !! i) as [sh|] eqn:Esh; [|discriminate]. cbn.
  destruct (if useIdealShort c then _ else _) as [g1|] eqn:Eg1; [|discriminate]. cbn.
  destruct (if useIdealOpen c then _ else _) as [g2|] eqn:Eg2; [|discriminate]. cbn.
  destruct (if useIdealLoad c then _ else _) as [g3|] eqn:Eg3; [|discriminate]. cbn.
  destruct (s11open c !! i) as [op|] eqn:Eop; [|discriminate]. cbn.
  destruct (s11load c !! i) as [ld|] eqn:Eld; [|discriminate]. cbn.
  remember (Complex.div (num_e00 _ _ _ _ _ _) _) as r00 eqn:E00.
  remember (Complex.div (num_e11 _ _ _ _ _ _) _) as r11 eqn:E11.
  remember (Complex.div (num_deltaE _ _ _ _ _ _) _) as rdE eqn:EdE.
  symmetry in E00, E11, EdE.
  destruct r00 as [v00|e]; cbn; [|by destruct e].
  destruct r11 as [v11|e]; cbn; [|by destruct e].
  destruct rdE as [vdE|e]; cbn; [|by destruct e].
  intros Hstep.
  exists (g1, g2, g3), (complex_of sh, complex_of op, complex_of ld), (v00, v11, vdE).
  assert (standards_at shortModel openModel loadModel c i (g1, g2, g3)
            (complex_of sh, complex_of op, complex_of ld)) as Hst
    by (exists sh, op, ld; done).
  assert (solves (g1, g2, g3) (complex_of sh, complex_of op, complex_of ld)
            (v00, v11, vdE)) as Hsol by done.
  split; [done|]. split; [done|]. clear Hst Hsol.
  change (isValid2Port _) with (isValid2Port c) in Hstep.
  destruct (isValid2Port c) eqn:E2.
  - revert Hstep. cbn.
    destruct (s21isolation c !! i) as [iso|] eqn:Eiso; [|discriminate]. cbn.
    destruct (s21through c !! i) as [thr|] eqn:Ethr; [|discriminate]. cbn.
    unfold term, getitem. cbn.
    destruct (decide (i < length (e30 c))%nat) as [H30|H30].
    2: { rewrite (lookup_ge_None_2 (<[i:=_]> (e30 c))) by (rewrite length_insert; lia).
         cbn. discriminate. }
    rewrite (list_lookup_insert_eq (e30 c)) by done. cbn.
    destruct (decide (i < length (e11 c))%nat) as [H11|H11].
    2: { rewrite (lookup_ge_None_2 (<[i:=_]> (e11 c))) by (rewrite length_insert; lia).
         cbn. discriminate. }
    rewrite (list_lookup_insert_eq (e11 c)) by done. cbn.
    intros [= <-]. cbn. do 5 (split; [reflexivity|]). exists iso, thr. repeat split; done.
  - injection Hstep as <-. done.
Qed.


Lemma standards_at_inputs (c c1 : Calibration.t) (j : nat) g gm :
  inputs c1 = inputs c →
  standards_at shortModel openModel loadModel c1 j g gm →
  standards_at shortModel openModel loadModel c j g gm.
Proof.
  unfold inputs. intros [= Es Eo El Et Ei Eus Euo Eul].
  unfold standards_at. by rewrite Es, Eo, El, Eus, Euo, Eul.
Qed.

Lemma isValid2Port_inputs (c c1 : Calibration.t) :
  inputs c1 = inputs c → isValid2Port c1 = isValid2Port c.
Proof.
  unfold inputs. intros [= Es Eo El Et Ei Eus Euo Eul].
  unfold isValid2Port, isValid1Port. by rewrite Es, Eo, El, Et, Ei.
Qed.

Lemma terms_at_inputs (c c1 c' : Calibration.t) (j : nat) :
  inputs c1 = inputs c →
  terms_at shortModel openModel loadModel c1 c' j →
  terms_at shortModel openModel loadModel c c' j.
Proof.
  intros Hin (g & gm & v & Hst & Hsol & H00 & H11 & HdE & H2).
  exists g, gm, v. split; [by eapply standards_at_inputs|].
  do 4 (split; [done|]). rewrite <-(isValid2Port_inputs _ _ Hin). intros E2.
  destruct (H2 E2) as (iso & thr & Hiso & Hthr & H30 & H10).
  unfold inputs in Hin. injection Hin as Es Eo El Et Ei Eus Euo Eul.
  exists iso, thr. by rewrite <-Et, <-Ei.
Qed.

Lemma calculateLoop_Next (m : nat) : ∀ (k : nat) (c c' : Calibration.t),
  for_each (calculateStep shortModel openModel loadModel) (seq k m) c = Ok (Next c') →
  (k + m ≤ length (e00 c))%nat → (k + m ≤ length (e11 c))%nat →
  (k + m ≤ length (deltaE c))%nat → (k + m ≤ length (e10e32 c))%nat →
  inputs c' = inputs c ∧ isCalculated c' = isCalculated c ∧ agree_below k c c' ∧
  ∀ j, (k ≤ j < k + m)%nat → terms_at shortModel openModel loadModel c c' j.
Proof.
  induction m as [|m IH]; intros k c c'; cbn [seq for_each].
  - intros [= <-] _ _ _ _. split; [done|]. split; [done|].
    split; [by repeat split|]. intros j Hj. lia.
  - destruct (calculateStep _ _ _ k c) as [[c1|c1 r]|e] eqn:Estep;
      cbn [mbind result_mbind result_bind]; [|discriminate..].
    intros Hloop H00 H11 HdE H10.
    apply calculateStep_Next in Estep
      as (g & gm & v & Hst & Hsol & Hin & Hcalc & E00 & E11 & EdE & E2).
    apply IH in Hloop as (Hin' & Hcalc' & Hagree & Hterms);
      rewrite ?E00, ?E11, ?EdE, ?length_insert; try lia.
    2: { destruct (isValid2Port c).
         - destruct E2 as (? & ? & _ & _ & _ & _ & _ & ->). rewrite length_insert. lia.
         - destruct E2 as [_ ->]. lia. }
    destruct Hagree as (L00 & L11 & LdE & L30 & L10 & Hagree).
    assert (length (e30 c1) = length (e30 c) ∧ length (e10e32 c1) = length (e10e32 c))
      as [L30' L10'].
    { destruct (isValid2Port c).
      - destruct E2 as (? & ? & _ & _ & _ & _ & -> & ->). by rewrite !length_insert.
      - by destruct E2 as [-> ->]. }
    split; [congruence|]. split; [congruence|]. split.
    { rewrite E00, length_insert in L00. rewrite E11, length_insert in L11.
      rewrite EdE, length_insert in LdE.
      do 5 (split; [congruence|]). intros j Hj.
      destruct (Hagree j ltac:(lia)) as (-> & -> & -> & -> & ->).
      rewrite E00, E11, EdE, !list_lookup_insert_ne by lia.
      destruct (isValid2Port c).
      - destruct E2 as (? & ? & _ & _ & _ & _ & -> & ->).
        by rewrite !list_lookup_insert_ne by lia.
      - by destruct E2 as [-> ->]. }
    intros j Hj. destruct (decide (j = k)) as [->|Hne].
    + destruct (Hagree k ltac:(lia)) as (A00 & A11 & AdE & A30 & A10).
      exists g, gm, v. do 2 (split; [done|]).
      rewrite A00, A11, AdE, A30, A10, E00, E11, EdE.
      rewrite !list_lookup_insert_eq by lia. do 3 (split; [done|]).
      intros E2'. rewrite E2' in E2.
      destruct E2 as (iso & thr & Hiso & Hthr & H30 & _ & -> & ->).
      exists iso, thr. by rewrite !list_lookup_insert_eq by lia.
    + apply (terms_at_inputs _ c1); [done|]. apply Hterms. lia.
Qed.

Lemma calculateCorrections_terms (c c' : Calibration.t) :
  calculateCorrections shortModel openModel loadModel c = Ok (c', Some true) →
  inputs c' = inputs c ∧ isCalculated c' = true ∧
  length (e11 c') = length (s11short c) ∧
  ∀ j, (j < length (s11short c))%nat →
       terms_at shortModel openModel loadModel c c' j.
Proof.
  unfold calculateCorrections.
  destruct (isValid1Port c) eqn:Hvalid; cbn [negb]; [|discriminate].
  match goal with |- context [for_each ?b ?l ?c0] =>
    destruct (for_each b l c0) as [[c1|c1 v]|e] eqn:Eloop end;
    cbn [mbind result_mbind result_bind]; [| |discriminate].
  2: { apply calculateLoop_Return in Eloop as ->. discriminate. }
  intros [= <-].
  apply calculateLoop_Next in Eloop as (Hin & _ & Hagree & Hterms);
    cbn; rewrite ?length_replicate; try done.
  split; [done|]. split; [done|].
  destruct Hagree as (_ & L11 & _). cbn in L11. rewrite length_replicate in L11.
  split; [done|]. intros j Hj.
  destruct (Hterms j ltac:(lia)) as (g & gm & v & Hst & Hrest).
  exists g, gm, v. split; [|done]. done.
Qed.

End CalibrationSteps.

Section Nearest.

Import Calibration.

Lemma distance_nonneg (f : Qc) (dp : Datapoint) : (0 ≤ distance f dp)%Qc.
Proof. apply Qcabs_nonneg. Qed.

Lemma distance_zero (f : Qc) (dp : Datapoint) : distance f dp = 0%Qc ↔ freq dp = f.
Proof.
  unfold distance. split.
  - intros H%Qcabs_null. rewrite <-(Qcplus_0_l f), <-H. ring.
  - intros ->. replace (f - f)%Qc with 0%Qc by ring. by apply Qcabs_pos.
Qed.

(** The scan either keeps the index it was given, no point being closer
    than the given distance, or moves to the first of the closest
    points. *)
Lemma nearest_spec (pts : list Datapoint) (f : Qc) : ∀ (k index : nat) (d : Qc),
  (nearest pts f k index d = index ∧
   ∀ dp, dp ∈ pts → (d ≤ distance f dp)%Qc) ∨
  (∃ j dpj, nearest pts f k index d = (k + j)%nat ∧ pts !! j = Some dpj ∧
     (distance f dpj < d)%Qc ∧
     ∀ j' dp', pts !! j' = Some dp' →
       (distance f dpj ≤ distance f dp')%Qc ∧
       ((j' < j)%nat → (distance f dpj < distance f dp')%Qc)).
Proof.
  induction pts as [|dp pts IH]; intros k index d; cbn [nearest].
  - left. split; [done|]. intros dp Hdp. by apply elem_of_nil in Hdp.
  - fold (distance f dp). case_decide as Hlt.
    + right. destruct (IH (S k) k (distance f dp))
        as [[-> Hall]|(j & dpj & -> & Hj & Hd & Hmin)].
      * exists 0%nat, dp. split; [lia|]. split; [done|]. split; [done|].
        intros [|j'] dp' Hdp'; cbn in Hdp'.
        -- injection Hdp' as <-. split; [apply Qcle_refl|lia].
        -- split; [|lia]. apply Hall. by eapply list_elem_of_lookup_2.
      * exists (S j), dpj. split; [lia|]. split; [done|].
        split; [by eapply Qclt_trans|].
        intros [|j'] dp' Hdp'; cbn in Hdp'.
        -- injection Hdp' as <-. split; [by apply Qclt_le_weak|done].
        -- destruct (Hmin j' dp' Hdp') as [Hle Hstrict]. split; [done|].
           intros Hjj. apply Hstrict. lia.
    + apply Qcnot_lt_le in Hlt.
      destruct (IH (S k) index d) as [[-> Hall]|(j & dpj & -> & Hj & Hd & Hmin)].
      * left. split; [done|]. intros dp' [->|Hdp']%elem_of_cons; eauto.
      * right. exists (S j), dpj. split; [lia|]. split; [done|].
        split; [done|].
        intros [|j'] dp' Hdp'; cbn in Hdp'.
        -- injection Hdp' as <-.
           assert (distance f dpj < distance f dp)%Qc by (by eapply Qclt_le_trans).
           split; [by apply Qclt_le_weak|done].
        -- destruct (Hmin j' dp' Hdp') as [Hle Hstrict]. split; [done|].
           intros Hjj. apply Hstrict. lia.
Qed.

Lemma far_positive : (0 < Qc_of_Z (10 ^ 10))%Qc.
Proof. reflexivity. Qed.

(** At a frequency of the axis the scan finds its first position. *)
Lemma nearest_first_at (pts : list Datapoint) (f : Qc) (i : nat) :
  first_at pts f i → nearest pts f 0 0 (Qc_of_Z (10 ^ 10)) = i.
Proof.
  intros [(dp & Hdp & Hf) Hfirst].
  assert (distance f dp = 0%Qc) as Hzero by (by apply distance_zero).
  destruct (nearest_spec pts f 0 0 (Qc_of_Z (10 ^ 10)))
    as [[_ Hall]|(j & dpj & -> & Hj & Hd & Hmin)].
  - apply list_elem_of_lookup_2 in Hdp. apply Hall in Hdp. rewrite Hzero in Hdp.
    destruct (Qclt_not_le _ _ far_positive Hdp).
  - destruct (Hmin i dp Hdp) as [Hle Hstrict]. rewrite Hzero in Hle, Hstrict.
    destruct (decide (i < j)%nat) as [Hij|Hij].
    { destruct (Qclt_not_le _ _ (Hstrict Hij) (distance_nonneg f dpj)). }
    destruct (decide (j < i)%nat) as [Hji|Hji]; [|cbn; lia].
    destruct (Hfirst j dpj Hji Hj). apply distance_zero.
    apply Qcle_antisym; [done|apply distance_nonneg].
Qed.

End Nearest.

(** X2. The scan at the head of [correct11] and [correct21] selects the
    calibration point nearest in frequency, the earliest one on a tie:
    when some point lies within 10^10 Hz of the frequency asked for, the
    point at the index found is at most as far from it as every point,
    and strictly nearer than every point before it.  When no point lies
    within 10^10 Hz the index stays 0. *)
Theorem nearest_is_closest (pts : list Datapoint) (f : Qc) :
  let i := Calibration.nearest pts f 0 0 (Qc_of_Z (10 ^ 10)) in
  ((∀ dp, dp ∈ pts → (Qc_of_Z (10 ^ 10) ≤ distance f dp)%Qc) → i = 0%nat) ∧
  ((∃ dp, dp ∈ pts ∧ (distance f dp < Qc_of_Z (10 ^ 10))%Qc) →
   ∃ dpi, pts !! i = Some dpi ∧
     ∀ j dp, pts !! j = Some dp →
       (distance f dpi ≤ distance f dp)%Qc ∧
       ((j < i)%nat → (distance f dpi < distance f dp)%Qc)).
Proof.
  intros i. subst i.
  destruct (nearest_spec pts f 0 0 (Qc_of_Z (10 ^ 10)))
    as [[-> Hall]|(j & dpj & -> & Hj & Hd & Hmin)].
  - split; [done|]. intros (dp & Hdp & Hnear).
    destruct (Qclt_not_le _ _ Hnear (Hall dp Hdp)).
  - split.
    + intros Hfar. apply list_elem_of_lookup_2 in Hj.
      destruct (Qclt_not_le _ _ Hd (Hfar dpj Hj)).
    + intros _. exists dpj. cbn. eauto.
Qed.

Section Reproduction.

Import Calibration.

Variable shortModel openModel loadModel : Qc → result Complex.t.

Lemma sub_zero (a b : Complex.t) : (a - b)%C = Complex.of_Qc 0 → a = b.
Proof.
  intros H. transitivity (a - b + b)%C; [ring|]. rewrite H. ring.
Qed.

Lemma sub_nonzero (a b : Complex.t) : a ≠ b → (a - b)%C ≠ Complex.of_Qc 0.
Proof. intros Hne H. by apply Hne, sub_zero. Qed.

Lemma mul_nonzero (a b : Complex.t) :
  a ≠ Complex.of_Qc 0 → b ≠ Complex.of_Qc 0 → (a * b)%C ≠ Complex.of_Qc 0.
Proof. intros Ha Hb [H|H]%complex_integral; done. Qed.

(** The correction formula on error terms that solve the one-port
    equations, cleared of its denominators. *)
Lemma correct_solved (g gm v : Complex.t * Complex.t * Complex.t) (s r : Complex.t) :
  solves g gm v →
  (s * num_e11 g.1.1 g.1.2 g.2 gm.1.1 gm.1.2 gm.2
   - num_deltaE g.1.1 g.1.2 g.2 gm.1.1 gm.1.2 gm.2)%C ≠ Complex.of_Qc 0 →
  (r * (s * num_e11 g.1.1 g.1.2 g.2 gm.1.1 gm.1.2 gm.2
        - num_deltaE g.1.1 g.1.2 g.2 gm.1.1 gm.1.2 gm.2))%C
  = (s * denominator g.1.1 g.1.2 g.2 gm.1.1 gm.1.2 gm.2
     - num_e00 g.1.1 g.1.2 g.2 gm.1.1 gm.1.2 gm.2)%C →
  Complex.div (s - v.1.1) (s * v.1.2 - v.2) = Ok r.
Proof.
  destruct g as [[g1 g2] g3], gm as [[gm1 gm2] gm3], v as [[v00 v11] vdE].
  unfold solves. cbn [fst snd].
  set (D := denominator g1 g2 g3 gm1 gm2 gm3).
  set (N00 := num_e00 g1 g2 g3 gm1 gm2 gm3).
  set (N11 := num_e11 g1 g2 g3 gm1 gm2 gm3).
  set (NdE := num_deltaE g1 g2 g3 gm1 gm2 gm3).
  clearbody D N00 N11 NdE.
  intros ([HD H00]%div_Ok & [_ H11]%div_Ok & [_ HdE]%div_Ok) Hden Hr.
  subst N00 N11 NdE. apply div_Ok. split.
  - intros Hz. apply Hden.
    transitivity ((s * v11 - vdE) * D)%C; [ring|]. rewrite Hz. ring.
  - apply sub_zero.
    assert ((r * (s * v11 - vdE) - (s - v00)) * D = Complex.of_Qc 0)%C as Hprod.
    { transitivity (r * (s * (v11 * D) - vdE * D) - (s * D - v00 * D))%C; [ring|].
      rewrite Hr. ring. }
    by apply complex_integral in Hprod as [Hprod|Hprod].
Qed.

Lemma standards_at_unique (c : Calibration.t) (i : nat)
    (g g' gm gm' : Complex.t * Complex.t * Complex.t) :
  standards_at shortModel openModel loadModel c i g gm →
  standards_at shortModel openModel loadModel c i g' gm' →
  g' = g ∧ gm' = gm.
Proof.
  intros (sh & op & ld & Hsh & Hop & Hld & H1 & H2 & H3 & ->)
         (sh' & op' & ld' & Hsh' & Hop' & Hld' & H1' & H2' & H3' & ->).
  rewrite Hsh in Hsh'. rewrite Hop in Hop'. rewrite Hld in Hld'.
  injection Hsh' as <-. injection Hop' as <-. injection Hld' as <-.
  rewrite H1 in H1'. rewrite H2 in H2'. rewrite H3 in H3'.
  destruct g as [[g1 g2] g3], g' as [[g1' g2'] g3']. cbn in *.
  by simplify_eq.
Qed.

(** [correct11] at a frequency whose index and error terms are known. *)
Lemma correct11_at (c : Calibration.t) (s : Complex.t) (f : Qc) (i : nat)
    (v00 v11 vdE r : Complex.t) :
  nearest (s11short c) f 0 0 (Qc_of_Z (10 ^ 10)) = i →
  e00 c !! i = Some (Some v00) → e11 c !! i = Some (Some v11) →
  deltaE c !! i = Some (Some vdE) →
  Complex.div (s - v00) (s * v11 - vdE) = Ok r →
  correct11 c (Complex.real s) (Complex.imag s) f = Ok (parts r).
Proof.
  intros Hi H00 H11 HdE Hdiv. unfold correct11, term, getitem.
  rewrite Hi, H00, H11, HdE. destruct s as [x y]. cbn [Complex.real Complex.imag].
  cbn [mbind result_mbind result_bind]. rewrite Hdiv. done.
Qed.

(** [correct21] at a frequency whose index and error terms are known. *)
Lemma correct21_at (c : Calibration.t) (s : Complex.t) (f : Qc) (i : nat)
    (v30 v10 : Complex.t) (r : result Complex.t) :
  nearest (s21through c) f 0 0 (Qc_of_Z (10 ^ 10)) = i →
  e30 c !! i = Some (Some v30) → e10e32 c !! i = Some (Some v10) →
  Complex.div (s - v30) v10 = r →
  correct21 c (Complex.real s) (Complex.imag s) f = (s21 ← r; Ok (parts s21)).
Proof.
  intros Hi H30 H10 Hdiv. unfold correct21, term, getitem.
  rewrite Hi, H30, H10. destruct s as [x y]. cbn [Complex.real Complex.imag].
  cbn [mbind result_mbind result_bind]. rewrite Hdiv. done.
Qed.

End Reproduction.

(** X3. One-port calibration reproduces its standards.  After
    [calculateCorrections] has succeeded, take an index of the
    calibration axis, the first with its frequency, at which the three
    modelled coefficients differ from each other and so do the three
    measured ones.  At that frequency [correct11] maps the measured short
    to the modelled short, the measured open to the modelled open and the
    measured load to the modelled load. *)
Theorem calibration_reproduces_standards
    (shortModel openModel loadModel : Qc → result Complex.t)
    (c c' : Calibration.t) (i : nat) (f : Qc)
    (g gm : Complex.t * Complex.t * Complex.t) :
  Calibration.calculateCorrections shortModel openModel loadModel c = Ok (c', Some true) →
  first_at (Calibration.s11short c) f i →
  standards_at shortModel openModel loadModel c i g gm →
  distinct3 g → distinct3 gm →
  Calibration.correct11 c' (Complex.real gm.1.1) (Complex.imag gm.1.1) f
  = Ok (parts g.1.1) ∧
  Calibration.correct11 c' (Complex.real gm.1.2) (Complex.imag gm.1.2) f
  = Ok (parts g.1.2) ∧
  Calibration.correct11 c' (Complex.real gm.2) (Complex.imag gm.2) f
  = Ok (parts g.2).
Proof.
  intros Hcalc Hfirst Hst (Hg12 & Hg13 & Hg23) (Hm12 & Hm13 & Hm23).
  apply calculateCorrections_terms in Hcalc as (Hin & _ & _ & Hterms).
  assert (i < length (Calibration.s11short c))%nat as Hi.
  { destruct Hst as (sh & _ & _ & Hsh & _). by eapply lookup_lt_Some. }
  destruct (Hterms i Hi) as (g' & gm' & v & Hst' & Hsol & H00 & H11 & HdE & _).
  destruct (standards_at_unique _ _ _ _ _ _ _ _ _ Hst Hst') as [-> ->].
  assert (Calibration.nearest (Calibration.s11short c') f 0 0 (Qc_of_Z (10 ^ 10)) = i)
    as Hnear.
  { apply nearest_first_at. unfold inputs in Hin.
    injection Hin as -> _ _ _ _ _ _ _. done. }
  destruct g as [[g1 g2] g3], gm as [[gm1 gm2] gm3]. cbn [fst snd] in *.
  split; [|split]; eapply correct11_at; try done;
    apply (correct_solved (g1, g2, g3) (gm1, gm2, gm3)); try done; cbn [fst snd].
  - rewrite sol_short_den. auto using mul_nonzero, sub_nonzero.
  - symmetry. apply sol_short.
  - rewrite sol_open_den. auto using mul_nonzero, sub_nonzero.
  - symmetry. apply sol_open.
  - rewrite sol_load_den. auto using mul_nonzero, sub_nonzero.
  - symmetry. apply sol_load.
Qed.

(** Closed complex numbers that differ, by evaluation of a coordinate. *)
Ltac complex_apart :=
  let H := fresh in
  intros H;
  first [ apply (f_equal (λ z, this (Complex.real z))) in H; vm_compute in H; discriminate
        | apply (f_equal (λ z, this (Complex.imag z))) in H; vm_compute in H; discriminate ].

Lemma calibration_reproduces_standards_witness :
  ∃ c', Calibration.calculateCorrections no_model no_model no_model measured_standards
        = Ok (c', Some true) ∧
        Calibration.correct11 c' (Qc_of_Z (-2)) (Qc_of_Z 1) (Qc_of_Z 200)
        = Ok (parts Calibration.shortIdeal) ∧
        Calibration.correct11 c' (Qc_of_Z 2) (Qc_of_Z 1) (Qc_of_Z 200)
        = Ok (parts Calibration.openIdeal) ∧
        Calibration.correct11 c' (Qc_of_Z 1) (Qc_of_Z 1) (Qc_of_Z 200)
        = Ok (parts Calibration.loadIdeal).
Proof.
  eexists. split; [vm_compute; reflexivity|].
  apply (calibration_reproduces_standards no_model no_model no_model
           measured_standards _ 1 (Qc_of_Z 200)
           (Calibration.shortIdeal, Calibration.openIdeal, Calibration.loadIdeal)
           (complex_of (cpoint 200 (-2) 1), complex_of (cpoint 200 2 1),
            complex_of (cpoint 200 1 1))).
  - vm_compute; reflexivity.
  - split; [by eexists|]. intros [|j] dp Hj Hdp; [|lia].
    injection Hdp as <-. intros H. apply (f_equal this) in H. vm_compute in H.
    discriminate.
  - exists (cpoint 200 (-2) 1), (cpoint 200 2 1), (cpoint 200 1 1). done.
  - repeat split; complex_apart.
  - repeat split; complex_apart.
Defined.

(** X4. Two-port calibration.  After [calculateCorrections] has
    succeeded on a calibration with through and isolation, at a frequency
    of the through axis (first position [i], with reflection tracking
    term [v11] there) [correct21] divides by
    [k = (through - isolation) * (1 - v11 * v11)].  When [k] is zero, in
    particular when through and isolation were measured equal, every
    correction at that frequency raises [ZeroDivisionError].  Otherwise
    the isolation measurement is corrected to 0, the through measurement
    to the inverse of [1 - v11 * v11], and any sample [s] to the [r] with
    [r * k = s - isolation]. *)
Theorem through_isolation_correction
    (shortModel openModel loadModel : Qc → result Complex.t)
    (c c' : Calibration.t) (i : nat) (f : Qc) (thr iso : Datapoint) (v11 : Complex.t) :
  Calibration.calculateCorrections shortModel openModel loadModel c = Ok (c', Some true) →
  Calibration.isValid2Port c = true →
  first_at (Calibration.s21through c) f i →
  Calibration.s21through c !! i = Some thr →
  Calibration.s21isolation c !! i = Some iso →
  Calibration.e11 c' !! i = Some (Some v11) →
  let k := ((complex_of thr - complex_of iso) * (Complex.of_Qc 1 - v11 * v11))%C in
  (k = Complex.of_Qc 0 →
   ∀ re im, Calibration.correct21 c' re im f = Raise ZeroDivisionError) ∧
  (k ≠ Complex.of_Qc 0 →
   Calibration.correct21 c' (re iso) (im iso) f = Ok (0%Qc, 0%Qc) ∧
   (∃ r, Calibration.correct21 c' (re thr) (im thr) f = Ok (parts r) ∧
         (r * (Complex.of_Qc 1 - v11 * v11))%C = Complex.of_Qc 1) ∧
   ∀ s, ∃ r, Calibration.correct21 c' (Complex.real s) (Complex.imag s) f
             = Ok (parts r) ∧
             (r * k)%C = (s - complex_of iso)%C).
Proof.
  intros Hcalc H2 Hfirst Hthr Hiso H11 k.
  apply calculateCorrections_terms in Hcalc as (Hin & _ & Hlen & Hterms).
  assert (i < length (Calibration.s11short c))%nat as Hi.
  { rewrite <-Hlen. by eapply lookup_lt_Some. }
  destruct (Hterms i Hi) as (g & gm & v & _ & _ & _ & H11' & _ & Htwo).
  destruct (Htwo H2) as (iso' & thr' & Hiso' & Hthr' & H30 & H10).
  assert (v.1.2 = v11) as Hv by congruence.
  assert (iso' = iso) as -> by congruence.
  assert (thr' = thr) as -> by congruence.
  rewrite Hv in H10. fold k in H10.
  assert (Calibration.nearest (Calibration.s21through c') f 0 0 (Qc_of_Z (10 ^ 10)) = i)
    as Hnear.
  { apply nearest_first_at. unfold inputs in Hin.
    injection Hin as _ _ _ -> _ _ _ _. done. }
  assert (∀ s r, Complex.div (s - complex_of iso) k = r →
            Calibration.correct21 c' (Complex.real s) (Complex.imag s) f
            = (s21 ← r; Ok (parts s21))) as Hat
    by (intros s r; by apply (correct21_at c' s f i)).
  split.
  - intros Hk re im. apply (Hat (Complex.mk re im) (Raise ZeroDivisionError)).
    by apply div_Raise.
  - intros Hk.
    assert (∀ s r, (r * k)%C = (s - complex_of iso)%C →
              Calibration.correct21 c' (Complex.real s) (Complex.imag s) f
              = Ok (parts r)) as Hok.
    { intros s r Hr. rewrite (Hat s (Ok r)); [done|]. by apply div_Ok. }
    assert (∀ s, ∃ r, (r * k)%C = (s - complex_of iso)%C) as Hex.
    { intros s. destruct (Complex.div (s - complex_of iso) k) as [r|e] eqn:Hdiv.
      - exists r. by apply div_Ok in Hdiv as [_ ?].
      - apply div_Raise in Hdiv as [? _]. done. }
    split; [|split].
    + apply (Hok (complex_of iso) (Complex.of_Qc 0)). ring.
    + destruct (Hex (complex_of thr)) as [r Hr]. exists r.
      split; [by apply (Hok (complex_of thr))|].
      apply sub_zero.
      assert ((r * (Complex.of_Qc 1 - v11 * v11) - Complex.of_Qc 1) *
              (complex_of thr - complex_of iso) = Complex.of_Qc 0)%C as Hprod.
      { transitivity (r * k - (complex_of thr - complex_of iso))%C;
          [unfold k; ring|]. rewrite Hr. ring. }
      apply complex_integral in Hprod as [Hprod|Hprod]; [done|].
      destruct Hk. unfold k. rewrite Hprod. ring.
    + intros s. destruct (Hex s) as [r Hr]. exists r. split; [by apply Hok|done].
Qed.

Lemma through_isolation_correction_witness :
  ∃ c' v11,
    Calibration.calculateCorrections no_model no_model no_model measured_standards
    = Ok (c', Some true) ∧
    Calibration.e11 c' !! 1%nat = Some (Some v11) ∧
    Calibration.correct21 c' (Qc_of_Z 1) (Qc_of_Z 0) (Qc_of_Z 200) = Ok (0%Qc, 0%Qc).
Proof.
  eexists. eexists. split; [vm_compute; reflexivity|]. split; [vm_compute; reflexivity|].
  refine (proj1 (proj2 (through_isolation_correction no_model no_model no_model
            measured_standards _ 1 (Qc_of_Z 200) (cpoint 200 3 1) (cpoint 200 1 0) _
            _ _ _ _ _ _) _)).
  - vm_compute; reflexivity.
  - reflexivity.
  - split; [by eexists|]. intros [|j] dp Hj Hdp; [|lia].
    injection Hdp as <-. intros H. apply (f_equal this) in H. vm_compute in H.
    discriminate.
  - reflexivity.
  - reflexivity.
  - vm_compute; reflexivity.
  - complex_apart.
Defined.

Section IdealStandards.

Import Calibration.

Variable shortModel openModel loadModel : Qc → result Complex.t.

Lemma complex_eq_dec (a b : Complex.t) : a = b ∨ a ≠ b.
Proof.
  destruct a as [x y], b as [x' y'].
  destruct (Qc_eq_dec x x') as [->|Hx]; [|right; congruence].
  destruct (Qc_eq_dec y y') as [->|Hy]; [by left|right; congruence].
Qed.

Lemma div_total (a b : Complex.t) :
  b ≠ Complex.of_Qc 0 → ∃ r, Complex.div a b = Ok r.
Proof.
  intros Hb. destruct (Complex.div a b) as [r|e] eqn:Hdiv; [by exists r|].
  by apply div_Raise in Hdiv as [? _].
Qed.

Lemma denominator_ideal (gm1 gm2 gm3 : Complex.t) :
  denominator shortIdeal openIdeal loadIdeal gm1 gm2 gm3 = (gm2 - gm1)%C.
Proof.
  unfold denominator, shortIdeal, openIdeal, loadIdeal.
  apply complex_eq; cbn; ring.
Qed.

Lemma num_e00_ideal (gm1 gm2 gm3 : Complex.t) :
  num_e00 shortIdeal openIdeal loadIdeal gm1 gm2 gm3 = (gm3 * (gm2 - gm1))%C.
Proof.
  unfold num_e00, shortIdeal, openIdeal, loadIdeal.
  apply complex_eq; cbn; ring.
Qed.

(** With the ideal models one step of the loop goes through when the
    measured short and open differ, and leaves through the handler of
    the division error when they are equal. *)
Lemma calculateStep_ideal_cases (i : nat) (c : Calibration.t) (sh op ld : Datapoint) :
  useIdealShort c = true → useIdealOpen c = true → useIdealLoad c = true →
  s11short c !! i = Some sh → s11open c !! i = Some op → s11load c !! i = Some ld →
  (isValid2Port c = true →
   (i < length (s21isolation c))%nat ∧ (i < length (s21through c))%nat ∧
   (i < length (e30 c))%nat ∧ (i < length (e11 c))%nat) →
  (complex_of sh ≠ complex_of op →
   ∃ c', calculateStep shortModel openModel loadModel i c = Ok (Next c')) ∧
  (complex_of sh = complex_of op →
   ∃ c', calculateStep shortModel openModel loadModel i c = Ok (Return c' None) ∧
         isCalculated c' = false).
Proof.
  intros Hs Ho Hl Esh Eop Eld H2.
  unfold calculateStep, getitem. rewrite Esh.
  cbn [mbind result_mbind result_bind useIdealShort useIdealOpen useIdealLoad
       set_frequencies s11open s11load].
  rewrite Hs, Ho, Hl, Eop. cbn [mbind result_mbind result_bind]. rewrite Eld.
  cbn [mbind result_mbind result_bind].
  rewrite denominator_ideal.
  remember (Complex.div (num_e00 _ _ _ _ _ _) _) as r00 eqn:E00.
  remember (Complex.div (num_e11 _ _ _ _ _ _) _) as r11 eqn:E11.
  remember (Complex.div (num_deltaE _ _ _ _ _ _) _) as rdE eqn:EdE.
  symmetry in E00, E11, EdE. split.
  - intros Hne.
    assert ((complex_of op - complex_of sh)%C ≠ Complex.of_Qc 0) as HD
      by (apply sub_nonzero; congruence).
    destruct (div_total (num_e00 shortIdeal openIdeal loadIdeal (complex_of sh)
                (complex_of op) (complex_of ld)) _ HD) as [v00 H00].
    destruct (div_total (num_e11 shortIdeal openIdeal loadIdeal (complex_of sh)
                (complex_of op) (complex_of ld)) _ HD) as [v11 H11].
    destruct (div_total (num_deltaE shortIdeal openIdeal loadIdeal (complex_of sh)
                (complex_of op) (complex_of ld)) _ HD) as [vdE HdE].
    rewrite H00 in E00. rewrite H11 in E11. rewrite HdE in EdE. subst r00 r11 rdE.
    clear H00 H11 HdE. cbn.
    change (isValid2Port _) with (isValid2Port c).
    destruct (isValid2Port c) eqn:E2; [|by eexists].
    destruct (H2 eq_refl) as (Hiso & Hthr & H30 & H11).
    destruct (lookup_lt_is_Some_2 _ _ Hiso) as [iso ->].
    destruct (lookup_lt_is_Some_2 _ _ Hthr) as [thr ->]. cbn.
    unfold term, getitem. cbn.
    rewrite (list_lookup_insert_eq (e30 c)) by done. cbn.
    rewrite (list_lookup_insert_eq (e11 c)) by done. cbn. by eexists.
  - intros Heq.
    assert (r00 = Raise ZeroDivisionError) as ->.
    { rewrite <-E00. apply div_Raise. split; [|done]. rewrite Heq. ring. }
    cbn. by eexists.
Qed.

Lemma calculateLoop_ideal_cases (m : nat) : ∀ (k : nat) (c : Calibration.t),
  useIdealShort c = true → useIdealOpen c = true → useIdealLoad c = true →
  (k + m ≤ length (s11short c))%nat →
  (length (s11short c) ≤ length (s11open c))%nat →
  (length (s11short c) ≤ length (s11load c))%nat →
  (isValid2Port c = true →
   (length (s11short c) ≤ length (s21isolation c))%nat ∧
   (length (s11short c) ≤ length (s21through c))%nat ∧
   length (e30 c) = length (s11short c) ∧ length (e11 c) = length (s11short c)) →
  ((∀ i sh op, (k ≤ i < k + m)%nat → s11short c !! i = Some sh →
      s11open c !! i = Some op → complex_of sh ≠ complex_of op) →
   ∃ c', for_each (calculateStep shortModel openModel loadModel) (seq k m) c
         = Ok (Next c')) ∧
  ((∃ i sh op, (k ≤ i < k + m)%nat ∧ s11short c !! i = Some sh ∧
      s11open c !! i = Some op ∧ complex_of sh = complex_of op) →
   ∃ c', for_each (calculateStep shortModel openModel loadModel) (seq k m) c
         = Ok (Return c' None) ∧ isCalculated c' = false).
Proof.
  induction m as [|m IH]; intros k c Hs Ho Hl Hk Hlo Hll H2; cbn [seq for_each].
  { split; [by eexists|]. intros (i & _ & _ & Hi & _). lia. }
  destruct (lookup_lt_is_Some_2 (s11short c) k ltac:(lia)) as [sh Esh].
  destruct (lookup_lt_is_Some_2 (s11open c) k ltac:(lia)) as [op Eop].
  destruct (lookup_lt_is_Some_2 (s11load c) k ltac:(lia)) as [ld Eld].
  destruct (calculateStep_ideal_cases k c sh op ld) as [Hnext Hret]; try done.
  { intros E2. destruct (H2 E2) as (? & ? & ? & ?). lia. }
  destruct (complex_eq_dec (complex_of sh) (complex_of op)) as [Heq|Hne].
  { destruct (Hret Heq) as (c1 & -> & Hcalc). cbn [mbind result_mbind result_bind].
    split; [|by eexists].
    intros Hall. destruct (Hall k sh op); try done. lia. }
  destruct (Hnext Hne) as [c1 Estep]. rewrite Estep.
  cbn [mbind result_mbind result_bind].
  apply calculateStep_Next in Estep
    as (g & gm & v & _ & _ & Hin & _ & _ & E11 & _ & Etwo).
  pose proof (isValid2Port_inputs _ _ Hin) as E2.
  unfold inputs in Hin. injection Hin as Es Eo El Et Ei Eus Euo Eul.
  destruct (IH (S k) c1) as [IHnext IHret];
    rewrite ?Es, ?Eo, ?El, ?Et, ?Ei, ?Eus, ?Euo, ?Eul; try done; try lia.
  { rewrite E2. intros E2'. destruct (H2 E2') as (? & ? & L30 & L11).
    rewrite E2' in Etwo. destruct Etwo as (? & ? & _ & _ & _ & _ & -> & _).
    rewrite E11, !length_insert. done. }
  rewrite Es, Eo in IHnext, IHret. split.
  - intros Hall. apply IHnext. intros i sh' op' Hi. apply Hall. lia.
  - intros (i & sh' & op' & Hi & Hsh' & Hop' & Heq). apply IHret.
    exists i, sh', op'. split; [|done].
    destruct (decide (i = k)) as [->|]; [|lia]. congruence.
Qed.

End IdealStandards.

(** X5. The outcome of [calculateCorrections] with the ideal models,
    when open and load cover the axis of short (and through and
    isolation too, when both are present).  If the measured short and
    open differ at every index, the calculation succeeds and the
    directivity term [e00] at each index is the load measurement there.
    If they are equal at some index, the calculation stops in the handler
    of the division error: it returns [None] and leaves [isCalculated]
    false. *)
Theorem ideal_calibration_outcome
    (shortModel openModel loadModel : Qc → result Complex.t) (c : Calibration.t) :
  Calibration.useIdealShort c = true →
  Calibration.useIdealOpen c = true →
  Calibration.useIdealLoad c = true →
  (0 < length (Calibration.s11short c) ≤ length (Calibration.s11open c))%nat →
  (length (Calibration.s11short c) ≤ length (Calibration.s11load c))%nat →
  (Calibration.isValid2Port c = true →
   (length (Calibration.s11short c) ≤ length (Calibration.s21isolation c))%nat ∧
   (length (Calibration.s11short c) ≤ length (Calibration.s21through c))%nat) →
  ((∀ i sh op, Calibration.s11short c !! i = Some sh →
      Calibration.s11open c !! i = Some op → complex_of sh ≠ complex_of op) →
   ∃ c', Calibration.calculateCorrections shortModel openModel loadModel c
         = Ok (c', Some true) ∧
         ∀ i ld, (i < length (Calibration.s11short c))%nat →
           Calibration.s11load c !! i = Some ld →
           Calibration.e00 c' !! i = Some (Some (complex_of ld))) ∧
  ((∃ i sh op, Calibration.s11short c !! i = Some sh ∧
      Calibration.s11open c !! i = Some op ∧ complex_of sh = complex_of op) →
   ∃ c', Calibration.calculateCorrections shortModel openModel loadModel c
         = Ok (c', None) ∧
         Calibration.isCalculated c' = false).
Proof.
  intros Hs Ho Hl Hn Hll H2.
  assert (Calibration.isValid1Port c = true) as Hvalid.
  { unfold Calibration.isValid1Port. rewrite !bool_decide_eq_true_2 by lia. done. }
  pose (c0 := Calibration.set_e10e32 (Calibration.set_e30 (Calibration.set_deltaE
                (Calibration.set_e11 (Calibration.set_e00 (Calibration.set_frequencies c
                  (replicate (length (Calibration.s11short c)) None))
                  (replicate (length (Calibration.s11short c)) None))
                  (replicate (length (Calibration.s11short c)) None))
                  (replicate (length (Calibration.s11short c)) None))
                  (replicate (length (Calibration.s11short c)) None))
                  (replicate (length (Calibration.s11short c)) None)).
  destruct (calculateLoop_ideal_cases shortModel openModel loadModel
              (length (Calibration.s11short c)) 0 c0) as [Hnext Hret];
    try done; try (cbn; lia).
  { intros E2. cbn. rewrite !length_replicate. destruct (H2 E2). done. }
  split.
  - intros Hall. destruct Hnext as [c1 Hloop]; [intros i sh op _; apply Hall|].
    pose (c' := Calibration.set_isCalculated c1 true).
    assert (Calibration.calculateCorrections shortModel openModel loadModel c
            = Ok (c', Some true)) as Hcalc.
    { unfold Calibration.calculateCorrections. rewrite Hvalid. cbn [negb].
      fold c0. rewrite Hloop. done. }
    exists c'. split; [done|]. intros i ld Hi Hld.
    apply calculateCorrections_terms in Hcalc as (_ & _ & _ & Hterms).
    destruct (Hterms i Hi)
      as ([[g1 g2] g3] & gm & [[v00 v11] vdE] &
          (sh & op & ld' & Hsh & Hop & Hld' & H1 & H2' & H3 & ->) &
          (H00 & _) & -> & _).
    cbn [fst snd] in *.
    rewrite Hs in H1. rewrite Ho in H2'. rewrite Hl in H3.
    injection H1 as <-. injection H2' as <-. injection H3 as <-.
    assert (ld' = ld) as -> by congruence.
    rewrite denominator_ideal, num_e00_ideal in H00.
    apply div_Ok in H00 as [HD H00]. do 2 f_equal. apply sub_zero.
    assert ((v00 - complex_of ld) * (complex_of op - complex_of sh)
            = Complex.of_Qc 0)%C as Hprod.
    { transitivity (v00 * (complex_of op - complex_of sh)
                    - complex_of ld * (complex_of op - complex_of sh))%C; [ring|].
      rewrite H00. ring. }
    by apply complex_integral in Hprod as [Hprod|Hprod].
  - intros (i & sh & op & Hsh & Hop & Heq).
    destruct Hret as (c1 & Hloop & Hcalc).
    { exists i, sh, op. split; [|done]. apply lookup_lt_Some in Hsh. lia. }
    exists c1. split; [|done].
    unfold Calibration.calculateCorrections. rewrite Hvalid. cbn [negb].
    fold c0. rewrite Hloop. done.
Qed.

Lemma ideal_calibration_outcome_witness :
  (∃ c', Calibration.calculateCorrections no_model no_model no_model measured_standards
         = Ok (c', Some true) ∧
         ∀ i ld, (i < 2)%nat →
           Calibration.s11load measured_standards !! i = Some ld →
           Calibration.e00 c' !! i = Some (Some (complex_of ld))) ∧
  (∃ c', Calibration.calculateCorrections no_model no_model no_model degenerate_standards
         = Ok (c', None) ∧
         Calibration.isCalculated c' = false).
Proof.
  split.
  - apply (ideal_calibration_outcome no_model no_model no_model measured_standards);
      try reflexivity; try (cbn; lia).
    intros [|[|i]] sh op Hsh Hop; try discriminate;
      injection Hsh as <-; injection Hop as <-; complex_apart.
  - apply (ideal_calibration_outcome no_model no_model no_model degenerate_standards);
      try reflexivity; try (cbn; lia); [discriminate|].
    exists 1%nat, (cpoint 200 (-2) 1), (cpoint 200 (-2) 1). done.
Defined.

(** ** Further properties of the sweep worker *)

Section ReadBounds.

Import SweepWorker.

Lemma after_reads_fields (w : t) (data : string) (k : nat) :
  vna (after_reads w data k) = vna w ∧ reads (after_reads w data k) = (reads w + k)%nat.
Proof. by destruct w. Qed.

(** Every pass through the loop reads once; the loop ends after at most
    [10 - count] passes, and gives up only on the last of them. *)
Lemma readData_loop_bounded (data : string) (fuel : nat) :
  ∀ (count : Z) (w : t),
  0 ≤ count ≤ 9 → 10 - count ≤ Z.of_nat fuel →
  ∃ k, (1 ≤ k)%nat ∧ Z.of_nat k ≤ 10 - count ∧
       (readData_loop fuel data count w).2 = after_reads w data k ∧
       ∀ msg, (readData_loop fuel data count w).1 = Raise (IOError msg) →
              Z.of_nat k = 10 - count ∧ msg = giving_up data 10.
Proof.
  induction fuel as [|fuel IH]; intros count w Hcount Hfuel; [lia|].
  rewrite readData_loop_unfold. cbn zeta.
  destruct (scan_values _ _ _ _) as [[[] returndata]|e] eqn:Hscan; cbn [fst snd].
  - exists 1%nat. split; [lia|]. split; [lia|]. split; [done|]. intros msg [=].
  - case_bool_decide as Hten; cbn [fst snd].
    + exists 1%nat. split; [lia|]. split; [lia|]. split; [done|].
      intros msg [= <-]. split; [lia|]. by replace (count + 1) with 10 by lia.
    + destruct (IH (count + 1) (after_reads w data 1)) as (k & Hk1 & Hk & Hw & Herr);
        [lia|lia|].
      exists (S k). split; [lia|]. split; [lia|].
      split; [by rewrite Hw, after_reads_S|].
      intros msg Hmsg. destruct (Herr msg Hmsg). split; [lia|done].
  - exists 1%nat. split; [lia|]. split; [lia|]. split; [done|].
    intros msg [= ->]. apply scan_values_raises in Hscan as [? [=]].
Qed.

Lemma scan_numeric (reply : list string) (vals : list Averaging.sample) :
  Forall2 numeric_line reply vals →
  ∀ done acc, scan_values false reply done acc = Ok (done, acc ++ vals).
Proof.
  induction 1 as [|d v reply vals (a & b & Hsplit & Ha & Hb) _ IH];
    intros done acc; cbn.
  - by rewrite app_nil_r.
  - rewrite Hsplit, Ha. cbn. rewrite Hb. cbn.
    rewrite IH, <-app_assoc. by destruct v.
Qed.

End ReadBounds.

(** X6. [readData] exchanges with the device at least once and at most
    ten times, whatever the device replies, and changes nothing of the
    worker but the count and the record of these exchanges.  It raises
    [IOError] only after exactly ten exchanges, with the message about
    disabling validation. *)
Theorem readData_bounded (data : string) (w : SweepWorker.t) :
  ∃ k, (1 ≤ k ≤ 10)%nat ∧
       (SweepWorker.readData data w).2 = after_reads w data k ∧
       ∀ msg, (SweepWorker.readData data w).1 = Raise (IOError msg) →
              k = 10%nat ∧ msg = SweepWorker.giving_up data 10.
Proof.
  destruct (readData_loop_bounded data 10 0 w) as (k & Hk1 & Hk & Hw & Herr);
    [lia|lia|].
  exists k. split; [lia|]. split; [done|].
  intros msg Hmsg. destruct (Herr msg Hmsg). split; [lia|done].
Qed.

(** X7. With validation switched off the plausibility bound is not
    applied: a reply whose lines are pairs of readable numbers, of any
    magnitude, is returned as it is after a single exchange. *)
Theorem readData_unvalidated (data : string) (w : SweepWorker.t)
    (vals : list Averaging.sample) :
  VNA.validateInput (SweepWorker.vna w) = false →
  Forall2 numeric_line
    (VNA.readValues (SweepWorker.vna w) (SweepWorker.reads w) data) vals →
  SweepWorker.readData data w = (Ok vals, after_reads w data 1).
Proof.
  intros Hval Hreply. unfold SweepWorker.readData.
  rewrite readData_loop_unfold. cbn zeta.
  by rewrite Hval, (scan_numeric _ _ Hreply).
Qed.

Lemma readData_unvalidated_witness :
  SweepWorker.readData "data 0" (SweepWorker.init sample_app unchecked_vna)
  = (Ok [(number "0.5", number "0.1"); (number "12.0", number "-40")],
     after_reads (SweepWorker.init sample_app unchecked_vna) "data 0" 1).
Proof.
  apply (readData_unvalidated "data 0" (SweepWorker.init sample_app unchecked_vna));
    [reflexivity|].
  repeat constructor.
  - exists "0.5", "0.1". repeat split; vm_compute; reflexivity.
  - exists "12.0", "-40". repeat split; vm_compute; reflexivity.
Defined.

Section Segments.

Import SweepWorker.

Lemma readData_effect (data : string) (w : t) :
  ∃ k, (1 ≤ k ≤ 10)%nat ∧ (readData data w).2 = after_reads w data k.
Proof.
  destruct (readData_loop_bounded data 10 0 w) as (k & Hk1 & Hk & Hw & _);
    [lia|lia|].
  exists k. split; [lia|done].
Qed.

End Segments.

(** X8. [readSegment], when it returns, returns three lists of one
    length: the frequencies and the two value lists as read, or three
    empty lists when their lengths differ.  It has then sent the sweep
    command, read the frequencies once, and read each of the two data
    channels between one and ten times, in this order. *)
Theorem readSegment_aligned (start stop : Z) (w w' : SweepWorker.t)
    (r : list Qc * list Averaging.sample * list Averaging.sample) :
  SweepWorker.readSegment start stop w = (Ok r, w') →
  length r.1.1 = length r.1.2 ∧ length r.1.1 = length r.2 ∧
  (r = ([], [], []) ∨
   r.1.1 = VNA.readFrequencies (SweepWorker.vna w) (SweepWorker.reads w)) ∧
  ∃ k11 k21, (1 ≤ k11 ≤ 10)%nat ∧ (1 ≤ k21 ≤ 10)%nat ∧
    SweepWorker.trace w' = SweepWorker.trace w ++ segment_exchanges start stop k11 k21 ∧
    SweepWorker.reads w' = (SweepWorker.reads w + 1 + k11 + k21)%nat.
Proof.
  unfold SweepWorker.readSegment.
  repeat (unfold mbind, mret, SweepWorker.M_mbind, SweepWorker.M_mret,
            SweepWorker.bind, SweepWorker.ret, SweepWorker.get, SweepWorker.modify,
            SweepWorker.emit, SweepWorker.vna_readFrequencies,
            SweepWorker.vna_setSweep, SweepWorker.set_reads, SweepWorker.set_trace;
          cbn -[SweepWorker.readData]).
  match goal with |- context [SweepWorker.readData "data 0" ?w1] =>
    destruct (readData_effect "data 0" w1) as (k11 & Hk11 & Hw2);
    destruct (SweepWorker.readData "data 0" w1) as [[values11|e] w2]; [|discriminate]
  end.
  match goal with |- context [SweepWorker.readData "data 1" ?w2] =>
    destruct (readData_effect "data 1" w2) as (k21 & Hk21 & Hw3);
    destruct (SweepWorker.readData "data 1" w2) as [[values21|e] w3]; [|discriminate]
  end.
  cbn [snd] in Hw2, Hw3. subst w2 w3.
  match goal with |- context [after_reads (after_reads ?w1 _ _) _ _] =>
    set (W := after_reads (after_reads w1 "data 0" k11) "data 1" k21)
  end.
  assert (SweepWorker.trace W
          = SweepWorker.trace w ++ segment_exchanges start stop k11 k21 ∧
          SweepWorker.reads W = (SweepWorker.reads w + 1 + k11 + k21)%nat)
    as [Htrace Hreads].
  { subst W. destruct w. unfold segment_exchanges. cbn.
    split; [by rewrite <-!app_assoc|lia]. }
  clearbody W. cbn [SweepWorker.vna SweepWorker.reads].
  destruct (decide (length (VNA.readFrequencies (SweepWorker.vna w) (SweepWorker.reads w))
                    = length values11)) as [H1|H1];
  destruct (decide (length (VNA.readFrequencies (SweepWorker.vna w) (SweepWorker.reads w))
                    = length values21)) as [H2|H2].
  1: rewrite !bool_decide_eq_false_2 by (by intros ?).
  2: rewrite (bool_decide_eq_false_2 (_ ≠ length values11)) by (by intros ?);
     rewrite bool_decide_eq_true_2 by done.
  3,4: rewrite (bool_decide_eq_true_2 (_ ≠ length values11)) by done.
  all: cbn [orb]; intros [= <- <-]; cbn [fst snd length];
    do 2 (split; [done|]); (split; [auto|]); exists k11, k21; done.
Qed.

Lemma readSegment_aligned_witness :
  let w := SweepWorker.init sample_app steady_vna in
  ∃ r w',
    SweepWorker.readSegment 1000000 2000000 w = (Ok r, w') ∧
    length r.1.1 = length r.1.2 ∧ length r.1.1 = length r.2 ∧
    (r = ([], [], []) ∨
     r.1.1 = VNA.readFrequencies (SweepWorker.vna w) (SweepWorker.reads w)) ∧
    ∃ k11 k21, (1 ≤ k11 ≤ 10)%nat ∧ (1 ≤ k21 ≤ 10)%nat ∧
      SweepWorker.trace w'
      = SweepWorker.trace w ++ segment_exchanges 1000000 2000000 k11 k21 ∧
      SweepWorker.reads w' = (SweepWorker.reads w + 1 + k11 + k21)%nat.
Proof.
  intros w. eexists. eexists. split; [vm_compute; reflexivity|].
  apply (readSegment_aligned 1000000 2000000 w). vm_compute; reflexivity.
Defined.

(** Projections of a worker built by the setters. *)
Ltac worker_fields :=
  cbn [fst snd
       SweepWorker.vna SweepWorker.app SweepWorker.sweep SweepWorker.percentage
       SweepWorker.data11 SweepWorker.data21 SweepWorker.rawData11
       SweepWorker.rawData21 SweepWorker.stopped SweepWorker.running
       SweepWorker.continuousSweep SweepWorker.averaging SweepWorker.averages
       SweepWorker.truncates SweepWorker.error_message SweepWorker.offsetDelay
       SweepWorker.reads SweepWorker.trace
       SweepWorker.set_vna SweepWorker.set_sweep SweepWorker.set_percentage
       SweepWorker.set_data11 SweepWorker.set_data21 SweepWorker.set_rawData11
       SweepWorker.set_rawData21 SweepWorker.set_stopped SweepWorker.set_running
       SweepWorker.set_continuousSweep SweepWorker.set_averaging
       SweepWorker.set_averages SweepWorker.set_truncates
       SweepWorker.set_error_message SweepWorker.set_reads SweepWorker.set_trace].

Section RunOutcomes.

Import SweepWorker.

Variable parse_frequency : string → Z.
Variable correct_delay : Datapoint → Qc → bool → Datapoint.

Lemma int_raises (s : string) (e : exn) :
  Py.int s = Raise e → ∃ msg, e = ValueError msg.
Proof.
  unfold Py.int. repeat case_match; intros [=]; subst; eauto.
Qed.

(** [run] up to the construction of the sweep plan. *)
Lemma run_plan (fuel : nat) (w : t) :
  VNA.connected (vna w) = true →
  run parse_frequency correct_delay fuel w =
  let w0 := set_percentage (set_running w true) 0%Qc in
  match
    count ← Py.int (App.sweepCountInput (app w));
    Sweep.init (parse_frequency (App.sweepStartInput (app w)))
               (parse_frequency (App.sweepEndInput (app w)))
               (VNA.datapoints (vna w)) count
  with
  | Raise (ValueError _) => (Ok (), refused w)
  | Raise e => (Raise e, w0)
  | Ok sw =>
      (_ ← sweeping correct_delay fuel
             (negb (Sweep.eqb sw (sweep w))) ([], [], []);
       w ← get;
       _ ← (if bool_decide (1 < Sweep.sweeps (sweep w)) then
              vna_resetSweep (parse_frequency (App.sweepStartInput (app w)))
                             (parse_frequency (App.sweepEndInput (app w)))
            else ret ());
       _ ← modify (λ w, set_percentage w (Qc_of_Z 100));
       _ ← emit SigFinished;
       modify (λ w, set_running w false)) (set_sweep w0 sw)
  end.
Proof.
  intros Hup. unfold run, refused.
  repeat (unfold mbind, mret, M_mbind, M_mret, bind, ret, raise, lift, get, modify,
            emit, except_ValueError, vna_resetSweep, result_mbind, result_bind;
          cbn -[sweeping Sweep.init Py.int]).
  rewrite Hup. cbn -[sweeping Sweep.init Py.int].
  destruct (Py.int _) as [count|e] eqn:Hcount.
  - destruct (Sweep.init _ _ _ _) as [sw|e] eqn:Hinit.
    + destruct w. reflexivity.
    + destruct e; destruct w; reflexivity.
  - apply int_raises in Hcount as [msg ->]. destruct w. reflexivity.
Qed.

Lemma segments_stopped (first_sweep : bool) (i : nat) (items : list nat)
    (b : buffers) (w : t) :
  stopped w = true →
  segments correct_delay first_sweep (i :: items) b w = (Ok (Return b ()), w).
Proof.
  intros Hstop. cbn [segments]. unfold segment.
  unfold mbind at 1 2, M_mbind, bind, get. rewrite Hstop. done.
Qed.

(** A stopped worker leaves the loop at the first segment, without
    addressing the device. *)
Lemma sweeping_stopped (fuel : nat) (first_sweep : bool) (b : buffers) (w : t) :
  stopped w = true → 0 < Sweep.sweeps (sweep w) →
  sweeping correct_delay (S fuel) first_sweep b w = (Ok (), w).
Proof.
  intros Hstop Hn. cbn [sweeping].
  unfold mbind at 1 2, M_mbind, bind, get.
  destruct (Z.to_nat (Sweep.sweeps (sweep w))) as [|k] eqn:Hk; [lia|].
  cbn [seq]. rewrite segments_stopped by done.
  unfold mbind, M_mbind, bind, get. done.
Qed.

Lemma readData_clean (data : string) (w : t) (vals : list Averaging.sample) :
  VNA.validateInput (vna w) = true →
  valid_reply (VNA.readValues (vna w) (reads w) data) vals →
  readData data w = (Ok vals, after_reads w data 1).
Proof.
  intros Hval Hreply. apply (readData_loop_retry data vals 0); try done; try lia.
  by rewrite Nat.add_0_r.
Qed.

Lemma readSegment_clean (start stop : Z) (w : t) (fs : list Qc)
    (vals11 vals21 : list Averaging.sample) :
  VNA.validateInput (vna w) = true →
  VNA.readFrequencies (vna w) (reads w) = fs →
  valid_reply (VNA.readValues (vna w) (reads w + 1) "data 0") vals11 →
  valid_reply (VNA.readValues (vna w) (reads w + 2) "data 1") vals21 →
  length vals11 = length fs → length vals21 = length fs →
  readSegment start stop w = (Ok (fs, vals11, vals21), after_segment w start stop 1 1).
Proof.
  destruct w as [v a sw pc d11 d21 r11 r21 st rn cs av avs tr em od rd trc].
  cbn [vna reads]. intros Hval Hfs H11 H21 L11 L21. unfold readSegment.
  repeat (unfold mbind, mret, M_mbind, M_mret, bind, ret, get, modify, emit,
            vna_readFrequencies, vna_setSweep;
          cbn -[readData]).
  rewrite (readData_clean "data 0" _ vals11);
    [|done|cbn; by rewrite Nat.add_1_r in H11].
  rewrite (readData_clean "data 1" _ vals21);
    [|done|cbn; by replace (S (rd + 1))%nat with (rd + 2)%nat by lia].
  rewrite Hfs, L11, L21.
  rewrite !bool_decide_eq_false_2 by (by intros ?).
  unfold after_segment, after_reads, segment_exchanges. cbn.
  rewrite <-!app_assoc. do 3 f_equal. lia.
Qed.

Lemma pair_up_zip (fs : list Qc) : ∀ (vals11 vals21 : list Averaging.sample),
  length vals11 = length fs → length vals21 = length fs →
  pair_up fs vals11 vals21 = Ok (datapoints_of fs vals11, datapoints_of fs vals21).
Proof.
  induction fs as [|f fs IH]; intros [|[r11 i11] vals11] [|[r21 i21] vals21];
    cbn; try done.
  intros [= L11] [= L21]. by rewrite IH.
Qed.

Lemma applyCalibration_uncalculated (w : t) (raw11 raw21 : list Datapoint) :
  offsetDelay w = 0%Qc → Calibration.isCalculated (App.calibration (app w)) = false →
  applyCalibration correct_delay w raw11 raw21 = Ok (raw11, raw21).
Proof.
  intros Hdelay Hcalc. unfold applyCalibration. rewrite Hdelay, Hcalc.
  by case_decide.
Qed.

Lemma saveData_uncalculated (w : t) (fs : list Qc)
    (vals11 vals21 : list Averaging.sample) :
  offsetDelay w = 0%Qc → Calibration.isCalculated (App.calibration (app w)) = false →
  length vals11 = length fs → length vals21 = length fs →
  saveData correct_delay fs vals11 vals21 w
  = (Ok (), published w (datapoints_of fs vals11) (datapoints_of fs vals21)).
Proof.
  intros Hdelay Hcalc L11 L21. unfold saveData.
  unfold mbind at 1, M_mbind, bind, lift. rewrite pair_up_zip by done.
  repeat (unfold mbind, mret, M_mbind, M_mret, bind, ret, get, modify, emit, lift;
          cbn -[applyCalibration]).
  rewrite applyCalibration_uncalculated by (by destruct w).
  destruct w. unfold published. cbn. by rewrite <-app_assoc.
Qed.

(** The first segment of a first sweep on a device that answers
    cleanly, with no averaging and no calibration in force. *)
Lemma segment_clean (w : t) (fs : list Qc) (vals11 vals21 : list Averaging.sample) :
  stopped w = false → averaging w = false →
  offsetDelay w = 0%Qc → Calibration.isCalculated (App.calibration (app w)) = false →
  Sweep.sweeps (sweep w) = 1 →
  VNA.validateInput (vna w) = true →
  VNA.readFrequencies (vna w) (reads w) = fs →
  valid_reply (VNA.readValues (vna w) (reads w + 1) "data 0") vals11 →
  valid_reply (VNA.readValues (vna w) (reads w + 2) "data 1") vals21 →
  length vals11 = length fs → length vals21 = length fs →
  segment correct_delay true 0 ([], [], []) w
  = (Ok (Next (fs, vals11, vals21)),
     published
       (set_percentage
          (after_segment w (Sweep.get_index_range (sweep w) 0).1
                           (Sweep.get_index_range (sweep w) 0).2 1 1)
          (Qc_of_Z 100 / Qc_of_Z 1)%Qc)
       (datapoints_of fs vals11) (datapoints_of fs vals21)).
Proof.
  intros Hstop Havg Hdelay Hcalc Hone Hval Hfs H11 H21 L11 L21. unfold segment.
  unfold mbind at 1, M_mbind, bind, get. rewrite Hstop, Havg.
  change (Z.of_nat 0) with 0.
  destruct (Sweep.get_index_range (sweep w) 0) as [start stop] eqn:Hrange.
  cbn [fst snd].
  unfold except_ValueError, mbind, M_mbind, bind, ret, mret, M_mret, ret, lift,
    modify. cbv beta.
  rewrite (readSegment_clean start stop w fs vals11 vals21) by done.
  unfold truediv. rewrite Hone. cbn [fst snd Z.add Z.mul negb].
  case_decide; [done|]. unfold extend. cbn [app].
  rewrite saveData_uncalculated; try done; by destruct w.
Qed.

Lemma sweeping_clean (fuel : nat) (w : t) (fs : list Qc)
    (vals11 vals21 : list Averaging.sample) :
  stopped w = false → averaging w = false → continuousSweep w = false →
  offsetDelay w = 0%Qc → Calibration.isCalculated (App.calibration (app w)) = false →
  Sweep.sweeps (sweep w) = 1 →
  VNA.validateInput (vna w) = true →
  VNA.readFrequencies (vna w) (reads w) = fs →
  valid_reply (VNA.readValues (vna w) (reads w + 1) "data 0") vals11 →
  valid_reply (VNA.readValues (vna w) (reads w + 2) "data 1") vals21 →
  length vals11 = length fs → length vals21 = length fs →
  sweeping correct_delay (S fuel) true ([], [], []) w
  = (Ok (),
     published
       (set_percentage
          (after_segment w (Sweep.get_index_range (sweep w) 0).1
                           (Sweep.get_index_range (sweep w) 0).2 1 1)
          (Qc_of_Z 100 / Qc_of_Z 1)%Qc)
       (datapoints_of fs vals11) (datapoints_of fs vals21)).
Proof.
  intros Hstop Havg Hcont Hdelay Hcalc Hone Hval Hfs H11 H21 L11 L21.
  cbn [sweeping]. unfold mbind at 1 2, M_mbind, bind, get. rewrite Hone.
  change (seq 0 (Z.to_nat 1)) with [0%nat]. cbn [segments].
  unfold mbind at 1, M_mbind, bind.
  rewrite (segment_clean w fs vals11 vals21) by done.
  unfold ret, mret, M_mret, ret, mbind, M_mbind, bind, get.
  destruct w. cbn in Hcont. subst. reflexivity.
Qed.

(** A segment of a sweep that is not the first one over its plan: the
    values read are handed to nobody. *)
Lemma segment_repeated (w : t) (fs : list Qc) (vals11 vals21 : list Averaging.sample) :
  stopped w = false → averaging w = false →
  Sweep.sweeps (sweep w) = 1 →
  VNA.validateInput (vna w) = true →
  VNA.readFrequencies (vna w) (reads w) = fs →
  valid_reply (VNA.readValues (vna w) (reads w + 1) "data 0") vals11 →
  valid_reply (VNA.readValues (vna w) (reads w + 2) "data 1") vals21 →
  length vals11 = length fs → length vals21 = length fs →
  segment correct_delay false 0 ([], [], []) w
  = (Ok (Next ([], [], [])),
     let w1 := set_percentage
                 (after_segment w (Sweep.get_index_range (sweep w) 0).1
                                  (Sweep.get_index_range (sweep w) 0).2 1 1)
                 (Qc_of_Z 100 / Qc_of_Z 1)%Qc in
     set_trace w1 (trace w1 ++ [AppSaveData (data11 w) (data21 w); SigUpdated])).
Proof.
  intros Hstop Havg Hone Hval Hfs H11 H21 L11 L21. unfold segment.
  unfold mbind at 1, M_mbind, bind, get. rewrite Hstop, Havg.
  change (Z.of_nat 0) with 0.
  destruct (Sweep.get_index_range (sweep w) 0) as [start stop] eqn:Hrange.
  cbn [fst snd].
  unfold except_ValueError, mbind, M_mbind, bind, ret, mret, M_mret, ret, lift,
    modify. cbv beta.
  rewrite (readSegment_clean start stop w fs vals11 vals21) by done.
  unfold truediv. rewrite Hone. cbn [fst snd Z.add Z.mul negb].
  case_decide; [done|].
  unfold updateData, update_from, emit, modify, get, ret, mbind, M_mbind, bind.
  destruct w. unfold after_segment. cbn. worker_fields. by rewrite <-!app_assoc.
Qed.

Lemma sweeping_repeated (fuel : nat) (w : t) (fs : list Qc)
    (vals11 vals21 : list Averaging.sample) :
  stopped w = false → averaging w = false → continuousSweep w = false →
  Sweep.sweeps (sweep w) = 1 →
  VNA.validateInput (vna w) = true →
  VNA.readFrequencies (vna w) (reads w) = fs →
  valid_reply (VNA.readValues (vna w) (reads w + 1) "data 0") vals11 →
  valid_reply (VNA.readValues (vna w) (reads w + 2) "data 1") vals21 →
  length vals11 = length fs → length vals21 = length fs →
  sweeping correct_delay (S fuel) false ([], [], []) w
  = (Ok (),
     let w1 := set_percentage
                 (after_segment w (Sweep.get_index_range (sweep w) 0).1
                                  (Sweep.get_index_range (sweep w) 0).2 1 1)
                 (Qc_of_Z 100 / Qc_of_Z 1)%Qc in
     set_trace w1 (trace w1 ++ [AppSaveData (data11 w) (data21 w); SigUpdated])).
Proof.
  intros Hstop Havg Hcont Hone Hval Hfs H11 H21 L11 L21.
  cbn [sweeping]. unfold mbind at 1 2, M_mbind, bind, get. rewrite Hone.
  change (seq 0 (Z.to_nat 1)) with [0%nat]. cbn [segments].
  unfold mbind at 1, M_mbind, bind.
  rewrite (segment_repeated w fs vals11 vals21) by done.
  unfold ret, mret, M_mret, ret, mbind, M_mbind, bind, get.
  destruct w. cbn in Hcont. subst. reflexivity.
Qed.

End RunOutcomes.

(** X9. [run] on a connected session refuses a sweep count that is not
    an integer, and sweep settings that [Sweep.__init__] rejects with
    [ValueError]: it returns normally with the worker stopped and not
    running, its message set, and [sweepError] emitted; the device is
    not addressed. *)
Theorem run_refuses_illegal_plan (parse_frequency : string → Z)
    (correct_delay : Datapoint → Qc → bool → Datapoint)
    (fuel : nat) (w : SweepWorker.t) :
  VNA.connected (SweepWorker.vna w) = true →
  is_Raise (Py.int (App.sweepCountInput (SweepWorker.app w))) ∨
  (∃ n, Py.int (App.sweepCountInput (SweepWorker.app w)) = Ok n ∧
        VNA.datapoints (SweepWorker.vna w) * n ≠ 1 ∧
        ¬ legal_plan (parse_frequency (App.sweepStartInput (SweepWorker.app w)))
                     (parse_frequency (App.sweepEndInput (SweepWorker.app w)))
                     (VNA.datapoints (SweepWorker.vna w)) n) →
  SweepWorker.run parse_frequency correct_delay fuel w = (Ok (), refused w) ∧
  SweepWorker.reads (refused w) = SweepWorker.reads w ∧
  SweepWorker.trace (refused w) = SweepWorker.trace w ++ [SigSweepError] ∧
  SweepWorker.error_message (refused w) = SweepWorker.parse_error ∧
  SweepWorker.stopped (refused w) = true ∧ SweepWorker.running (refused w) = false.
Proof.
  intros Hup Hbad. split; [|by destruct w].
  rewrite run_plan by done. cbn zeta.
  destruct Hbad as [[e Hcount]|(n & Hcount & Hone & Hillegal)]; rewrite Hcount.
  - apply int_raises in Hcount as [msg ->]. done.
  - cbn [mbind result_mbind result_bind]. by rewrite init_illegal.
Qed.

Lemma run_refuses_illegal_plan_witness :
  let w := SweepWorker.init (App.mk "2000000" "1000000" "1" Calibration.fresh) steady_vna in
  SweepWorker.run parse_hz no_delay 1 w = (Ok (), refused w) ∧
  SweepWorker.reads (refused w) = SweepWorker.reads w ∧
  SweepWorker.trace (refused w) = SweepWorker.trace w ++ [SigSweepError] ∧
  SweepWorker.error_message (refused w) = SweepWorker.parse_error ∧
  SweepWorker.stopped (refused w) = true ∧ SweepWorker.running (refused w) = false.
Proof.
  intros w. apply (run_refuses_illegal_plan parse_hz no_delay 1 w); [reflexivity|].
  right. exists 1. split; [reflexivity|]. split; [cbn; lia|].
  unfold legal_plan. vm_compute. intros (_ & _ & _ & _ & _ & H). by apply H.
Defined.

(** X10. [run] catches [ValueError] only.  On a connected session whose
    point count times the sweep count is 1 the division by zero of
    [Sweep.stepsize] leaves [run]: no signal is emitted, the device is
    not addressed, and the worker is left marked as running. *)
Theorem run_single_point_escapes (parse_frequency : string → Z)
    (correct_delay : Datapoint → Qc → bool → Datapoint)
    (fuel : nat) (w : SweepWorker.t) (n : Z) :
  VNA.connected (SweepWorker.vna w) = true →
  Py.int (App.sweepCountInput (SweepWorker.app w)) = Ok n →
  VNA.datapoints (SweepWorker.vna w) * n = 1 →
  let out := SweepWorker.run parse_frequency correct_delay fuel w in
  out.1 = Raise ZeroDivisionError ∧
  SweepWorker.running out.2 = true ∧
  SweepWorker.trace out.2 = SweepWorker.trace w ∧
  SweepWorker.reads out.2 = SweepWorker.reads w ∧
  SweepWorker.stopped out.2 = SweepWorker.stopped w.
Proof.
  intros Hup Hcount Hone out. subst out.
  rewrite run_plan by done. cbn zeta. rewrite Hcount.
  cbn [mbind result_mbind result_bind]. rewrite init_single by done.
  by destruct w.
Qed.

Lemma run_single_point_escapes_witness :
  let w := SweepWorker.init sample_app
             (VNA.mk true 1 true (λ _ _, ["0.5 0.1"]) (λ _, [Qc_of_Z 1000000])) in
  let out := SweepWorker.run parse_hz no_delay 1 w in
  out.1 = Raise ZeroDivisionError ∧
  SweepWorker.running out.2 = true ∧
  SweepWorker.trace out.2 = SweepWorker.trace w ∧
  SweepWorker.reads out.2 = SweepWorker.reads w ∧
  SweepWorker.stopped out.2 = SweepWorker.stopped w.
Proof.
  intros w. apply (run_single_point_escapes parse_hz no_delay 1 w 1); reflexivity.
Defined.

(** X11. A stopped worker sweeps nothing.  On a connected session with
    legal settings, [run] on a worker whose [stopped] flag is set leaves
    the loop at its first segment: no segment is read, the data are kept,
    the device gets at most the reset of the sweep range (when several
    segments were requested), and [finished] is emitted at 100
    percent. *)
Theorem run_stopped (parse_frequency : string → Z)
    (correct_delay : Datapoint → Qc → bool → Datapoint)
    (fuel : nat) (w : SweepWorker.t) (n : Z) :
  VNA.connected (SweepWorker.vna w) = true →
  SweepWorker.stopped w = true →
  Py.int (App.sweepCountInput (SweepWorker.app w)) = Ok n →
  legal_plan (parse_frequency (App.sweepStartInput (SweepWorker.app w)))
             (parse_frequency (App.sweepEndInput (SweepWorker.app w)))
             (VNA.datapoints (SweepWorker.vna w)) n →
  let out := SweepWorker.run parse_frequency correct_delay (S fuel) w in
  out.1 = Ok () ∧
  SweepWorker.reads out.2 = SweepWorker.reads w ∧
  SweepWorker.trace out.2
  = SweepWorker.trace w ++
    (if bool_decide (1 < n)
     then [DevResetSweep (parse_frequency (App.sweepStartInput (SweepWorker.app w)))
                         (parse_frequency (App.sweepEndInput (SweepWorker.app w)))]
     else []) ++ [SigFinished] ∧
  SweepWorker.percentage out.2 = Qc_of_Z 100 ∧
  SweepWorker.running out.2 = false ∧
  SweepWorker.data11 out.2 = SweepWorker.data11 w ∧
  SweepWorker.data21 out.2 = SweepWorker.data21 w.
Proof.
  intros Hup Hstop Hcount Hlegal out. subst out.
  rewrite run_plan by done. cbn zeta. rewrite Hcount.
  cbn [mbind result_mbind result_bind]. rewrite init_legal by done.
  unfold mbind, SweepWorker.M_mbind, SweepWorker.bind.
  rewrite sweeping_stopped;
    [|by destruct w|destruct w; cbn; by destruct Hlegal as (_ & _ & _ & ? & _)].
  destruct w; step_M. case_bool_decide; step_M; rewrite <-?app_assoc; done.
Qed.

Lemma run_stopped_witness :
  let w := SweepWorker.set_stopped
             (SweepWorker.init (App.mk "1000000" "2000000" "2" Calibration.fresh)
                               steady_vna) true in
  let out := SweepWorker.run parse_hz no_delay 1 w in
  out.1 = Ok () ∧
  SweepWorker.reads out.2 = SweepWorker.reads w ∧
  SweepWorker.trace out.2
  = SweepWorker.trace w ++
    (if bool_decide (1 < 2) then [DevResetSweep 1000000 2000000] else []) ++
    [SigFinished] ∧
  SweepWorker.percentage out.2 = Qc_of_Z 100 ∧
  SweepWorker.running out.2 = false ∧
  SweepWorker.data11 out.2 = SweepWorker.data11 w ∧
  SweepWorker.data21 out.2 = SweepWorker.data21 w.
Proof.
  intros w. apply (run_stopped parse_hz no_delay 0 w 2); try reflexivity.
  unfold legal_plan. vm_compute. repeat split; discriminate.
Defined.

(** X12. A clean first sweep of one segment.  On a connected session
    with legal settings for a single segment that differ from the
    worker's current plan, with the worker not stopped, no averaging, no
    continuous mode, no offset delay and no calibration calculated, and
    with the device answering the frequencies and one plausible reply of
    the same length on each data channel: [run] sets the range of the
    segment, reads the frequencies and each channel once, publishes the
    values paired with the frequencies as both the raw and the corrected
    data, emits [updated] and then [finished], and leaves the worker at
    100 percent and not running. *)
Theorem run_clean_sweep (parse_frequency : string → Z)
    (correct_delay : Datapoint → Qc → bool → Datapoint)
    (fuel : nat) (w : SweepWorker.t) (sw : Sweep.t) (fs : list Qc)
    (vals11 vals21 : list Averaging.sample) :
  VNA.connected (SweepWorker.vna w) = true →
  SweepWorker.stopped w = false → SweepWorker.averaging w = false →
  SweepWorker.continuousSweep w = false → SweepWorker.offsetDelay w = 0%Qc →
  Calibration.isCalculated (App.calibration (SweepWorker.app w)) = false →
  Py.int (App.sweepCountInput (SweepWorker.app w)) = Ok 1 →
  Sweep.init (parse_frequency (App.sweepStartInput (SweepWorker.app w)))
             (parse_frequency (App.sweepEndInput (SweepWorker.app w)))
             (VNA.datapoints (SweepWorker.vna w)) 1 = Ok sw →
  Sweep.eqb sw (SweepWorker.sweep w) = false →
  VNA.validateInput (SweepWorker.vna w) = true →
  VNA.readFrequencies (SweepWorker.vna w) (SweepWorker.reads w) = fs →
  valid_reply (VNA.readValues (SweepWorker.vna w) (SweepWorker.reads w + 1) "data 0")
              vals11 →
  valid_reply (VNA.readValues (SweepWorker.vna w) (SweepWorker.reads w + 2) "data 1")
              vals21 →
  length vals11 = length fs → length vals21 = length fs →
  let out := SweepWorker.run parse_frequency correct_delay (S fuel) w in
  let d11 := datapoints_of fs vals11 in
  let d21 := datapoints_of fs vals21 in
  out.1 = Ok () ∧
  SweepWorker.data11 out.2 = d11 ∧ SweepWorker.data21 out.2 = d21 ∧
  SweepWorker.rawData11 out.2 = d11 ∧ SweepWorker.rawData21 out.2 = d21 ∧
  SweepWorker.sweep out.2 = sw ∧
  SweepWorker.percentage out.2 = Qc_of_Z 100 ∧
  SweepWorker.running out.2 = false ∧ SweepWorker.stopped out.2 = false ∧
  SweepWorker.trace out.2
  = SweepWorker.trace w ++
    [DevSetSweep (Sweep.get_index_range sw 0).1 (Sweep.get_index_range sw 0).2;
     DevReadFrequencies; DevReadValues "data 0"; DevReadValues "data 1";
     AppSaveData d11 d21; SigUpdated; SigFinished].
Proof.
  intros Hup Hstop Havg Hcont Hdelay Hcalc Hcount Hinit Hfirst Hval Hfs H11 H21 L11 L21
    out d11 d21. subst out.
  assert (Sweep.sweeps sw = 1) as Hone.
  { apply init_inv in Hinit as (-> & _). done. }
  rewrite run_plan by done. cbn zeta. rewrite Hcount.
  cbn [mbind result_mbind result_bind]. rewrite Hinit, Hfirst.
  unfold mbind, SweepWorker.M_mbind, SweepWorker.bind. cbn [negb].
  rewrite (sweeping_clean correct_delay fuel _ fs vals11 vals21); try (by destruct w).
  destruct w. cbn [SweepWorker.stopped] in Hstop. subst.
  unfold published, after_segment, segment_exchanges, SweepWorker.vna_resetSweep,
    SweepWorker.emit, SweepWorker.get, SweepWorker.modify, SweepWorker.ret.
  worker_fields. rewrite Hone. rewrite bool_decide_eq_false_2 by lia.
  unfold SweepWorker.M_mret, mret, SweepWorker.ret. worker_fields.
  repeat split. cbn [replicate Datatypes.app]. by rewrite <-!app_assoc.
Qed.

Lemma run_clean_sweep_witness :
  let w := SweepWorker.init sample_app steady_vna in
  let out := SweepWorker.run parse_hz no_delay 1 w in
  let d11 := datapoints_of [Qc_of_Z 1000000; Qc_of_Z 2000000]
               [(number "0.5", number "0.1"); (number "0.2", number "-0.3")] in
  out.1 = Ok () ∧
  SweepWorker.data11 out.2 = d11 ∧ SweepWorker.data21 out.2 = d11 ∧
  SweepWorker.rawData11 out.2 = d11 ∧ SweepWorker.rawData21 out.2 = d11 ∧
  SweepWorker.sweep out.2 = Sweep.mk 1000000 2000000 101 1 1000000 10000 ∧
  SweepWorker.percentage out.2 = Qc_of_Z 100 ∧
  SweepWorker.running out.2 = false ∧ SweepWorker.stopped out.2 = false ∧
  SweepWorker.trace out.2
  = SweepWorker.trace w ++
    [DevSetSweep 1000000 2000000;
     DevReadFrequencies; DevReadValues "data 0"; DevReadValues "data 1";
     AppSaveData d11 d11; SigUpdated; SigFinished].
Proof.
  intros w.
  assert (valid_reply ["0.5 0.1"; "0.2 -0.3"]
            [(number "0.5", number "0.1"); (number "0.2", number "-0.3")]) as Hreply.
  { repeat constructor.
    - exists "0.5", "0.1". repeat split; vm_compute; (reflexivity || discriminate).
    - exists "0.2", "-0.3". repeat split; vm_compute; (reflexivity || discriminate). }
  apply (run_clean_sweep parse_hz no_delay 0 w
           (Sweep.mk 1000000 2000000 101 1 1000000 10000)
           [Qc_of_Z 1000000; Qc_of_Z 2000000]
           [(number "0.5", number "0.1"); (number "0.2", number "-0.3")]
           [(number "0.5", number "0.1"); (number "0.2", number "-0.3")]);
    try reflexivity; exact Hreply.
Defined.

(** X13. A sweep over the plan the worker already holds stores nothing.
    On a connected session whose settings equal the current plan (one
    segment), with the worker not stopped, no averaging and no continuous
    mode, [run] reads the segment from the device and then calls
    [updateData] with the empty lists it has just created: the values
    read are dropped, the data and raw data of the worker stay as they
    were, and the old data are published again before [finished]. *)
Theorem run_repeated_plan (parse_frequency : string → Z)
    (correct_delay : Datapoint → Qc → bool → Datapoint)
    (fuel : nat) (w : SweepWorker.t) (sw : Sweep.t) (fs : list Qc)
    (vals11 vals21 : list Averaging.sample) :
  VNA.connected (SweepWorker.vna w) = true →
  SweepWorker.stopped w = false → SweepWorker.averaging w = false →
  SweepWorker.continuousSweep w = false →
  Py.int (App.sweepCountInput (SweepWorker.app w)) = Ok 1 →
  Sweep.init (parse_frequency (App.sweepStartInput (SweepWorker.app w)))
             (parse_frequency (App.sweepEndInput (SweepWorker.app w)))
             (VNA.datapoints (SweepWorker.vna w)) 1 = Ok sw →
  Sweep.eqb sw (SweepWorker.sweep w) = true →
  VNA.validateInput (SweepWorker.vna w) = true →
  VNA.readFrequencies (SweepWorker.vna w) (SweepWorker.reads w) = fs →
  valid_reply (VNA.readValues (SweepWorker.vna w) (SweepWorker.reads w + 1) "data 0")
              vals11 →
  valid_reply (VNA.readValues (SweepWorker.vna w) (SweepWorker.reads w + 2) "data 1")
              vals21 →
  length vals11 = length fs → length vals21 = length fs →
  let out := SweepWorker.run parse_frequency correct_delay (S fuel) w in
  out.1 = Ok () ∧
  SweepWorker.data11 out.2 = SweepWorker.data11 w ∧
  SweepWorker.data21 out.2 = SweepWorker.data21 w ∧
  SweepWorker.rawData11 out.2 = SweepWorker.rawData11 w ∧
  SweepWorker.rawData21 out.2 = SweepWorker.rawData21 w ∧
  SweepWorker.reads out.2 = (SweepWorker.reads w + 3)%nat ∧
  SweepWorker.trace out.2
  = SweepWorker.trace w ++
    [DevSetSweep (Sweep.get_index_range sw 0).1 (Sweep.get_index_range sw 0).2;
     DevReadFrequencies; DevReadValues "data 0"; DevReadValues "data 1";
     AppSaveData (SweepWorker.data11 w) (SweepWorker.data21 w);
     SigUpdated; SigFinished].
Proof.
  intros Hup Hstop Havg Hcont Hcount Hinit Hsame Hval Hfs H11 H21 L11 L21 out.
  subst out.
  assert (Sweep.sweeps sw = 1) as Hone.
  { apply init_inv in Hinit as (-> & _). done. }
  rewrite run_plan by done. cbn zeta. rewrite Hcount.
  cbn [mbind result_mbind result_bind]. rewrite Hinit, Hsame.
  unfold mbind, SweepWorker.M_mbind, SweepWorker.bind. cbn [negb].
  rewrite (sweeping_repeated correct_delay fuel _ fs vals11 vals21);
    try (by destruct w).
  destruct w. cbn [SweepWorker.stopped] in Hstop. subst.
  unfold after_segment, segment_exchanges, SweepWorker.vna_resetSweep,
    SweepWorker.emit, SweepWorker.get, SweepWorker.modify, SweepWorker.ret.
  cbn zeta. worker_fields. rewrite Hone. rewrite bool_decide_eq_false_2 by lia.
  unfold SweepWorker.M_mret, mret, SweepWorker.ret. worker_fields.
  repeat split; [lia|]. cbn [replicate Datatypes.app]. by rewrite <-!app_assoc.
Qed.

Lemma run_repeated_plan_witness :
  let w := SweepWorker.set_data11
             (SweepWorker.set_sweep (SweepWorker.init sample_app steady_vna)
                (Sweep.mk 1000000 2000000 101 1 1000000 10000))
             [cpoint 1000000 1 0] in
  let out := SweepWorker.run parse_hz no_delay 1 w in
  out.1 = Ok () ∧
  SweepWorker.data11 out.2 = SweepWorker.data11 w ∧
  SweepWorker.data21 out.2 = SweepWorker.data21 w ∧
  SweepWorker.rawData11 out.2 = SweepWorker.rawData11 w ∧
  SweepWorker.rawData21 out.2 = SweepWorker.rawData21 w ∧
  SweepWorker.reads out.2 = (SweepWorker.reads w + 3)%nat ∧
  SweepWorker.trace out.2
  = SweepWorker.trace w ++
    [DevSetSweep 1000000 2000000;
     DevReadFrequencies; DevReadValues "data 0"; DevReadValues "data 1";
     AppSaveData (SweepWorker.data11 w) (SweepWorker.data21 w);
     SigUpdated; SigFinished].
Proof.
  intros w.
  assert (valid_reply ["0.5 0.1"; "0.2 -0.3"]
            [(number "0.5", number "0.1"); (number "0.2", number "-0.3")]) as Hreply.
  { repeat constructor.
    - exists "0.5", "0.1". repeat split; vm_compute; (reflexivity || discriminate).
    - exists "0.2", "-0.3". repeat split; vm_compute; (reflexivity || discriminate). }
  apply (run_repeated_plan parse_hz no_delay 0 w
           (Sweep.mk 1000000 2000000 101 1 1000000 10000)
           [Qc_of_Z 1000000; Qc_of_Z 2000000]
           [(number "0.5", number "0.1"); (number "0.2", number "-0.3")]
           [(number "0.5", number "0.1"); (number "0.2", number "-0.3")]);
    try reflexivity; exact Hreply.
Defined.

Section SegmentedSweep.

Import SweepWorker.

Variable parse_frequency : string → Z.
Variable correct_delay : Datapoint → Qc → bool → Datapoint.

(** Segment [i] of a first sweep on a device that answers cleanly, with
    no averaging and no calibration in force. *)
Lemma segment_clean_at (i : nat) (b : buffers) (w : t) (r : segment_reply) :
  stopped w = false → averaging w = false →
  offsetDelay w = 0%Qc → Calibration.isCalculated (App.calibration (app w)) = false →
  0 < Sweep.sweeps (sweep w) →
  VNA.validateInput (vna w) = true →
  answers (vna w) (reads w) r →
  length b.1.2 = length b.1.1 → length b.2 = length b.1.1 →
  segment correct_delay true i b w
  = (Ok (Next (gathered b [r])), after_segments i [r] b w).
Proof.
  intros Hstop Havg Hdelay Hcalc Hn Hval (Hfs & H11 & H21 & L11 & L21) B11 B21.
  destruct b as [[F V11] V21]. destruct r as [[fs vals11] vals21].
  cbn [fst snd] in *. unfold segment.
  unfold mbind at 1, M_mbind, bind, get. rewrite Hstop, Havg.
  destruct (Sweep.get_index_range (sweep w) (Z.of_nat i)) as [start stop] eqn:Hrange.
  cbn [fst snd].
  unfold except_ValueError, mbind, M_mbind, bind, ret, mret, M_mret, ret, lift,
    modify. cbv beta.
  rewrite (readSegment_clean start stop w fs vals11 vals21) by done.
  unfold truediv. cbn [fst snd negb].
  rewrite decide_False by (destruct w; cbn in *; lia).
  unfold extend. cbn [after_segments gathered fst snd concat fmap list_fmap].
  rewrite !app_nil_r, Hrange. cbn [fst snd].
  rewrite saveData_uncalculated.
  - unfold gathered. cbn [fst snd concat fmap list_fmap]. by rewrite !app_nil_r.
  - by destruct w.
  - by destruct w.
  - rewrite !length_app; congruence.
  - rewrite !length_app; congruence.
Qed.

Lemma gathered_cons (b : buffers) (r : segment_reply) (segs : list segment_reply) :
  gathered (gathered b [r]) segs = gathered b (r :: segs).
Proof.
  destruct b as [[F V11] V21], r as [[fs v11] v21]. unfold gathered.
  cbn [fst snd concat fmap list_fmap]. by rewrite !app_nil_r, <-!app_assoc.
Qed.

Lemma gathered_nil (b : buffers) : gathered b [] = b.
Proof.
  destruct b as [[F V11] V21]. unfold gathered. cbn. by rewrite !app_nil_r.
Qed.

(** What the clean segments leave alone. *)
Lemma after_segments_settings (segs : list segment_reply) :
  ∀ (i : nat) (b : buffers) (w : t),
  let w' := after_segments i segs b w in
  vna w' = vna w ∧ app w' = app w ∧ sweep w' = sweep w ∧
  stopped w' = stopped w ∧ running w' = running w ∧
  continuousSweep w' = continuousSweep w ∧ averaging w' = averaging w ∧
  offsetDelay w' = offsetDelay w ∧
  reads w' = (reads w + 3 * length segs)%nat ∧
  trace w' = trace w ++ segments_log (sweep w) i segs b.
Proof.
  induction segs as [|r segs IH]; intros i b w; cbn [after_segments segments_log].
  { cbn zeta. rewrite app_nil_r. repeat split; cbn; lia. }
  cbn zeta.
  match goal with |- context [after_segments (S i) segs ?b1 ?w1] =>
    destruct (IH (S i) b1 w1) as (-> & -> & -> & -> & -> & -> & -> & -> & -> & ->) end.
  destruct w. unfold published, after_segment. worker_fields.
  repeat split; [cbn [length]; lia|]. by rewrite <-!app_assoc.
Qed.

(** What the clean segments publish. *)
Lemma after_segments_data (segs : list segment_reply) :
  ∀ (i : nat) (b : buffers) (w : t),
  segs ≠ [] →
  let w' := after_segments i segs b w in
  let g := gathered b segs in
  data11 w' = datapoints_of g.1.1 g.1.2 ∧ data21 w' = datapoints_of g.1.1 g.2 ∧
  rawData11 w' = datapoints_of g.1.1 g.1.2 ∧ rawData21 w' = datapoints_of g.1.1 g.2.
Proof.
  induction segs as [|r segs IH]; intros i b w Hne; [done|].
  cbn [after_segments]. cbn zeta. rewrite <-(gathered_cons b r segs).
  destruct segs as [|r' segs].
  - cbn [after_segments]. rewrite gathered_nil. by destruct w.
  - by apply IH.
Qed.

Lemma segments_clean (segs : list segment_reply) :
  ∀ (i : nat) (b : buffers) (w : t),
  stopped w = false → averaging w = false →
  offsetDelay w = 0%Qc → Calibration.isCalculated (App.calibration (app w)) = false →
  0 < Sweep.sweeps (sweep w) →
  VNA.validateInput (vna w) = true →
  answers_all (vna w) (reads w) segs →
  length b.1.2 = length b.1.1 → length b.2 = length b.1.1 →
  segments correct_delay true (seq i (length segs)) b w
  = (Ok (Next (gathered b segs)), after_segments i segs b w).
Proof.
  induction segs as [|r segs IH]; intros i b w Hstop Havg Hdelay Hcalc Hn Hval Hall B11 B21.
  { cbn [length seq segments after_segments]. by rewrite gathered_nil. }
  cbn [length seq segments]. unfold mbind at 1, M_mbind, bind.
  rewrite (segment_clean_at i b w r); try done.
  2: { specialize (Hall 0%nat r eq_refl). by rewrite Nat.mul_0_r, Nat.add_0_r in Hall. }
  destruct (after_segments_settings [r] i b w)
    as (Ev & Ea & Es & Est & _ & _ & Eav & Eod & Erd & _).
  rewrite IH; rewrite ?Ev, ?Ea, ?Es, ?Est, ?Eav, ?Eod, ?Erd; try done.
  - by rewrite gathered_cons.
  - intros j r' Hr'. specialize (Hall (S j) r' Hr').
    cbn [length] in *. by replace (reads w + 3 * 1 + 3 * j)%nat
      with (reads w + 3 * S j)%nat by lia.
  - destruct (Hall 0%nat r eq_refl) as (_ & _ & _ & L11 & L21).
    destruct b as [[F V11] V21], r as [[fs v11] v21]. unfold gathered.
    cbn [fst snd concat fmap list_fmap] in *. rewrite !length_app. cbn. lia.
  - destruct (Hall 0%nat r eq_refl) as (_ & _ & _ & L11 & L21).
    destruct b as [[F V11] V21], r as [[fs v11] v21]. unfold gathered.
    cbn [fst snd concat fmap list_fmap] in *. rewrite !length_app. cbn. lia.
Qed.

Lemma sweeping_segments (fuel : nat) (w : t) (segs : list segment_reply) :
  stopped w = false → averaging w = false → continuousSweep w = false →
  offsetDelay w = 0%Qc → Calibration.isCalculated (App.calibration (app w)) = false →
  0 < Sweep.sweeps (sweep w) →
  length segs = Z.to_nat (Sweep.sweeps (sweep w)) →
  VNA.validateInput (vna w) = true →
  answers_all (vna w) (reads w) segs →
  sweeping correct_delay (S fuel) true ([], [], []) w
  = (Ok (), after_segments 0 segs ([], [], []) w).
Proof.
  intros Hstop Havg Hcont Hdelay Hcalc Hn Hlen Hval Hall.
  cbn [sweeping]. unfold mbind at 1 2, M_mbind, bind, get. rewrite <-Hlen.
  rewrite (segments_clean segs) by done.
  unfold ret, mret, M_mret, ret, mbind, M_mbind, bind, get.
  destruct (after_segments_settings segs 0 ([], [], []) w)
    as (_ & _ & _ & _ & _ & -> & _).
  by rewrite Hcont.
Qed.

End SegmentedSweep.

(** X14. A clean first sweep in segments.  On a connected session with
    legal settings that differ from the worker's current plan, with the
    worker not stopped, no averaging, no continuous mode, no offset
    delay and no calibration calculated, and with the device answering
    every segment with its frequencies and one plausible reply of the
    same length per channel: [run] reads the segments in order with
    three exchanges each, publishes after every segment all the data
    gathered so far, and ends with the concatenation of the segments as
    both the raw and the corrected data, at 100 percent and not running.
    The sweep range of the device is reset at the end only when there
    is more than one segment. *)
Theorem run_segmented_sweep (parse_frequency : string → Z)
    (correct_delay : Datapoint → Qc → bool → Datapoint)
    (fuel : nat) (w : SweepWorker.t) (sw : Sweep.t) (n : Z)
    (segs : list segment_reply) :
  VNA.connected (SweepWorker.vna w) = true →
  SweepWorker.stopped w = false → SweepWorker.averaging w = false →
  SweepWorker.continuousSweep w = false → SweepWorker.offsetDelay w = 0%Qc →
  Calibration.isCalculated (App.calibration (SweepWorker.app w)) = false →
  Py.int (App.sweepCountInput (SweepWorker.app w)) = Ok n →
  Sweep.init (parse_frequency (App.sweepStartInput (SweepWorker.app w)))
             (parse_frequency (App.sweepEndInput (SweepWorker.app w)))
             (VNA.datapoints (SweepWorker.vna w)) n = Ok sw →
  Sweep.eqb sw (SweepWorker.sweep w) = false →
  VNA.validateInput (SweepWorker.vna w) = true →
  length segs = Z.to_nat n →
  answers_all (SweepWorker.vna w) (SweepWorker.reads w) segs →
  let out := SweepWorker.run parse_frequency correct_delay (S fuel) w in
  let g := gathered ([], [], []) segs in
  out.1 = Ok () ∧
  SweepWorker.data11 out.2 = datapoints_of g.1.1 g.1.2 ∧
  SweepWorker.data21 out.2 = datapoints_of g.1.1 g.2 ∧
  SweepWorker.rawData11 out.2 = datapoints_of g.1.1 g.1.2 ∧
  SweepWorker.rawData21 out.2 = datapoints_of g.1.1 g.2 ∧
  SweepWorker.sweep out.2 = sw ∧
  SweepWorker.percentage out.2 = Qc_of_Z 100 ∧
  SweepWorker.running out.2 = false ∧ SweepWorker.stopped out.2 = false ∧
  SweepWorker.reads out.2 = (SweepWorker.reads w + 3 * length segs)%nat ∧
  SweepWorker.trace out.2
  = SweepWorker.trace w ++ segments_log sw 0 segs ([], [], [])
    ++ (if bool_decide (1 < n)
        then [DevResetSweep
                (parse_frequency (App.sweepStartInput (SweepWorker.app w)))
                (parse_frequency (App.sweepEndInput (SweepWorker.app w)))]
        else [])
    ++ [SigFinished].
Proof.
  intros Hup Hstop Havg Hcont Hdelay Hcalc Hcount Hinit Hfirst Hval Hlen Hall out g.
  subst out g.
  assert (Sweep.sweeps sw = n ∧ 0 < n) as [Hn Hpos].
  { apply init_inv in Hinit as (-> & _ & ? & _). done. }
  assert (segs ≠ []) as Hne by (intros ->; cbn in Hlen; lia).
  rewrite run_plan by done. cbn zeta. rewrite Hcount.
  cbn [mbind result_mbind result_bind]. rewrite Hinit, Hfirst.
  unfold mbind, SweepWorker.M_mbind, SweepWorker.bind. cbn [negb].
  set (W0 := SweepWorker.set_sweep
               (SweepWorker.set_percentage (SweepWorker.set_running w true) 0%Qc) sw).
  rewrite (sweeping_segments correct_delay fuel W0 segs);
    try (subst W0; destruct w; cbn in *; first [done|lia]).
  destruct (after_segments_settings segs 0 ([], [], []) W0)
    as (Ev & Ea & Es & Est & Ern & Ecs & Eav & Eod & Erd & Etr).
  destruct (after_segments_data segs 0 ([], [], []) W0 Hne)
    as (E11 & E21 & Er11 & Er21).
  remember (after_segments 0 segs ([], [], []) W0) as w' eqn:Hw'. clear Hw'.
  unfold SweepWorker.vna_resetSweep, SweepWorker.emit, SweepWorker.get,
    SweepWorker.modify, SweepWorker.ret.
  rewrite Es, Ea. subst W0. destruct w'. destruct w.
  worker_fields. cbn in Es, Ea, Est, Erd, Etr, E11, E21, Er11, Er21, Hstop. subst.
  destruct (bool_decide (1 < Sweep.sweeps sw));
    unfold SweepWorker.M_mret, mret, SweepWorker.ret; worker_fields;
    repeat split; by rewrite <-?app_assoc.
Qed.

Lemma run_segmented_sweep_witness :
  let w := SweepWorker.init two_segment_app steady_vna in
  let sw := Sweep.mk 1000000 2000000 101 2 1000000 4975 in
  let out := SweepWorker.run parse_hz no_delay 1 w in
  let g := gathered ([], [], []) [steady_reply; steady_reply] in
  out.1 = Ok () ∧
  SweepWorker.data11 out.2 = datapoints_of g.1.1 g.1.2 ∧
  SweepWorker.data21 out.2 = datapoints_of g.1.1 g.2 ∧
  SweepWorker.rawData11 out.2 = datapoints_of g.1.1 g.1.2 ∧
  SweepWorker.rawData21 out.2 = datapoints_of g.1.1 g.2 ∧
  SweepWorker.sweep out.2 = sw ∧
  SweepWorker.percentage out.2 = Qc_of_Z 100 ∧
  SweepWorker.running out.2 = false ∧ SweepWorker.stopped out.2 = false ∧
  SweepWorker.reads out.2 = (SweepWorker.reads w + 3 * 2)%nat ∧
  SweepWorker.trace out.2
  = SweepWorker.trace w ++ segments_log sw 0 [steady_reply; steady_reply] ([], [], [])
    ++ [DevResetSweep 1000000 2000000] ++ [SigFinished].
Proof.
  intros w sw.
  assert (valid_reply ["0.5 0.1"; "0.2 -0.3"]
            [(number "0.5", number "0.1"); (number "0.2", number "-0.3")]) as Hreply.
  { repeat constructor.
    - exists "0.5", "0.1". repeat split; vm_compute; (reflexivity || discriminate).
    - exists "0.2", "-0.3". repeat split; vm_compute; (reflexivity || discriminate). }
  apply (run_segmented_sweep parse_hz no_delay 0 w sw 2 [steady_reply; steady_reply]);
    try reflexivity.
  intros [|[|j]] r Hr; cbn in Hr; simplify_eq; repeat split; exact Hreply.
Defined.

Section ReadFailures.

Import SweepWorker.

Variable parse_frequency : string → Z.
Variable correct_delay : Datapoint → Qc → bool → Datapoint.

Lemma readData_gives_up (data : string) (w : t) :
  VNA.validateInput (vna w) = true →
  (∀ i, (i < 10)%nat → out_of_bound_reply (VNA.readValues (vna w) (reads w + i) data)) →
  readData data w = (Raise (IOError (giving_up data 10)), after_reads w data 10).
Proof.
  intros Hval Hbad. apply (readData_loop_give_up data 9); try done; try lia.
  intros i Hi. apply Hbad. lia.
Qed.

Lemma scan_valid_prefix (pre rest : list string) (vals : list Averaging.sample) :
  valid_reply pre vals →
  ∀ done acc, scan_values true (pre ++ rest) done acc
              = scan_values true rest done (acc ++ vals).
Proof.
  induction 1 as [|d v pre vals (a & b & Hsplit & Ha & Hb & Hla & Hlb) _ IH];
    intros done acc.
  - by rewrite app_nil_r.
  - rewrite <-app_comm_cons. cbn [scan_values]. rewrite Hsplit. unfold implausible.
    rewrite Ha. cbn [mbind result_mbind result_bind].
    case_decide as H1; [by apply Qclt_not_le in H1|].
    rewrite Hb. cbn [mbind result_mbind result_bind].
    rewrite bool_decide_eq_false_2 by (by apply Qcle_not_lt).
    rewrite IH, <-app_assoc. by destruct v.
Qed.

Lemma readData_malformed (data : string) (w : t) (pre post : list string)
    (d : string) (vals : list Averaging.sample) :
  VNA.validateInput (vna w) = true →
  VNA.readValues (vna w) (reads w) data = pre ++ d :: post →
  valid_reply pre vals → malformed_line d →
  ∃ msg, unpack_message msg ∧
         readData data w = (Raise (ValueError msg), after_reads w data 1).
Proof.
  intros Hval Hreply Hpre Hbad. unfold readData.
  rewrite readData_loop_unfold. cbn zeta. rewrite Hval, Hreply.
  rewrite (scan_valid_prefix pre _ vals) by done. cbn [scan_values].
  unfold malformed_line in Hbad.
  destruct (Py.split_on " " d) as [|a [|b [|c fields]]]; try (cbn in Hbad; lia).
  - eexists. split; [by left|done].
  - eexists. split; [by left|done].
  - eexists. split; [by right|done].
Qed.

(** [readSegment] when the reading of the first channel raises. *)
Lemma readSegment_raises (start stop : Z) (w : t) (e : exn) (k : nat) :
  readData "data 0" (after_segment w start stop 0 0)
  = (Raise e, after_reads (after_segment w start stop 0 0) "data 0" k) →
  readSegment start stop w = (Raise e, after_segment w start stop k 0).
Proof.
  destruct w as [v a sw pc d11 d21 r11 r21 st rn cs av avs tr em od rd trc].
  unfold after_segment, after_reads, segment_exchanges.
  intros Hread. unfold readSegment.
  repeat (unfold mbind, mret, M_mbind, M_mret, bind, ret, get, modify, emit,
            vna_readFrequencies, vna_setSweep;
          cbn -[readData]).
  unfold set_reads, set_trace in *.
  cbn [vna app sweep percentage data11 data21 rawData11 rawData21 stopped running
       continuousSweep averaging averages truncates error_message offsetDelay
       reads trace replicate Datatypes.app] in *.
  rewrite !app_nil_r in *. rewrite <-!app_assoc in *. cbn [Datatypes.app] in *.
  replace (rd + 1 + 0 + 0)%nat with (S rd) in Hread by lia.
  rewrite Hread. by replace (rd + 1 + k + 0)%nat with (S rd + k)%nat by lia.
Qed.

Lemma segment_raises (first_sweep : bool) (i : nat) (b : buffers) (w w2 : t) (e : exn) :
  stopped w = false → averaging w = false → (∀ msg, e ≠ ValueError msg) →
  readSegment (Sweep.get_index_range (sweep w) (Z.of_nat i)).1
              (Sweep.get_index_range (sweep w) (Z.of_nat i)).2 w = (Raise e, w2) →
  segment correct_delay first_sweep i b w = (Raise e, w2).
Proof.
  intros Hstop Havg He Hread. unfold segment.
  unfold mbind at 1, M_mbind, bind, get. rewrite Hstop, Havg.
  destruct (Sweep.get_index_range (sweep w) (Z.of_nat i)) as [start stop].
  destruct b as [[F V11] V21]. cbn [fst snd] in Hread.
  unfold except_ValueError, mbind, M_mbind, bind, ret, mret, M_mret, ret, lift,
    modify. cbv beta. rewrite Hread.
  destruct e; try done. by destruct (He msg).
Qed.

Lemma segment_ValueError (first_sweep : bool) (i : nat) (b : buffers) (w w2 : t)
    (msg : string) :
  stopped w = false → averaging w = false →
  readSegment (Sweep.get_index_range (sweep w) (Z.of_nat i)).1
              (Sweep.get_index_range (sweep w) (Z.of_nat i)).2 w
  = (Raise (ValueError msg), w2) →
  segment correct_delay first_sweep i b w = (Ok (Next b), sweep_failed_with w2 msg).
Proof.
  intros Hstop Havg Hread. unfold segment.
  unfold mbind at 1, M_mbind, bind, get. rewrite Hstop, Havg.
  destruct (Sweep.get_index_range (sweep w) (Z.of_nat i)) as [start stop].
  destruct b as [[F V11] V21]. cbn [fst snd] in Hread.
  unfold except_ValueError, mbind, M_mbind, bind, ret, mret, M_mret, ret, lift,
    modify. cbv beta. rewrite Hread.
  unfold sweep_failed, sweep_failed_with, mbind, M_mbind, bind, emit, modify.
  by destruct w2.
Qed.

(** The loop of [run] when the first segment ends in the handler of
    [ValueError]: the segments left are skipped. *)
Lemma sweeping_failed (fuel : nat) (first_sweep : bool) (b : buffers) (w w2 : t)
    (msg : string) :
  stopped w = false → averaging w = false → 0 < Sweep.sweeps (sweep w) →
  sweep w2 = sweep w →
  readSegment (Sweep.get_index_range (sweep w) 0).1
              (Sweep.get_index_range (sweep w) 0).2 w
  = (Raise (ValueError msg), w2) →
  sweeping correct_delay (S (S fuel)) first_sweep b w
  = (Ok (), sweep_failed_with w2 msg).
Proof.
  intros Hstop Havg Hn Hsweep Hread.
  assert (stopped (sweep_failed_with w2 msg) = true) as Hstopped by (by destruct w2).
  assert (sweep (sweep_failed_with w2 msg) = sweep w) as Hsame
    by (rewrite <-Hsweep; by destruct w2).
  cbn [sweeping]. unfold mbind at 1 2, M_mbind, bind, get.
  destruct (Z.to_nat (Sweep.sweeps (sweep w))) as [|m] eqn:Hm; [lia|].
  cbn [seq segments]. unfold mbind at 1, M_mbind, bind.
  rewrite (segment_ValueError first_sweep 0 b w w2 msg) by done.
  destruct m as [|m].
  - cbn [seq segments]. unfold ret, mret, M_mret, ret.
    unfold mbind at 1, M_mbind, bind, get. cbn [orb].
    destruct (continuousSweep (sweep_failed_with w2 msg)); cbn [negb]; [|done].
    unfold mbind at 1 2, M_mbind, bind, get. rewrite Hsame, Hm.
    cbn [seq]. rewrite segments_stopped by done.
    unfold mbind, M_mbind, bind, get. done.
  - cbn [seq]. rewrite segments_stopped by done.
    unfold mbind, M_mbind, bind, get. done.
Qed.

(** The loop of [run] when reading the first segment raises an error
    that is not a [ValueError]. *)
Lemma sweeping_raises (fuel : nat) (first_sweep : bool) (b : buffers) (w w2 : t)
    (e : exn) :
  stopped w = false → averaging w = false → 0 < Sweep.sweeps (sweep w) →
  (∀ msg, e ≠ ValueError msg) →
  readSegment (Sweep.get_index_range (sweep w) 0).1
              (Sweep.get_index_range (sweep w) 0).2 w = (Raise e, w2) →
  sweeping correct_delay (S fuel) first_sweep b w = (Raise e, w2).
Proof.
  intros Hstop Havg Hn He Hread.
  cbn [sweeping]. unfold mbind at 1 2, M_mbind, bind, get.
  destruct (Z.to_nat (Sweep.sweeps (sweep w))) as [|m] eqn:Hm; [lia|].
  cbn [seq segments]. unfold mbind at 1, M_mbind, bind.
  by rewrite (segment_raises first_sweep 0 b w w2 e).
Qed.

End ReadFailures.

(** X15. A reply line that does not unpack stops the sweep in good
    order.  On a connected session with legal settings, the worker not
    stopped and not averaging, when the first reply of the first data
    channel holds, after plausible lines, a line that is not exactly two
    fields separated by one space: the [ValueError] of the unpacking is
    caught by [run], which reads nothing more, keeps its message as the
    error message, sets [stopped], emits [sweepError] and then
    [finished], and leaves the data as they were. *)
Theorem run_malformed_reply (parse_frequency : string → Z)
    (correct_delay : Datapoint → Qc → bool → Datapoint)
    (fuel : nat) (w : SweepWorker.t) (sw : Sweep.t) (n : Z)
    (pre post : list string) (d : string) (vals : list Averaging.sample) :
  VNA.connected (SweepWorker.vna w) = true →
  SweepWorker.stopped w = false → SweepWorker.averaging w = false →
  Py.int (App.sweepCountInput (SweepWorker.app w)) = Ok n →
  Sweep.init (parse_frequency (App.sweepStartInput (SweepWorker.app w)))
             (parse_frequency (App.sweepEndInput (SweepWorker.app w)))
             (VNA.datapoints (SweepWorker.vna w)) n = Ok sw →
  VNA.validateInput (SweepWorker.vna w) = true →
  VNA.readValues (SweepWorker.vna w) (SweepWorker.reads w + 1) "data 0"
  = pre ++ d :: post →
  valid_reply pre vals → malformed_line d →
  let out := SweepWorker.run parse_frequency correct_delay (S (S fuel)) w in
  out.1 = Ok () ∧
  unpack_message (SweepWorker.error_message out.2) ∧
  SweepWorker.stopped out.2 = true ∧ SweepWorker.running out.2 = false ∧
  SweepWorker.percentage out.2 = Qc_of_Z 100 ∧
  SweepWorker.data11 out.2 = SweepWorker.data11 w ∧
  SweepWorker.data21 out.2 = SweepWorker.data21 w ∧
  SweepWorker.trace out.2
  = SweepWorker.trace w ++
    [DevSetSweep (Sweep.get_index_range sw 0).1 (Sweep.get_index_range sw 0).2;
     DevReadFrequencies; DevReadValues "data 0"; SigSweepError]
    ++ (if bool_decide (1 < n)
        then [DevResetSweep
                (parse_frequency (App.sweepStartInput (SweepWorker.app w)))
                (parse_frequency (App.sweepEndInput (SweepWorker.app w)))]
        else [])
    ++ [SigFinished].
Proof.
  intros Hup Hstop Havg Hcount Hinit Hval Hreply Hpre Hbad out. subst out.
  assert (Sweep.sweeps sw = n ∧ 0 < n) as [Hn Hpos].
  { apply init_inv in Hinit as (-> & _ & ? & _). done. }
  rewrite run_plan by done. cbn zeta. rewrite Hcount.
  cbn [mbind result_mbind result_bind]. rewrite Hinit.
  unfold mbind, SweepWorker.M_mbind, SweepWorker.bind.
  set (W0 := SweepWorker.set_sweep
               (SweepWorker.set_percentage (SweepWorker.set_running w true) 0%Qc) sw).
  set (start := (Sweep.get_index_range sw 0).1).
  set (stop := (Sweep.get_index_range sw 0).2).
  destruct (readData_malformed "data 0" (after_segment W0 start stop 0 0)
              pre post d vals) as (msg & Hmsg & Hread);
    try (subst W0; destruct w; cbn in *; done).
  { subst W0. destruct w. cbn in *. by rewrite Nat.add_0_r, Nat.add_0_r. }
  apply readSegment_raises in Hread.
  rewrite (sweeping_failed correct_delay fuel _ _ W0
             (after_segment W0 start stop 1 0) msg);
    try (subst W0; destruct w; cbn in *; first [done|lia]).
  subst W0. destruct w. cbn [SweepWorker.stopped] in Hstop. subst.
  unfold sweep_failed_with, after_segment, segment_exchanges,
    SweepWorker.vna_resetSweep, SweepWorker.emit, SweepWorker.get,
    SweepWorker.modify, SweepWorker.ret.
  worker_fields.
  destruct (bool_decide (1 < Sweep.sweeps sw));
    unfold SweepWorker.M_mret, mret, SweepWorker.ret; worker_fields;
    repeat split; try done; cbn [replicate Datatypes.app]; by rewrite <-!app_assoc.
Qed.

Lemma run_malformed_reply_witness :
  let w := SweepWorker.init sample_app garbled_vna in
  let out := SweepWorker.run parse_hz no_delay 2 w in
  out.1 = Ok () ∧
  unpack_message (SweepWorker.error_message out.2) ∧
  SweepWorker.stopped out.2 = true ∧ SweepWorker.running out.2 = false ∧
  SweepWorker.percentage out.2 = Qc_of_Z 100 ∧
  SweepWorker.data11 out.2 = SweepWorker.data11 w ∧
  SweepWorker.data21 out.2 = SweepWorker.data21 w ∧
  SweepWorker.trace out.2
  = SweepWorker.trace w ++
    [DevSetSweep 1000000 2000000;
     DevReadFrequencies; DevReadValues "data 0"; SigSweepError]
    ++ [] ++ [SigFinished].
Proof.
  intros w.
  apply (run_malformed_reply parse_hz no_delay 0 w
           (Sweep.mk 1000000 2000000 101 1 1000000 10000) 1
           ["0.5 0.1"] [] "oops" [(number "0.5", number "0.1")]);
    try reflexivity.
  - repeat constructor. exists "0.5", "0.1".
    repeat split; vm_compute; (reflexivity || discriminate).
  - unfold malformed_line. vm_compute. lia.
Defined.

(** X16. A channel that cannot be read aborts [run].  On a connected
    session with legal settings, the worker not stopped and not
    averaging, with validation on, when the first data channel answers
    with an out-of-bound value ten times in a row: the [IOError] of
    [readData] is not caught, so [run] raises it after the sweep
    command, the frequencies and ten reads of the channel, with no
    signal emitted, and the worker is left marked as running, not
    stopped, with its data and error message as before. *)
Theorem run_read_failure_escapes (parse_frequency : string → Z)
    (correct_delay : Datapoint → Qc → bool → Datapoint)
    (fuel : nat) (w : SweepWorker.t) (sw : Sweep.t) (n : Z) :
  VNA.connected (SweepWorker.vna w) = true →
  SweepWorker.stopped w = false → SweepWorker.averaging w = false →
  Py.int (App.sweepCountInput (SweepWorker.app w)) = Ok n →
  Sweep.init (parse_frequency (App.sweepStartInput (SweepWorker.app w)))
             (parse_frequency (App.sweepEndInput (SweepWorker.app w)))
             (VNA.datapoints (SweepWorker.vna w)) n = Ok sw →
  VNA.validateInput (SweepWorker.vna w) = true →
  (∀ i, (i < 10)%nat →
        out_of_bound_reply
          (VNA.readValues (SweepWorker.vna w) (SweepWorker.reads w + 1 + i) "data 0")) →
  let out := SweepWorker.run parse_frequency correct_delay (S fuel) w in
  out.1 = Raise (IOError (SweepWorker.giving_up "data 0" 10)) ∧
  SweepWorker.running out.2 = true ∧ SweepWorker.stopped out.2 = false ∧
  SweepWorker.error_message out.2 = SweepWorker.error_message w ∧
  SweepWorker.data11 out.2 = SweepWorker.data11 w ∧
  SweepWorker.data21 out.2 = SweepWorker.data21 w ∧
  SweepWorker.trace out.2
  = SweepWorker.trace w ++
    [DevSetSweep (Sweep.get_index_range sw 0).1 (Sweep.get_index_range sw 0).2;
     DevReadFrequencies] ++ replicate 10 (DevReadValues "data 0").
Proof.
  intros Hup Hstop Havg Hcount Hinit Hval Hbad out. subst out.
  assert (Sweep.sweeps sw = n ∧ 0 < n) as [Hn Hpos].
  { apply init_inv in Hinit as (-> & _ & ? & _). done. }
  rewrite run_plan by done. cbn zeta. rewrite Hcount.
  cbn [mbind result_mbind result_bind]. rewrite Hinit.
  unfold mbind, SweepWorker.M_mbind, SweepWorker.bind.
  set (W0 := SweepWorker.set_sweep
               (SweepWorker.set_percentage (SweepWorker.set_running w true) 0%Qc) sw).
  set (start := (Sweep.get_index_range sw 0).1).
  set (stop := (Sweep.get_index_range sw 0).2).
  pose proof (readData_gives_up "data 0" (after_segment W0 start stop 0 0)) as Hread.
  apply readSegment_raises in Hread;
    try (subst W0; destruct w; cbn in *; done).
  2: { intros i Hi. specialize (Hbad i Hi). subst W0. destruct w. cbn in *.
       by rewrite Nat.add_0_r, Nat.add_0_r. }
  rewrite (sweeping_raises correct_delay fuel _ _ W0 (after_segment W0 start stop 10 0)
             (IOError (SweepWorker.giving_up "data 0" 10)));
    subst W0; destruct w; cbn in *; first [done|lia].
Qed.

Lemma run_read_failure_escapes_witness :
  let w := SweepWorker.init sample_app dead_vna in
  let out := SweepWorker.run parse_hz no_delay 1 w in
  out.1 = Raise (IOError (SweepWorker.giving_up "data 0" 10)) ∧
  SweepWorker.running out.2 = true ∧ SweepWorker.stopped out.2 = false ∧
  SweepWorker.error_message out.2 = SweepWorker.error_message w ∧
  SweepWorker.data11 out.2 = SweepWorker.data11 w ∧
  SweepWorker.data21 out.2 = SweepWorker.data21 w ∧
  SweepWorker.trace out.2
  = SweepWorker.trace w ++
    [DevSetSweep 1000000 2000000; DevReadFrequencies]
    ++ replicate 10 (DevReadValues "data 0").
Proof.
  intros w.
  apply (run_read_failure_escapes parse_hz no_delay 0 w
           (Sweep.mk 1000000 2000000 101 1 1000000 10000) 1);
    try reflexivity.
  intros i Hi. cbn.
  exists ["0.5 0.1"], "0.0 -10", [].
  split; [done|]. split; [repeat constructor; by exists "0.5", "0.1"|].
  exists "0.0", "-10", (number "0.0").
  split; [vm_compute; reflexivity|]. split; [vm_compute; reflexivity|].
  right. exists (number "-10"). split; [vm_compute; reflexivity|]. by vm_compute.
Defined.

Section NoRepeats.

Import SweepWorker.

Variable parse_frequency : string → Z.
Variable correct_delay : Datapoint → Qc → bool → Datapoint.

(** Averaging over no repeat at all: nothing is read, and the mean of
    nothing is not a list. *)
Lemma readAveragedSegment_none (start stop : Z) (w : t) :
  averages w ≤ 0 →
  readAveragedSegment start stop (averages w) w = (Ok ([], None, None), w).
Proof.
  intros Hzero. unfold readAveragedSegment.
  replace (Z.to_nat (averages w)) with 0%nat by lia. cbn [averaging_loop].
  unfold mbind, M_mbind, bind, ret, get, lift, Averaging.truncate.
  cbn [length fst snd]. change (Z.of_nat 0) with 0.
  destruct (bool_decide (truncates w < 1) || bool_decide (0 - truncates w < 1)) eqn:E;
    [done|].
  apply orb_false_elim in E as [E1%bool_decide_eq_false E2%bool_decide_eq_false]. lia.
Qed.

Lemma sweeping_no_repeats (fuel : nat) (b : buffers) (w : t) :
  stopped w = false → averaging w = true → averages w ≤ 0 →
  0 < Sweep.sweeps (sweep w) →
  sweeping correct_delay (S fuel) true b w
  = (Raise (TypeError "'float' object is not iterable"),
     set_percentage w (Qc_of_Z 100 / Qc_of_Z (Sweep.sweeps (sweep w)))%Qc).
Proof.
  intros Hstop Havg Hzero Hn.
  cbn [sweeping]. unfold mbind at 1 2, M_mbind, bind, get.
  destruct (Z.to_nat (Sweep.sweeps (sweep w))) as [|m] eqn:Hm; [lia|].
  cbn [seq segments]. unfold mbind at 1, M_mbind, bind.
  unfold segment. unfold mbind at 1, M_mbind, bind, get. rewrite Hstop, Havg.
  destruct (Sweep.get_index_range (sweep w) (Z.of_nat 0)) as [start stop].
  destruct b as [[F V11] V21].
  unfold except_ValueError, mbind, M_mbind, bind, ret, mret, M_mret, ret, lift,
    modify. cbv beta.
  rewrite readAveragedSegment_none by done.
  unfold truediv. rewrite decide_False by lia. cbn [negb extend]. done.
Qed.

End NoRepeats.

(** X17. Averaging over no repeat.  On a connected session with legal
    settings that differ from the worker's current plan, with averaging
    switched on and a number of averages of zero or less, [run] reads
    nothing from the device: the mean of no repeat is not a list, so
    extending the values raises [TypeError], which [run] does not catch.
    No signal is emitted and the worker is left marked as running. *)
Theorem run_no_repeats_escapes (parse_frequency : string → Z)
    (correct_delay : Datapoint → Qc → bool → Datapoint)
    (fuel : nat) (w : SweepWorker.t) (sw : Sweep.t) (n : Z) :
  VNA.connected (SweepWorker.vna w) = true →
  SweepWorker.stopped w = false → SweepWorker.averaging w = true →
  SweepWorker.averages w ≤ 0 →
  Py.int (App.sweepCountInput (SweepWorker.app w)) = Ok n →
  Sweep.init (parse_frequency (App.sweepStartInput (SweepWorker.app w)))
             (parse_frequency (App.sweepEndInput (SweepWorker.app w)))
             (VNA.datapoints (SweepWorker.vna w)) n = Ok sw →
  Sweep.eqb sw (SweepWorker.sweep w) = false →
  let out := SweepWorker.run parse_frequency correct_delay (S fuel) w in
  out.1 = Raise (TypeError "'float' object is not iterable") ∧
  SweepWorker.running out.2 = true ∧ SweepWorker.stopped out.2 = false ∧
  SweepWorker.sweep out.2 = sw ∧
  SweepWorker.data11 out.2 = SweepWorker.data11 w ∧
  SweepWorker.data21 out.2 = SweepWorker.data21 w ∧
  SweepWorker.reads out.2 = SweepWorker.reads w ∧
  SweepWorker.trace out.2 = SweepWorker.trace w.
Proof.
  intros Hup Hstop Havg Hzero Hcount Hinit Hfirst out. subst out.
  assert (Sweep.sweeps sw = n ∧ 0 < n) as [Hn Hpos].
  { apply init_inv in Hinit as (-> & _ & ? & _). done. }
  rewrite run_plan by done. cbn zeta. rewrite Hcount.
  cbn [mbind result_mbind result_bind]. rewrite Hinit, Hfirst.
  unfold mbind, SweepWorker.M_mbind, SweepWorker.bind. cbn [negb].
  rewrite sweeping_no_repeats; destruct w; cbn in *; first [done|lia].
Qed.

Lemma run_no_repeats_escapes_witness :
  let w := SweepWorker.setAveraging (SweepWorker.init sample_app steady_vna)
             true "0" "0" in
  let out := SweepWorker.run parse_hz no_delay 1 w in
  out.1 = Raise (TypeError "'float' object is not iterable") ∧
  SweepWorker.running out.2 = true ∧ SweepWorker.stopped out.2 = false ∧
  SweepWorker.sweep out.2 = Sweep.mk 1000000 2000000 101 1 1000000 10000 ∧
  SweepWorker.data11 out.2 = SweepWorker.data11 w ∧
  SweepWorker.data21 out.2 = SweepWorker.data21 w ∧
  SweepWorker.reads out.2 = SweepWorker.reads w ∧
  SweepWorker.trace out.2 = SweepWorker.trace w.
Proof.
  intros w.
  apply (run_no_repeats_escapes parse_hz no_delay 0 w
           (Sweep.mk 1000000 2000000 101 1 1000000 10000) 1);
    (reflexivity || (cbn; lia)).
Defined.

(** ** Further properties of the Touchstone reader *)

Section StoredData.

Import Touchstone.

(** What storing the values of one line adds to each slot. *)
Lemma store_values_adds (fmt : string) (f : Qc) (n : nat) :
  ∀ (vals : list string) (slot : nat) (sdata sdata' : list (list Datapoint)),
  (length vals ≤ n)%nat →
  store_values fmt f vals slot sdata = Ok sdata' →
  length sdata' = length sdata ∧
  ∀ j l, sdata !! j = Some l →
    ∃ new, sdata' !! j = Some (l ++ new) ∧
      map freq new =
        if decide (fmt = "ri" ∧ (slot ≤ j < slot + length vals `div` 2)%nat)
        then [f] else [].
Proof.
  induction n as [|n IH]; intros vals slot sdata sdata' Hlen;
    destruct vals as [|v vals]; cbn [store_values length] in *; try lia.
  1,2: intros [= <-]; split; [done|]; intros j l Hl; exists [];
       rewrite app_nil_r; split; [done|];
       destruct (decide _) as [[_ H]|_]; [|done];
       change (0 `div` 2)%nat with 0%nat in H; lia.
  destruct (decide (fmt = "ri")) as [->|Hri].
  - destruct (decide (slot < length sdata)%nat) as [Hslot|Hslot]; [|discriminate].
    destruct (Py.float v) as [a|] eqn:Ha; [|discriminate].
    cbn [mbind result_mbind result_bind].
    destruct vals as [|v' vals]; [discriminate|].
    destruct (Py.float v') as [b|] eqn:Hb; [|discriminate].
    cbn [mbind result_mbind result_bind]. intros Hstore.
    apply IH in Hstore as [Hlen' Hslots]; [|cbn in Hlen; lia].
    unfold append_slot in *. rewrite length_alter in Hlen'. split; [done|].
    intros j l Hl. cbn [length].
    replace (S (S (length vals)) `div` 2)%nat with (S (length vals `div` 2))
      by (change (S (S (length vals))) with (1 * 2 + length vals)%nat;
          rewrite Nat.div_add_l by lia; lia).
    destruct (decide (j = slot)) as [->|Hne].
    + destruct (Hslots slot (l ++ [mkDatapoint f a b])) as (new & Hnew & Hfreq).
      { by rewrite list_lookup_alter_eq, Hl. }
      exists (mkDatapoint f a b :: new). rewrite Hnew, <-app_assoc. split; [done|].
      cbn [map]. rewrite Hfreq.
      rewrite decide_False by lia. rewrite decide_True by (split; [done|lia]). done.
    + destruct (Hslots j l) as (new & Hnew & Hfreq).
      { by rewrite list_lookup_alter_ne. }
      exists new. split; [done|]. rewrite Hfreq.
      destruct (decide (S slot ≤ j < S slot + length vals `div` 2)%nat).
      * rewrite !decide_True by (split; [done|lia]). done.
      * rewrite !decide_False by (intros [_ ?]; lia). done.
  - assert (∀ sd, store_values fmt f vals slot sd = Ok sdata' →
              length sdata' = length sd ∧
              ∀ j l, sd !! j = Some l → ∃ new, sdata' !! j = Some (l ++ new) ∧
                map freq new = []) as Hrest.
    { intros sd Hstore. apply IH in Hstore as [Hlen' Hslots]; [|lia].
      split; [done|]. intros j l Hl. destruct (Hslots j l Hl) as (new & Hnew & Hfreq).
      exists new. split; [done|]. rewrite Hfreq. by rewrite decide_False by tauto. }
    destruct (decide (fmt = "ma")) as [Hma|Hma].
    + destruct (Py.float v); [|discriminate]. cbn [mbind result_mbind result_bind].
      destruct vals as [|v' vals]; [discriminate|].
      destruct (Py.float v'); discriminate.
    + intros Hstore. destruct (Hrest sdata Hstore) as [Hlen' Hslots].
      split; [done|]. intros j l Hl. destruct (Hslots j l Hl) as (new & Hnew & Hfreq).
      exists new. split; [done|]. rewrite Hfreq. by rewrite decide_False by tauto.
Qed.

Lemma extends_refl (sdata : list (list Datapoint)) : extends sdata sdata.
Proof. split; [done|]. intros slot l Hl. exists []. by rewrite app_nil_r. Qed.

Lemma extends_trans (a b c : list (list Datapoint)) :
  extends a b → extends b c → extends a c.
Proof.
  intros [Lab Hab] [Lbc Hbc]. split; [congruence|]. intros slot l Hl.
  destruct (Hab slot l Hl) as (new & Hnew). destruct (Hbc slot _ Hnew) as (new' & Hnew').
  exists (new ++ new'). by rewrite app_assoc.
Qed.

Lemma data_lines_extends (o : Options.t) (file : list string) :
  ∀ c c', data_lines o file c = Ok c' → extends (cur_sdata c) (cur_sdata c').
Proof.
  induction file as [|line file IH]; intros c c'; cbn [data_lines].
  - intros [= <-]. apply extends_refl.
  - case_decide; [apply IH|].
    destruct (data_line o line c) as [c1|] eqn:Hline; [|discriminate].
    cbn [mbind result_mbind result_bind]. intros Hrest%IH.
    eapply extends_trans; [|exact Hrest].
    destruct (fields o line) as [[f d]|] eqn:Hf;
      [|unfold data_line in Hline; by rewrite Hf in Hline].
    rewrite (data_line_unfold _ _ _ _ _ Hf) in Hline.
    destruct (decide (f ≤ prev_freq c)%Qc); [discriminate|]. cbn zeta in Hline.
    destruct (Nat.even (length d)); [|discriminate]. cbn [negb] in Hline.
    destruct (decide (length d ≠ _)); [discriminate|].
    destruct (store_values _ _ _ _ _) as [sdata'|] eqn:Hstore; [|discriminate].
    injection Hline as <-. cbn [cur_sdata].
    apply (store_values_adds _ _ (length d)) in Hstore as [Hlen Hslots]; [|done].
    split; [done|]. intros slot l Hl. destruct (Hslots slot l Hl) as (new & ? & _).
    by exists new.
Qed.

Lemma parse_comments_extends (fp : list string) :
  ∀ (cm cm' : list string) (ol : option string) (rest : list string),
  parse_comments fp cm = (cm', ol, rest) →
  ∃ new, cm' = cm ++ new ∧ Forall (λ l, Py.startswith "!" l = true) new.
Proof.
  induction fp as [|line fp IH]; intros cm cm' ol rest; cbn [parse_comments].
  - intros [= <- _ _]. exists []. by rewrite app_nil_r.
  - destruct (Py.startswith "!" (Py.strip line)) eqn:Hbang.
    + intros (new & -> & Hnew)%IH. exists (Py.strip line :: new).
      rewrite <-app_assoc. split; [done|]. by constructor.
    + intros [= <- _ _]. exists []. by rewrite app_nil_r.
Qed.

End StoredData.

(** X18. [loads] only adds to a Touchstone object.  When it succeeds,
    the file name is kept, every parameter slot holds what it held
    before followed by the points read, and the comments are those held
    before followed by the comment lines that precede the options
    line. *)
Theorem loads_appends (ts ts' : Touchstone.t) (s : string) :
  Touchstone.loads ts s = Ok ts' →
  Touchstone.filename ts' = Touchstone.filename ts ∧
  extends (Touchstone.sdata ts) (Touchstone.sdata ts') ∧
  ∃ new, Touchstone.comments ts' = Touchstone.comments ts ++ new ∧
         Forall (λ l, Py.startswith "!" l = true) new.
Proof.
  unfold Touchstone.loads.
  destruct (Touchstone.parse_comments _ _) as [[cm [ol|]] file] eqn:Hcm; [|discriminate].
  destruct (Options.parse _ ol) as [o|]; [|discriminate].
  cbn [mbind result_mbind result_bind].
  destruct (Touchstone.data_lines o file _) as [c|] eqn:Hlines; [|discriminate].
  cbn [mbind result_mbind result_bind]. intros [= <-]. cbn.
  split; [done|]. split.
  - by apply data_lines_extends in Hlines.
  - by eapply parse_comments_extends.
Qed.

Lemma loads_appends_witness :
  ∃ ts', Touchstone.loads loaded_before ascending_frequencies = Ok ts' ∧
         Touchstone.filename ts' = Touchstone.filename loaded_before ∧
         extends (Touchstone.sdata loaded_before) (Touchstone.sdata ts') ∧
         ∃ new, Touchstone.comments ts' = Touchstone.comments loaded_before ++ new ∧
                Forall (λ l, Py.startswith "!" l = true) new.
Proof.
  eexists. split; [vm_compute; reflexivity|].
  apply (loads_appends loaded_before _ ascending_frequencies). vm_compute; reflexivity.
Defined.

Section Axis.

Import Touchstone.



End Axis.



Section OptionKinds.

(** Membership in a list given by its elements. *)
Ltac in_list := repeat first [apply list_elem_of_here | apply list_elem_of_further].

Lemma parameter_tokens (p : string) :
  is_parameter p = true →
  p ∈ [""; "s"; "sy"; "syz"; "syzg"; "syzgh"; "y"; "yz"; "yzg"; "yzgh";
       "z"; "zg"; "zgh"; "g"; "gh"; "h"].
Proof.
  unfold is_parameter. intros H.
  repeat (destruct p as [|? p]; [in_list|];
          cbn in H;
          repeat match type of H with
          | context [bool_decide (?c = ?d)] =>
              destruct (bool_decide_reflect (c = d)); [subst|]; cbn in H
          end; try discriminate).
Qed.

Lemma unit_tokens (p : string) :
  Options.is_unit p = true → p ∈ ["ghz"; "mhz"; "khz"; "hz"].
Proof.
  unfold Options.is_unit. intros H.
  repeat (apply orb_prop in H as [H|H]); apply bool_decide_eq_true in H as ->; in_list.
Qed.

Lemma format_tokens (p : string) :
  Options.is_format p = true → p ∈ ["ma"; "db"; "ri"].
Proof.
  unfold Options.is_format. intros H.
  repeat (apply orb_prop in H as [H|H]); apply bool_decide_eq_true in H as ->; in_list.
Qed.

(** A token of one kind is of no other kind, is not [r], and is not a
    number. *)
Lemma unit_only (p : string) :
  Options.is_unit p = true →
  is_parameter p = false ∧ Options.is_format p = false ∧ p ≠ "r" ∧ is_Raise (Py.int p).
Proof.
  intros H%unit_tokens. repeat (apply elem_of_cons in H as [->|H]);
    [..|by apply elem_of_nil in H];
    (split; [done|]; split; [done|]; split; [done|]; by eexists).
Qed.

Lemma parameter_only (p : string) :
  is_parameter p = true →
  Options.is_unit p = false ∧ Options.is_format p = false ∧ p ≠ "r" ∧ is_Raise (Py.int p).
Proof.
  intros H%parameter_tokens. repeat (apply elem_of_cons in H as [->|H]);
    [..|by apply elem_of_nil in H];
    (split; [done|]; split; [done|]; split; [done|]; by eexists).
Qed.

Lemma format_only (p : string) :
  Options.is_format p = true →
  Options.is_unit p = false ∧ is_parameter p = false ∧ p ≠ "r" ∧ is_Raise (Py.int p).
Proof.
  intros H%format_tokens. repeat (apply elem_of_cons in H as [->|H]);
    [..|by apply elem_of_nil in H];
    (split; [done|]; split; [done|]; split; [done|]; by eexists).
Qed.

Context {V : Type} (K : string → bool) (value : string → V).

Lemma kind_ok_nil (flag : bool) (old : V) : kind_ok K flag old old value [].
Proof.
  destruct flag; cbn; [by split|]. split; [lia|]. split; [|done].
  intros u Hu. by apply elem_of_nil in Hu.
Qed.

(** A token of another kind leaves the account of the kind as it is. *)
Lemma kind_ok_skip (flag : bool) (old new : V) (p : string) (rest : list string) :
  K p = false → kind_ok K flag old new value rest →
  kind_ok K flag old new value (p :: rest).
Proof.
  intros Hp. destruct flag; cbn.
  - intros [Hnone ->]. split; [by constructor|done].
  - rewrite Hp. intros (Hcount & Hval & Hold). split; [done|]. split.
    + intros u [->|Hu]%elem_of_cons Hk; [congruence|by apply Hval].
    + intros [_ Hnone]%Forall_cons. by apply Hold.
Qed.

(** The first token of the kind sets the flag and the field. *)
Lemma kind_ok_take (old new : V) (p : string) (rest : list string) :
  K p = true → kind_ok K true (value p) new value rest →
  kind_ok K false old new value (p :: rest).
Proof.
  intros Hp. cbn. rewrite Hp. intros [Hnone ->]. split.
  - cbn. assert (List.filter K rest = []) as ->; [|done].
    induction Hnone as [|q rest Hq _ IH]; cbn; [done|]. by rewrite Hq.
  - split.
    + intros u [->|Hu]%elem_of_cons Hk; [done|].
      rewrite Forall_forall in Hnone. rewrite (Hnone u Hu) in Hk. discriminate.
    + intros [Hk _]%Forall_cons. congruence.
Qed.

End OptionKinds.

Section OptionParse.

Import Options.

Lemma parse_params_kinds (line : string) (n : nat) :
  ∀ (params : list string) (o o' : t) (pfact pparam pformat presist : bool),
  (length params ≤ n)%nat →
  parse_params line params o pfact pparam pformat presist = Ok o' →
  kind_ok is_unit pfact (factor o) (factor o') UNIT_TO_FACTOR params ∧
  kind_ok is_parameter pparam (parameter o) (parameter o') id params ∧
  kind_ok is_format pformat (format o) (format o') id params.
Proof.
  induction n as [|n IH]; intros params o o' pfact pparam pformat presist Hlen;
    destruct params as [|p rest]; cbn [parse_params length] in *; try lia.
  1,2: intros [= <-]; auto using kind_ok_nil.
  destruct (is_unit p) eqn:Hunit; [destruct pfact|]; cbn [negb andb].
  - (* a second unit *)
    destruct (unit_only p Hunit) as (Hpar & Hfmt & Hr & Hint).
    fold (is_parameter p). rewrite Hpar, Hfmt. cbn [andb].
    by rewrite bool_decide_eq_false_2.
  - (* the unit *)
    destruct (unit_only p Hunit) as (Hpar & Hfmt & _).
    intros (Hu & Hp & Hf)%IH; [|lia]. cbn [factor parameter format] in *.
    split; [by apply kind_ok_take|]. split; by apply kind_ok_skip.
  - fold (is_parameter p). destruct (is_parameter p) eqn:Hpar;
      [destruct pparam|]; cbn [negb andb].
    + (* a second parameter *)
      destruct (parameter_only p Hpar) as (_ & Hfmt & Hr & _).
      rewrite Hfmt. cbn [andb]. by rewrite bool_decide_eq_false_2.
    + (* the parameter *)
      destruct (parameter_only p Hpar) as (_ & Hfmt & _).
      intros (Hu & Hp & Hf)%IH; [|lia]. cbn [factor parameter format] in *.
      split; [by apply kind_ok_skip|]. split; [|by apply kind_ok_skip].
      by apply (kind_ok_take is_parameter id).
    + destruct (is_format p) eqn:Hfmt; [destruct pformat|]; cbn [negb andb].
      * (* a second format *)
        destruct (format_only p Hfmt) as (_ & _ & Hr & _).
        by rewrite bool_decide_eq_false_2.
      * (* the format *)
        intros (Hu & Hp & Hf)%IH; [|lia]. cbn [factor parameter format] in *.
        split; [by apply kind_ok_skip|]. split; [by apply kind_ok_skip|].
        by apply (kind_ok_take is_format id).
      * (* the resistance, or an illegal token *)
        case_bool_decide as Hr; [|discriminate]. destruct presist; [discriminate|].
        cbn [negb andb]. destruct rest as [|v rest]; [discriminate|].
        destruct (Py.int v) as [r|] eqn:Hint; [|discriminate].
        cbn [mbind result_mbind result_bind].
        intros (Hu & Hp & Hf)%IH; [|cbn in Hlen; lia].
        cbn [factor parameter format] in *.
        assert (is_unit v = false ∧ is_parameter v = false ∧ is_format v = false)
          as (Hvu & Hvp & Hvf).
        { split; [|split].
          - destruct (is_unit v) eqn:E; [|done].
            destruct (unit_only v E) as (_ & _ & _ & [e He]). congruence.
          - destruct (is_parameter v) eqn:E; [|done].
            destruct (parameter_only v E) as (_ & _ & _ & [e He]). congruence.
          - destruct (is_format v) eqn:E; [|done].
            destruct (format_only v E) as (_ & _ & _ & [e He]). congruence. }
        split; [|split]; (apply kind_ok_skip; [done|]); by apply kind_ok_skip.
Qed.

End OptionParse.

(** X20. What an options line that parses says.  When [Options.parse]
    succeeds, the line holds at most one frequency unit, at most one
    parameter token (a substring of [syzgh]) and at most one format; the
    factor, the parameter and the format of the result are those of the
    token present, and those held before when there is none. *)
Theorem options_parse_settles (o o' : Options.t) (line : string) :
  Options.parse o line = Ok o' →
  settles Options.is_unit (Options.factor o) (Options.factor o')
          Options.UNIT_TO_FACTOR (option_tokens line) ∧
  settles is_parameter (Options.parameter o) (Options.parameter o') id
          (option_tokens line) ∧
  settles Options.is_format (Options.format o) (Options.format o') id
          (option_tokens line).
Proof.
  unfold Options.parse. destruct (Py.startswith "#" line); [|discriminate].
  cbn [negb]. destruct line as [|c tail]; cbn [option_tokens].
  - intros [= <-]. repeat split; try (cbn; lia); try done;
      intros u Hu; by apply elem_of_nil in Hu.
  - intros H. by apply (parse_params_kinds _ (length (Py.split (Py.lower tail)))) in H.
Qed.

Lemma options_parse_settles_witness :
  let o' := Options.mk 1 "s" "ri" 75 in
  Options.parse Options.init "# Hz S RI R 75" = Ok o' ∧
  settles Options.is_unit (Options.factor Options.init) (Options.factor o')
          Options.UNIT_TO_FACTOR ["hz"; "s"; "ri"; "r"; "75"] ∧
  settles is_parameter (Options.parameter Options.init) (Options.parameter o') id
          ["hz"; "s"; "ri"; "r"; "75"] ∧
  settles Options.is_format (Options.format Options.init) (Options.format o') id
          ["hz"; "s"; "ri"; "r"; "75"].
Proof.
  intros o'. split; [reflexivity|].
  apply (options_parse_settles Options.init o' "# Hz S RI R 75"). reflexivity.
Defined.

(** ** Ordered arithmetic of the rationals behind the floats *)









(** ** Properties of the markers *)

Section Markers.

Import Marker.









End Markers.






(** ** Properties of the impedance conversion *)

Section Impedance.

Import RFTools.









End Impedance.





(** ** Properties of the calibration files *)

Section CalibrationLoad.

Import Calibration.

Lemma load_line_order (l : string) (c : Calibration.t) :
  filled_in_order c →
  filled_in_order (load_line l c).2 ∧ derived (load_line l c).2 = derived c.
Proof.
  unfold filled_in_order, load_line. intros (H1 & H2 & H3 & H4).
  destruct (decide (count_spaces l = 6%nat)).
  - destruct (Py.split_on " " l) as [|f [|a1 [|a2 [|a3 [|a4 [|a5 [|a6 [|a7 fs]]]]]]]];
      cbn [snd]; try done.
    destruct (read_point f a1 a2); cbn [snd]; [|done].
    destruct (read_point f a3 a4); cbn; [|rewrite ?length_app; cbn; split; [lia|done]].
    destruct (read_point f a5 a6); cbn; rewrite ?length_app; cbn; (split; [lia|done]).
  - destruct (Py.split_on " " l)
      as [|f [|a1 [|a2 [|a3 [|a4 [|a5 [|a6 [|a7 [|a8 [|a9 [|a10 [|a11 fs]]]]]]]]]]]];
      cbn [snd]; try done.
    destruct (read_point f a1 a2); cbn [snd]; [|done].
    destruct (read_point f a3 a4); cbn; [|rewrite ?length_app; cbn; split; [lia|done]].
    destruct (read_point f a5 a6); cbn; [|rewrite ?length_app; cbn; split; [lia|done]].
    destruct (read_point f a7 a8); cbn; [|rewrite ?length_app; cbn; split; [lia|done]].
    destruct (read_point f a9 a10); cbn; rewrite ?length_app; cbn; (split; [lia|done]).
Qed.

Lemma load_lines_order (lines : list string) : ∀ (parsed_header : bool) (c : Calibration.t),
  filled_in_order c →
  filled_in_order (load_lines lines parsed_header c) ∧
  derived (load_lines lines parsed_header c) = derived c.
Proof.
  induction lines as [|l lines IH]; intros ph c Hc; cbn [load_lines]; [done|].
  destruct (Py.startswith "!" (Py.strip l)); [by apply IH|].
  destruct (Py.startswith "#" (Py.strip l) && negb ph).
  { destruct (decide (Py.strip l = header_line)); by apply IH. }
  destruct (negb ph); [by apply IH|].
  destruct (load_line_order (Py.strip l) c Hc) as [Ho Hd].
  destruct (load_line (Py.strip l) c) as [[[]|e] c']; cbn [snd] in *.
  - destruct (IH ph c' Ho) as [? ?]. split; [done|congruence].
  - destruct e; try done. destruct (IH ph c' Ho) as [? ?]. split; [done|congruence].
Qed.

Lemma load_lines_headerless (lines : list string) (c : Calibration.t) :
  (∀ l, l ∈ lines → Py.strip l ≠ header_line) →
  load_lines lines false c = c.
Proof.
  induction lines as [|l lines IH]; intros Hno; cbn [load_lines]; [done|].
  assert (load_lines lines false c = c) as ->
    by (apply IH; intros l' Hl'; apply Hno; by apply list_elem_of_further).
  destruct (Py.startswith "!" (Py.strip l)); [done|].
  rewrite andb_true_r. cbn [negb].
  destruct (Py.startswith "#" (Py.strip l)); [|done].
  rewrite decide_False; [done|]. apply Hno. apply list_elem_of_here.
Qed.

End CalibrationLoad.

(** X26. What [loadCalibration] keeps.  With an empty file name it changes
    nothing.  Otherwise, whatever the file holds, the five lists of
    standards come out filled in the order short, open, load, through,
    isolation, none longer than the one before it, and in both cases
    the error terms, the flags of the ideal standards and [isCalculated]
    are those from before the call. *)
Theorem loadCalibration_keeps (filename : string) (file : option string)
    (c : Calibration.t) :
  Calibration.loadCalibration "" file c = c ∧
  (filename ≠ EmptyString →
   filled_in_order (Calibration.loadCalibration filename file c)) ∧
  derived (Calibration.loadCalibration filename file c) = derived c.
Proof.
  unfold Calibration.loadCalibration. split; [done|].
  destruct (decide (filename = EmptyString)) as [->|Hname]; [done|].
  destruct file as [text|].
  - match goal with |- context [Calibration.load_lines ?ls ?b ?c0] =>
      destruct (load_lines_order ls b c0) as [Ho Hd] end.
    { unfold filled_in_order. cbn. lia. }
    split; [done|]. by rewrite Hd.
  - split; [|done]. intros _. unfold filled_in_order. cbn. lia.
Qed.

(** X27. A file without the header line loads nothing.  When the file
    cannot be opened, or none of its lines is the header line
    [# Hz ShortR ... IsolationI], [loadCalibration] under a proper file
    name leaves all five lists of standards empty, whatever they held
    before and whatever data lines the file has. *)
Theorem loadCalibration_needs_header (filename : string) (file : option string)
    (c : Calibration.t) :
  filename ≠ EmptyString →
  (∀ text, file = Some text → headerless text) →
  measurements (Calibration.loadCalibration filename file c) = ([], [], [], [], []).
Proof.
  intros Hname Hno. unfold Calibration.loadCalibration.
  rewrite decide_False by done. destruct file as [text|]; [|done].
  rewrite load_lines_headerless; [done|]. by apply Hno.
Qed.

Lemma loadCalibration_needs_header_witness :
  measurements (Calibration.loadCalibration "cal.txt" (Some headerless_file)
                  measured_standards) = ([], [], [], [], []).
Proof.
  apply (loadCalibration_needs_header "cal.txt" (Some headerless_file)
           measured_standards); [done|].
  intros text [= <-] l Hl.
  assert (Py.lines headerless_file = [headerless_file]) as Hlines
    by (vm_compute; reflexivity).
  rewrite Hlines in Hl. apply list_elem_of_singleton in Hl as ->.
  intros H. vm_compute in H. discriminate.
Defined.

Section CalibrationAfterLoad.

Import Calibration.

Variable shortModel openModel loadModel : Qc → result Complex.t.

Lemma calculateCorrections_reads (c c' : Calibration.t) :
  calculateCorrections shortModel openModel loadModel c = Ok (c', Some true) →
  (0 < length (s11short c))%nat ∧
  (length (s11short c) ≤ length (s11open c))%nat ∧
  (length (s11short c) ≤ length (s11load c))%nat ∧
  (s21isolation c ≠ [] → s21through c ≠ [] →
   (length (s11short c) ≤ length (s21through c))%nat ∧
   (length (s11short c) ≤ length (s21isolation c))%nat).
Proof.
  intros Hcalc.
  assert (isValid1Port c = true) as Hvalid.
  { unfold calculateCorrections in Hcalc.
    destruct (isValid1Port c); [done|]. cbn in Hcalc. by injection Hcalc. }
  apply calculateCorrections_terms in Hcalc as (_ & _ & _ & Hterms).
  assert (0 < length (s11short c))%nat as Hpos.
  { unfold isValid1Port in Hvalid.
    apply andb_prop in Hvalid as [[H1%bool_decide_eq_true _]%andb_prop _]. done. }
  assert (∀ j, (j < length (s11short c))%nat →
            (j < length (s11open c))%nat ∧ (j < length (s11load c))%nat ∧
            (isValid2Port c = true →
             (j < length (s21through c))%nat ∧ (j < length (s21isolation c))%nat))
    as Hall.
  { intros j Hj.
    destruct (Hterms j Hj) as (g & gm & v & (sh & op & ld & _ & Hop & Hld & _) & _ & _ & _ & _ & H2).
    apply lookup_lt_Some in Hop, Hld. do 2 (split; [done|]).
    intros E2. destruct (H2 E2) as (iso & thr & Hiso%lookup_lt_Some & Hthr%lookup_lt_Some & _).
    done. }
  destruct (Hall (length (s11short c) - 1)%nat ltac:(lia)) as (Ho & Hl & H2).
  split; [done|]. split; [lia|]. split; [lia|].
  intros Hiso Hthr.
  assert (isValid2Port c = true) as E2.
  { unfold isValid2Port. rewrite Hvalid.
    destruct (s21through c), (s21isolation c); done. }
  destruct (H2 E2). lia.
Qed.

End CalibrationAfterLoad.

(** X28. Calculating from a loaded file.  When [calculateCorrections]
    reports success on a calibration that [loadCalibration] has just
    filled, every row of the lists is complete: short, open and load have
    the same, positive, number of points, and through and isolation
    either have that number too or isolation is empty.  A file with a
    row that stops parsing part of the way, or that mixes rows with and
    without the through and isolation fields, therefore never calculates
    successfully. *)
Theorem calculate_after_load (shortModel openModel loadModel : Qc → result Complex.t)
    (filename : string) (file : option string) (c c' : Calibration.t) :
  filename ≠ EmptyString →
  Calibration.calculateCorrections shortModel openModel loadModel
    (Calibration.loadCalibration filename file c) = Ok (c', Some true) →
  (0 < length (Calibration.s11short (Calibration.loadCalibration filename file c)))%nat ∧
  rows_complete (Calibration.loadCalibration filename file c).
Proof.
  intros Hname Hcalc.
  apply calculateCorrections_reads in Hcalc as (Hpos & Ho & Hl & H2).
  assert (filled_in_order (Calibration.loadCalibration filename file c))
    as (F1 & F2 & F3 & F4).
  { unfold Calibration.loadCalibration. rewrite decide_False by done.
    destruct file as [text|].
    - apply load_lines_order. unfold filled_in_order. cbn. lia.
    - unfold filled_in_order. cbn. lia. }
  split; [done|]. unfold rows_complete. split; [lia|]. split; [lia|].
  destruct (Calibration.s21isolation (Calibration.loadCalibration filename file c))
    as [|iso isos] eqn:Eiso; [by left|right].
  destruct (Calibration.s21through (Calibration.loadCalibration filename file c))
    as [|thr thrs] eqn:Ethr; [cbn in F1; lia|].
  destruct H2 as [H2 H3]; [done..|]. lia.
Qed.

Lemma calculate_after_load_witness :
  ∃ c', Calibration.calculateCorrections no_model no_model no_model
          (Calibration.loadCalibration "cal.txt" (Some one_port_file)
             Calibration.fresh) = Ok (c', Some true) ∧
    (0 < length (Calibration.s11short
                   (Calibration.loadCalibration "cal.txt" (Some one_port_file)
                      Calibration.fresh)))%nat ∧
    rows_complete (Calibration.loadCalibration "cal.txt" (Some one_port_file)
                     Calibration.fresh).
Proof.
  eexists. split; [vm_compute; reflexivity|].
  eapply (calculate_after_load no_model no_model no_model "cal.txt"
            (Some one_port_file) Calibration.fresh); [done|].
  vm_compute; reflexivity.
Defined.

(** ** Strings of fields *)

Section Fields.

Lemma append_nil (b : string) : EmptyString +:+ b = b.
Proof. reflexivity. Qed.

Lemma append_cons (x : ascii) (a b : string) : String x a +:+ b = String x (a +:+ b).
Proof. reflexivity. Qed.

Lemma append_nil_r (a : string) : a +:+ EmptyString = a.
Proof. induction a as [|x a IH]; [done|]. by rewrite append_cons, IH. Qed.

Lemma append_assoc (a b c : string) : (a +:+ b) +:+ c = a +:+ b +:+ c.
Proof. induction a as [|x a IH]; [done|]. by rewrite !append_cons, IH. Qed.

Lemma all_chars_app (p : ascii → bool) (a b : string) :
  all_chars p (a +:+ b) = all_chars p a && all_chars p b.
Proof.
  induction a as [|x a IH]; [done|]. rewrite append_cons. cbn [all_chars].
  by rewrite IH, andb_assoc.
Qed.

Lemma all_chars_impl (p q : ascii → bool) (s : string) :
  (∀ c, p c = true → q c = true) → all_chars p s = true → all_chars q s = true.
Proof.
  intros Hpq. induction s as [|x s IH]; cbn; [done|].
  intros [Hx Hs]%andb_prop. by rewrite (Hpq x Hx), IH.
Qed.

(** A field: a string without whitespace that is not empty. *)
Lemma lines_from_line (s rest : string) : ∀ cur,
  all_chars (λ c, negb (bool_decide (c = "010"%char))) s = true →
  Py.lines_from cur (s +:+ Py.nl +:+ rest)
  = (cur +:+ s +:+ Py.nl) :: Py.lines_from EmptyString rest.
Proof.
  induction s as [|x s IH]; intros cur;
    rewrite ?append_nil, ?append_cons; cbn [all_chars].
  - intros _. unfold Py.nl. rewrite append_cons, append_nil. cbn [Py.lines_from].
    by rewrite decide_True.
  - intros [Hx Hs]%andb_prop. apply negb_true_iff, bool_decide_eq_false in Hx.
    cbn [Py.lines_from]. rewrite decide_False by done. rewrite IH by done.
    by rewrite append_assoc, append_cons, append_nil.
Qed.

Lemma rstrip_newline (s : string) : Py.rstrip (s +:+ Py.nl) = Py.rstrip s.
Proof.
  induction s as [|x s IH]; [done|]. rewrite append_cons. cbn [Py.rstrip].
  by rewrite IH.
Qed.

Lemma rstrip_append (a b : string) :
  Py.rstrip b = b → b ≠ EmptyString → Py.rstrip (a +:+ b) = a +:+ b.
Proof.
  intros Hb Hne. induction a as [|x a IH]; [done|].
  rewrite append_cons. cbn [Py.rstrip].
  rewrite IH. destruct (a +:+ b) eqn:E; [|done].
  destruct a; [by rewrite append_nil in E|by rewrite append_cons in E].
Qed.

Lemma rstrip_field (f : string) : spaceless f = true → Py.rstrip f = f.
Proof.
  unfold spaceless. induction f as [|x f IH]; cbn [all_chars Py.rstrip]; [done|].
  intros [Hx Hf]%andb_prop. rewrite IH by done. apply negb_true_iff in Hx.
  destruct f; [by rewrite Hx|done].
Qed.

Lemma space_is_space (c : ascii) : Py.isspace c = false → c ≠ " "%char.
Proof. by intros H ->. Qed.

Lemma field_lineless (f : string) :
  spaceless f = true → all_chars (λ c, negb (bool_decide (c = "010"%char))) f = true.
Proof.
  apply all_chars_impl. intros c Hc. apply negb_true_iff in Hc.
  apply negb_true_iff, bool_decide_eq_false. by intros ->.
Qed.

Lemma count_spaces_app (a b : string) :
  Calibration.count_spaces (a +:+ b)
  = (Calibration.count_spaces a + Calibration.count_spaces b)%nat.
Proof.
  induction a as [|x a IH]; [done|].
  rewrite append_cons. cbn [Calibration.count_spaces].
  rewrite IH. by destruct (decide _).
Qed.

Lemma count_spaces_field (f : string) :
  spaceless f = true → Calibration.count_spaces f = 0%nat.
Proof.
  unfold spaceless. induction f as [|x f IH]; cbn [all_chars Calibration.count_spaces];
    [done|].
  intros [Hx Hf]%andb_prop. apply negb_true_iff, space_is_space in Hx.
  by rewrite decide_False, IH.
Qed.

Lemma split_on_from_field (f rest : string) : ∀ cur,
  spaceless f = true →
  Py.split_on_from " " cur (f +:+ " " +:+ rest)
  = (cur +:+ f) :: Py.split_on_from " " EmptyString rest.
Proof.
  unfold spaceless. induction f as [|x f IH]; intros cur;
    rewrite ?append_nil, ?append_cons; cbn [all_chars Py.split_on_from].
  - intros _. rewrite decide_True by done. by rewrite append_nil_r.
  - intros [Hx Hf]%andb_prop. apply negb_true_iff, space_is_space in Hx.
    rewrite decide_False by done. rewrite IH by done.
    by rewrite append_assoc, append_cons, append_nil.
Qed.

Lemma split_on_from_last (f : string) : ∀ cur,
  spaceless f = true → Py.split_on_from " " cur f = [cur +:+ f].
Proof.
  unfold spaceless. induction f as [|x f IH]; intros cur;
    cbn [all_chars Py.split_on_from].
  - intros _. by rewrite append_nil_r.
  - intros [Hx Hf]%andb_prop. apply negb_true_iff, space_is_space in Hx.
    rewrite decide_False by done. rewrite IH by done.
    by rewrite append_assoc, append_cons, append_nil.
Qed.

(** What splitting, counting and stripping make of a row of fields. *)
Lemma join_spaces_cons (f g : string) (fs : list string) :
  join_spaces (f :: g :: fs) = f +:+ " " +:+ join_spaces (g :: fs).
Proof. done. Qed.

Lemma join_split (fs : list string) :
  fs ≠ [] → Forall (λ f, spaceless f = true) fs →
  Py.split_on " " (join_spaces fs) = fs.
Proof.
  unfold Py.split_on. induction fs as [|f [|g fs] IH]; [done| |].
  - intros _ [Hf _]%Forall_cons. cbn [join_spaces]. by rewrite split_on_from_last.
  - intros _ [Hf Hfs]%Forall_cons. rewrite join_spaces_cons.
    rewrite split_on_from_field by done. rewrite append_nil. f_equal. by apply IH.
Qed.

Lemma join_count (fs : list string) :
  Forall (λ f, spaceless f = true) fs →
  Calibration.count_spaces (join_spaces fs) = (length fs - 1)%nat.
Proof.
  induction fs as [|f [|g fs] IH]; [done| |].
  - intros [Hf _]%Forall_cons. cbn [join_spaces]. by rewrite count_spaces_field.
  - intros [Hf Hfs]%Forall_cons. rewrite join_spaces_cons, !count_spaces_app.
    rewrite count_spaces_field, IH by done.
    change (Calibration.count_spaces " ") with 1%nat. cbn [length]. lia.
Qed.

Lemma join_lineless (fs : list string) :
  Forall (λ f, spaceless f = true) fs →
  all_chars (λ c, negb (bool_decide (c = "010"%char))) (join_spaces fs) = true.
Proof.
  induction fs as [|f [|g fs] IH]; [done| |].
  - intros [Hf _]%Forall_cons. by apply field_lineless.
  - intros [Hf Hfs]%Forall_cons. rewrite join_spaces_cons, !all_chars_app.
    rewrite field_lineless, IH by done. done.
Qed.

Lemma join_rstrip (fs : list string) :
  fs ≠ [] → Forall (λ f, spaceless f = true ∧ f ≠ EmptyString) fs →
  Py.rstrip (join_spaces fs) = join_spaces fs ∧ join_spaces fs ≠ EmptyString.
Proof.
  induction fs as [|f [|g fs] IH]; [done| |].
  - intros _ [[Hf Hne] _]%Forall_cons. cbn [join_spaces]. by rewrite rstrip_field.
  - intros _ [[Hf Hne] Hfs]%Forall_cons. rewrite join_spaces_cons.
    destruct IH as [IH1 IH2]; [done..|]. split.
    + rewrite rstrip_append; [done| |].
      * by apply (rstrip_append " ").
      * done.
    + by destruct f.
Qed.

Lemma join_strip (f : string) (fs : list string) :
  Forall (λ f, spaceless f = true ∧ f ≠ EmptyString) (f :: fs) →
  Py.strip (join_spaces (f :: fs) +:+ Py.nl) = join_spaces (f :: fs).
Proof.
  intros Hfs. destruct (join_rstrip (f :: fs)) as [Hr Hne]; [done..|].
  unfold Py.strip.
  assert (Py.lstrip (join_spaces (f :: fs) +:+ Py.nl) = join_spaces (f :: fs) +:+ Py.nl)
    as ->.
  { apply Forall_cons in Hfs as [[Hf Hfne] _].
    destruct f as [|x f]; [done|]. unfold spaceless in Hf. cbn in Hf.
    apply andb_prop in Hf as [Hx%negb_true_iff _].
    destruct fs; cbn [join_spaces]; rewrite !append_cons; cbn [Py.lstrip];
      by rewrite Hx. }
  by rewrite rstrip_newline.
Qed.

End Fields.

(** ** Properties of the calibration files: saving and loading back *)

Section RoundTrip.

Import Calibration.

Variable str_freq str_float : Qc → string.

Lemma float_nonempty (s : string) (x : Qc) : Py.float s = Ok x → s ≠ EmptyString.
Proof. intros H ->. vm_compute in H. discriminate. Qed.

Lemma int_nonempty (s : string) (z : Z) : Py.int s = Ok z → s ≠ EmptyString.
Proof. intros H ->. vm_compute in H. discriminate. Qed.

Lemma int_not_comment (f rest : string) (z : Z) :
  Py.int f = Ok z → Py.startswith "!" (f +:+ rest) = false.
Proof.
  intros Hint. destruct f as [|x f]; [by apply int_nonempty in Hint|].
  rewrite append_cons. cbn [Py.startswith].
  destruct (decide ("!"%char = x)) as [<-|Hx];
    [|apply andb_false_intro1; by apply bool_decide_eq_false].
  exfalso. revert Hint. unfold Py.int, Py.strip.
  change (Py.lstrip (String "!" f)) with (String "!" f). cbn [Py.rstrip].
  change (Py.isspace "!") with false.
  assert (∃ r, match Py.rstrip f with
               | EmptyString => String "!" EmptyString
               | String a s => String "!" (String a s)
               end = String "!" r) as [r ->] by (destruct (Py.rstrip f); eauto).
  change (Py.sign (String "!" r)) with (false, String "!" r). cbn beta iota.
  change (Py.digits 0 0 (String "!" r)) with (0, 0%nat, String "!" r).
  cbn beta iota. rewrite bool_decide_eq_false_2 by lia. done.
Qed.

Lemma read_point_back (sh dp : Datapoint) :
  prints_frequency str_freq (freq sh) →
  prints_value str_float (re dp) → prints_value str_float (im dp) →
  freq dp = freq sh →
  read_point (str_freq (freq sh)) (str_float (re dp)) (str_float (im dp)) = Ok dp.
Proof.
  intros (_ & z & Hz & Hint) [_ Hre] [_ Him] Hf. unfold read_point.
  rewrite Hint, Hre, Him. cbn [mbind result_mbind result_bind].
  destruct dp as [f r i]. cbn in *. by rewrite Hf, Hz.
Qed.

Lemma prints_field (x : Qc) :
  prints_value str_float x →
  spaceless (str_float x) = true ∧ str_float x ≠ EmptyString.
Proof. intros [Hs Hf]. split; [done|by eapply float_nonempty]. Qed.

Lemma prints_frequency_field (x : Qc) :
  prints_frequency str_freq x →
  spaceless (str_freq x) = true ∧ str_freq x ≠ EmptyString.
Proof. intros (Hs & z & _ & Hint). split; [done|by eapply int_nonempty]. Qed.

(** Loading the line [saveCalibration] writes for a one-port row. *)
Lemma load_line_one_port (sh op ld : Datapoint) (c0 : Calibration.t) :
  prints_frequency str_freq (freq sh) →
  prints_value str_float (re sh) → prints_value str_float (im sh) →
  prints_value str_float (re op) → prints_value str_float (im op) →
  prints_value str_float (re ld) → prints_value str_float (im ld) →
  freq op = freq sh → freq ld = freq sh →
  let line := one_port_fields str_freq str_float sh op ld in
  Py.strip (line +:+ Py.nl) = line ∧
  Py.startswith "!" line = false ∧
  all_chars (λ c, negb (bool_decide (c = "010"%char))) line = true ∧
  load_line line c0
  = (Ok (), set_s11load
              (set_s11open (set_s11short c0 (s11short c0 ++ [sh]))
                 (s11open c0 ++ [op]))
              (s11load c0 ++ [ld])).
Proof.
  intros Hf H1 H2 H3 H4 H5 H6 Eo El line.
  assert (line = join_spaces [str_freq (freq sh); str_float (re sh); str_float (im sh);
                              str_float (re op); str_float (im op);
                              str_float (re ld); str_float (im ld)]) as Hline by done.
  assert (Forall (λ f, spaceless f = true ∧ f ≠ EmptyString)
            [str_freq (freq sh); str_float (re sh); str_float (im sh);
             str_float (re op); str_float (im op);
             str_float (re ld); str_float (im ld)]) as Hfields.
  { repeat constructor; try (by apply prints_field); by apply prints_frequency_field. }
  assert (Forall (λ f, spaceless f = true)
            [str_freq (freq sh); str_float (re sh); str_float (im sh);
             str_float (re op); str_float (im op);
             str_float (re ld); str_float (im ld)]) as Hspaceless.
  { eapply Forall_impl; [exact Hfields|]. by intros f [? _]. }
  split; [rewrite Hline; by apply join_strip|].
  split.
  { destruct Hf as (_ & z & _ & Hint). by apply (int_not_comment _ _ z). }
  split; [rewrite Hline; by apply join_lineless|].
  unfold load_line. rewrite Hline, join_count by done. cbn [length Nat.sub].
  rewrite decide_True by done. rewrite join_split by done.
  rewrite (read_point_back sh sh) by done. cbn [s11open s11load set_s11short].
  rewrite (read_point_back sh op) by done.
  by rewrite (read_point_back sh ld) by done.
Qed.

(** Loading the line [saveCalibration] writes for a two-port row. *)
Lemma load_line_two_port (sh op ld th iso : Datapoint) (c0 : Calibration.t) :
  prints_frequency str_freq (freq sh) →
  prints_value str_float (re sh) → prints_value str_float (im sh) →
  prints_value str_float (re op) → prints_value str_float (im op) →
  prints_value str_float (re ld) → prints_value str_float (im ld) →
  prints_value str_float (re th) → prints_value str_float (im th) →
  prints_value str_float (re iso) → prints_value str_float (im iso) →
  freq op = freq sh → freq ld = freq sh → freq th = freq sh → freq iso = freq sh →
  let line := one_port_fields str_freq str_float sh op ld
              +:+ two_port_fields str_float th iso in
  Py.strip (line +:+ Py.nl) = line ∧
  Py.startswith "!" line = false ∧
  all_chars (λ c, negb (bool_decide (c = "010"%char))) line = true ∧
  load_line line c0
  = (Ok (), set_s21isolation
              (set_s21through
                 (set_s11load
                    (set_s11open (set_s11short c0 (s11short c0 ++ [sh]))
                       (s11open c0 ++ [op]))
                    (s11load c0 ++ [ld]))
                 (s21through c0 ++ [th]))
              (s21isolation c0 ++ [iso])).
Proof.
  intros Hf H1 H2 H3 H4 H5 H6 H7 H8 H9 H10 Eo El Et Ei line.
  assert (line = join_spaces [str_freq (freq sh); str_float (re sh); str_float (im sh);
                              str_float (re op); str_float (im op);
                              str_float (re ld); str_float (im ld);
                              str_float (re th); str_float (im th);
                              str_float (re iso); str_float (im iso)]) as Hline.
  { unfold line, one_port_fields, two_port_fields. by rewrite !append_assoc. }
  assert (Forall (λ f, spaceless f = true ∧ f ≠ EmptyString)
            [str_freq (freq sh); str_float (re sh); str_float (im sh);
             str_float (re op); str_float (im op);
             str_float (re ld); str_float (im ld);
             str_float (re th); str_float (im th);
             str_float (re iso); str_float (im iso)]) as Hfields.
  { repeat constructor; try (by apply prints_field); by apply prints_frequency_field. }
  assert (Forall (λ f, spaceless f = true)
            [str_freq (freq sh); str_float (re sh); str_float (im sh);
             str_float (re op); str_float (im op);
             str_float (re ld); str_float (im ld);
             str_float (re th); str_float (im th);
             str_float (re iso); str_float (im iso)]) as Hspaceless.
  { eapply Forall_impl; [exact Hfields|]. by intros f [? _]. }
  split; [rewrite Hline; by apply join_strip|].
  split.
  { destruct Hf as (_ & z & _ & Hint). unfold line, one_port_fields.
    rewrite append_assoc. by apply (int_not_comment _ _ z). }
  split; [rewrite Hline; by apply join_lineless|].
  unfold load_line. rewrite Hline, join_count by done. cbn [length Nat.sub].
  rewrite decide_False by done. rewrite join_split by done.
  rewrite (read_point_back sh sh) by done.
  cbn [s11open s11load s21through s21isolation set_s11short].
  rewrite (read_point_back sh op) by done.
  cbn [s11open s11load s21through s21isolation set_s11open].
  rewrite (read_point_back sh ld) by done.
  cbn [s11open s11load s21through s21isolation set_s11load].
  rewrite (read_point_back sh th) by done.
  cbn [s11open s11load s21through s21isolation set_s21through].
  by rewrite (read_point_back sh iso) by done.
Qed.

Lemma same_axis_lookup (l short : list Datapoint) (k : nat) (sh : Datapoint) :
  freq <$> l = freq <$> short → short !! k = Some sh →
  ∃ dp, l !! k = Some dp ∧ freq dp = freq sh.
Proof.
  intros Hmap Hsh. pose proof (f_equal (λ fs, fs !! k) Hmap) as Hk. cbn in Hk.
  rewrite !list_lookup_fmap, Hsh in Hk. cbn in Hk.
  destruct (l !! k) as [dp|]; [|done]. exists dp. split; [done|]. by injection Hk.
Qed.

Lemma take_drop_S {A} (l : list A) (k m : nat) (x : A) :
  l !! k = Some x → take (S m) (drop k l) = x :: take m (drop (S k) l).
Proof. intros Hx. by rewrite (drop_S l x k Hx). Qed.

Lemma save_load_rows (c : Calibration.t) (m : nat) : ∀ (k : nat) (out : string),
  printable str_freq str_float c → same_axis c →
  (k + m ≤ length (s11short c))%nat →
  ∃ tail,
    save_rows str_freq str_float (seq k m) c out = (Ok (), out +:+ tail) ∧
    ∀ c0, measurements (load_lines (Py.lines tail) true c0)
          = (s11short c0 ++ take m (drop k (s11short c)),
             s11open c0 ++ take m (drop k (s11open c)),
             s11load c0 ++ take m (drop k (s11load c)),
             s21through c0 ++ (if isValid2Port c
                               then take m (drop k (s21through c)) else []),
             s21isolation c0 ++ (if isValid2Port c
                                 then take m (drop k (s21isolation c)) else [])).
Proof.
  induction m as [|m IH]; intros k out Hprint Haxis Hk.
  { exists EmptyString. cbn [seq save_rows]. rewrite append_nil_r. split; [done|].
    intros c0. change (Py.lines EmptyString) with (@nil string). cbn [load_lines].
    unfold measurements. cbn [take]. destruct (isValid2Port c); by rewrite !app_nil_r. }
  destruct (lookup_lt_is_Some_2 (s11short c) k) as [sh Hsh]; [lia|].
  destruct Haxis as (Ao & Al & A2).
  destruct (same_axis_lookup (s11open c) _ k sh Ao Hsh) as (op & Hop & Eo).
  destruct (same_axis_lookup (s11load c) _ k sh Al Hsh) as (ld & Hld & El).
  assert (∀ dp, dp ∈ s11short c ++ s11open c ++ s11load c
                     ++ s21through c ++ s21isolation c →
                prints_value str_float (re dp) ∧ prints_value str_float (im dp))
    as Hvalues by (intros dp Hdp; by destruct (Hprint dp Hdp) as (_ & ? & ?)).
  assert (prints_frequency str_freq (freq sh)) as Hf.
  { apply Hprint. apply elem_of_app. left. by eapply list_elem_of_lookup_2. }
  destruct (Hvalues sh) as [Hsh1 Hsh2].
  { apply elem_of_app. left. by eapply list_elem_of_lookup_2. }
  destruct (Hvalues op) as [Hop1 Hop2].
  { rewrite !elem_of_app. right. left. by eapply list_elem_of_lookup_2. }
  destruct (Hvalues ld) as [Hld1 Hld2].
  { rewrite !elem_of_app. right. right. left. by eapply list_elem_of_lookup_2. }
  cbn [seq save_rows]. unfold save_row, getitem. rewrite Hsh, Hop, Hld.
  destruct (isValid2Port c) eqn:E2.
  - assert (freq <$> s21through c = freq <$> s11short c ∧
            freq <$> s21isolation c = freq <$> s11short c) as [At Ai].
    { destruct A2 as [[Ht _]|A2]; [|done]. unfold isValid2Port in E2.
      rewrite Ht in E2. done. }
    destruct (same_axis_lookup (s21through c) _ k sh At Hsh) as (th & Hth & Et).
    destruct (same_axis_lookup (s21isolation c) _ k sh Ai Hsh) as (iso & Hiso & Ei).
    destruct (Hvalues th) as [Hth1 Hth2].
    { rewrite !elem_of_app. do 3 right. left. by eapply list_elem_of_lookup_2. }
    destruct (Hvalues iso) as [Hiso1 Hiso2].
    { rewrite !elem_of_app. do 4 right. by eapply list_elem_of_lookup_2. }
    rewrite Hth, Hiso.
    set (line := one_port_fields str_freq str_float sh op ld
                 +:+ two_port_fields str_float th iso).
    destruct (IH (S k) (((out +:+ one_port_fields str_freq str_float sh op ld)
                         +:+ two_port_fields str_float th iso) +:+ Py.nl))
      as (tail & Hsave & Hload); [done|done|lia|].
    exists (line +:+ Py.nl +:+ tail). rewrite Hsave. split.
    { unfold line. by rewrite !append_assoc. }
    intros c0.
    pose proof (load_line_two_port sh op ld th iso c0 Hf Hsh1 Hsh2 Hop1 Hop2
                  Hld1 Hld2 Hth1 Hth2 Hiso1 Hiso2 Eo El Et Ei)
      as (Hstrip & Hbang & Hlineless & Hline).
    fold line in Hstrip, Hbang, Hlineless, Hline.
    unfold Py.lines. rewrite lines_from_line by done. rewrite append_nil.
    cbn [load_lines]. rewrite Hstrip, Hbang, andb_false_r. cbn [negb].
    rewrite Hline. fold (Py.lines tail). rewrite Hload. unfold measurements.
    cbn [s11short s11open s11load s21through s21isolation set_s11short set_s11open
         set_s11load set_s21through set_s21isolation].
    rewrite (take_drop_S _ k m sh Hsh), (take_drop_S _ k m op Hop),
      (take_drop_S _ k m ld Hld), (take_drop_S _ k m th Hth),
      (take_drop_S _ k m iso Hiso).
    by rewrite <-!app_assoc.
  - set (line := one_port_fields str_freq str_float sh op ld).
    destruct (IH (S k) ((out +:+ line) +:+ Py.nl))
      as (tail & Hsave & Hload); [done|done|lia|].
    exists (line +:+ Py.nl +:+ tail). rewrite Hsave. split.
    { by rewrite !append_assoc. }
    intros c0.
    pose proof (load_line_one_port sh op ld c0 Hf Hsh1 Hsh2 Hop1 Hop2
                  Hld1 Hld2 Eo El)
      as (Hstrip & Hbang & Hlineless & Hline).
    fold line in Hstrip, Hbang, Hlineless, Hline.
    unfold Py.lines. rewrite lines_from_line by done. rewrite append_nil.
    cbn [load_lines]. rewrite Hstrip, Hbang, andb_false_r. cbn [negb].
    rewrite Hline. fold (Py.lines tail). rewrite Hload. unfold measurements.
    cbn [s11short s11open s11load s21through s21isolation set_s11short set_s11open
         set_s11load set_s21through set_s21isolation].
    rewrite (take_drop_S _ k m sh Hsh), (take_drop_S _ k m op Hop),
      (take_drop_S _ k m ld Hld).
    by rewrite <-!app_assoc.
Qed.

Lemma load_lines_preamble (lines : list string) (c0 : Calibration.t) :
  load_lines ((title_line +:+ Py.nl) :: (header_line +:+ Py.nl) :: lines) false c0
  = load_lines lines true c0.
Proof.
  cbn [load_lines].
  change (Py.strip (title_line +:+ Py.nl)) with title_line.
  change (Py.strip (header_line +:+ Py.nl)) with header_line.
  change (Py.startswith "!" title_line) with false.
  change (Py.startswith "!" header_line) with false.
  change (Py.startswith "#" title_line) with true.
  change (Py.startswith "#" header_line) with true.
  cbn [andb negb]. rewrite decide_False by done. by rewrite decide_True.
Qed.

End RoundTrip.

(** X29. Saving and loading back.  Take a calibration with at least one
    short point whose standards were measured at the same frequencies
    (through and isolation both or neither), and a [str] that prints its
    numbers without whitespace so that [int] and [float] read them back.
    Then [saveCalibration] returns [True], and [loadCalibration] on the
    file it wrote restores the five lists of standards exactly, whatever
    the calibration object held before. *)
Theorem save_load_round_trip (str_freq str_float : Qc → string)
    (filename : string) (c c0 : Calibration.t) :
  filename ≠ EmptyString → Calibration.s11short c ≠ [] →
  same_axis c → printable str_freq str_float c →
  ∃ text,
    Calibration.saveCalibration str_freq str_float filename true c
    = (true, Some text) ∧
    measurements (Calibration.loadCalibration filename (Some text) c0)
    = measurements c.
Proof.
  intros Hname Hshort Haxis Hprint.
  destruct (save_load_rows str_freq str_float c (length (Calibration.s11short c)) 0
              (Calibration.title_line +:+ Py.nl +:+ Calibration.header_line +:+ Py.nl)
              Hprint Haxis) as (tail & Hsave & Hload); [lia|].
  assert (Calibration.isValid1Port c = true) as Hvalid.
  { destruct Haxis as (Ao & Al & _). unfold Calibration.isValid1Port.
    apply (f_equal length) in Ao, Al. rewrite !length_fmap in Ao, Al.
    rewrite Ao, Al. destruct (Calibration.s11short c); [done|].
    cbn. by rewrite bool_decide_eq_true_2 by lia. }
  unfold Calibration.saveCalibration, Calibration.loadCalibration.
  rewrite !decide_False by done. rewrite Hvalid. cbn [negb]. rewrite Hsave.
  eexists. split; [reflexivity|].
  rewrite !append_assoc. unfold Py.lines.
  rewrite lines_from_line by done. rewrite lines_from_line by done.
  rewrite !append_nil. fold (Py.lines tail).
  rewrite decide_False by done.
  rewrite load_lines_preamble, Hload. unfold measurements.
  cbn [Calibration.s11short Calibration.s11open Calibration.s11load
       Calibration.s21through Calibration.s21isolation
       Calibration.set_s11short Calibration.set_s11open Calibration.set_s11load
       Calibration.set_s21through Calibration.set_s21isolation app].
  rewrite !drop_0.
  destruct Haxis as (Ao & Al & A2).
  apply (f_equal length) in Ao, Al. rewrite !length_fmap in Ao, Al.
  rewrite (take_ge (Calibration.s11short c)), (take_ge (Calibration.s11open c)),
    (take_ge (Calibration.s11load c)) by lia.
  destruct A2 as [[Ht Hi]|[At Ai]].
  - assert (Calibration.isValid2Port c = false) as ->
      by (unfold Calibration.isValid2Port; by rewrite Ht).
    by rewrite Ht, Hi.
  - apply (f_equal length) in At, Ai. rewrite !length_fmap in At, Ai.
    assert (Calibration.isValid2Port c = true) as ->.
    { unfold Calibration.isValid2Port. rewrite Hvalid.
      destruct (Calibration.s11short c); [done|].
      destruct (Calibration.s21through c), (Calibration.s21isolation c); done. }
    by rewrite (take_ge (Calibration.s21through c)),
      (take_ge (Calibration.s21isolation c)) by lia.
Qed.

Lemma save_load_round_trip_witness :
  ∃ text,
    Calibration.saveCalibration show_whole show_whole "cal.txt" true measured_standards
    = (true, Some text) ∧
    measurements (Calibration.loadCalibration "cal.txt" (Some text) Calibration.fresh)
    = measurements measured_standards.
Proof.
  apply (save_load_round_trip show_whole show_whole "cal.txt" measured_standards
           Calibration.fresh).
  - done.
  - done.
  - split; [done|]. split; [done|]. by right.
  - intros dp Hdp. cbn in Hdp.
    repeat (apply elem_of_cons in Hdp as [->|Hdp]);
      try (by apply elem_of_nil in Hdp);
      (split; [split; [vm_compute; reflexivity|];
               eexists; (split; [|vm_compute; reflexivity]); reflexivity|]);
      split; (split; [vm_compute; reflexivity|]);
      (etransitivity; [vm_compute; reflexivity|]);
      f_equal; apply Qc_is_canon; vm_compute; reflexivity.
Defined.

Section SaveOutcome.

Import Calibration.

Variable str_freq str_float : Qc → string.

Lemma save_rows_outcome (c : Calibration.t) (m : nat) : ∀ (k : nat) (out : string),
  (k + m ≤ length (s11short c))%nat →
  ∃ out',
    (save_rows str_freq str_float (seq k m) c out = (Ok (), out') ∧
     ∀ j, (k ≤ j < k + m)%nat →
       (j < length (s11open c))%nat ∧ (j < length (s11load c))%nat ∧
       (isValid2Port c = true →
        (j < length (s21through c))%nat ∧ (j < length (s21isolation c))%nat)) ∨
    (save_rows str_freq str_float (seq k m) c out = (Raise IndexError, out') ∧
     ∃ j, (k ≤ j < k + m)%nat ∧
       ¬ ((j < length (s11open c))%nat ∧ (j < length (s11load c))%nat ∧
          (isValid2Port c = true →
           (j < length (s21through c))%nat ∧ (j < length (s21isolation c))%nat))).
Proof.
  induction m as [|m IH]; intros k out Hk; cbn [seq save_rows].
  { exists out. left. split; [done|]. intros j Hj. lia. }
  unfold save_row, getitem.
  destruct (lookup_lt_is_Some_2 (s11short c) k) as [sh ->]; [lia|].
  destruct (s11open c !! k) as [op|] eqn:Hop.
  2: { exists out. right. split; [done|]. exists k. split; [lia|].
       apply lookup_ge_None in Hop. lia. }
  destruct (s11load c !! k) as [ld|] eqn:Hld.
  2: { exists out. right. split; [done|]. exists k. split; [lia|].
       apply lookup_ge_None in Hld. lia. }
  apply lookup_lt_Some in Hop, Hld.
  destruct (isValid2Port c) eqn:E2.
  - destruct (s21through c !! k) as [th|] eqn:Hth.
    2: { eexists. right. split; [done|]. exists k. split; [lia|].
         apply lookup_ge_None in Hth. intros (_ & _ & H2). destruct H2; [done|lia]. }
    destruct (s21isolation c !! k) as [iso|] eqn:Hiso.
    2: { eexists. right. split; [done|]. exists k. split; [lia|].
         apply lookup_ge_None in Hiso. intros (_ & _ & H2). destruct H2; [done|lia]. }
    apply lookup_lt_Some in Hth, Hiso.
    match goal with |- context [save_rows _ _ _ _ ?o] =>
      destruct (IH (S k) o) as [out' [[Hs Hall]|[Hs (j & Hj & Hbad)]]]; [lia| |] end.
    + exists out'. left. split; [done|]. intros j Hj.
      destruct (decide (j = k)) as [->|Hne]; [done|]. apply Hall. lia.
    + exists out'. right. split; [done|]. exists j. split; [lia|done].
  - match goal with |- context [save_rows _ _ _ _ ?o] =>
      destruct (IH (S k) o) as [out' [[Hs Hall]|[Hs (j & Hj & Hbad)]]]; [lia| |] end.
    + exists out'. left. split; [done|]. intros j Hj.
      destruct (decide (j = k)) as [->|Hne]; [done|]. apply Hall. lia.
    + exists out'. right. split; [done|]. exists j. split; [lia|done].
Qed.

End SaveOutcome.

(** X30. What [saveCalibration] returns.  Without a file name, without
    at least one point of each of short, open and load, or when the file
    cannot be opened, it returns [False] and writes nothing.  Otherwise
    it starts the file, and it returns [True] exactly when every index of
    the short list also exists in the open and load lists and, for a
    two-port calibration, in the through and isolation lists; when one
    does not, it returns [False] and leaves the file cut off there. *)
Theorem saveCalibration_outcome (str_freq str_float : Qc → string)
    (filename : string) (writable : bool) (c : Calibration.t) :
  (filename = EmptyString ∨ Calibration.isValid1Port c = false ∨ writable = false →
   Calibration.saveCalibration str_freq str_float filename writable c = (false, None)) ∧
  (filename ≠ EmptyString → Calibration.isValid1Port c = true → writable = true →
   ∃ ok text,
     Calibration.saveCalibration str_freq str_float filename writable c
     = (ok, Some text) ∧
     (ok = true ↔ covers_short c)).
Proof.
  unfold Calibration.saveCalibration. split.
  - intros [->|[Hv|Hw]]; [done| |].
    + rewrite Hv. by destruct (decide _).
    + rewrite Hw. destruct (decide _); [done|]. by destruct (Calibration.isValid1Port c).
  - intros Hname Hvalid ->. rewrite decide_False by done. rewrite Hvalid. cbn [negb].
    assert (0 < length (Calibration.s11short c))%nat as Hpos.
    { unfold Calibration.isValid1Port in Hvalid.
      apply andb_prop in Hvalid as [[H1%bool_decide_eq_true _]%andb_prop _]. done. }
    match goal with |- context [Calibration.save_rows _ _ ?l _ ?o] =>
      destruct (save_rows_outcome str_freq str_float c
                  (length (Calibration.s11short c)) 0 o)
        as [out' [[-> Hall]|[-> (j & Hj & Hbad)]]]; [lia| |] end.
    + exists true, out'. split; [done|]. split; [|done]. intros _.
      destruct (Hall (length (Calibration.s11short c) - 1)%nat) as (Ho & Hl & H2);
        [lia|].
      unfold covers_short. split; [lia|]. split; [lia|]. intros E2.
      destruct (H2 E2). lia.
    + exists false, out'. split; [done|]. split; [done|]. intros (Ho & Hl & H2).
      destruct Hbad. split; [lia|]. split; [lia|]. intros E2. destruct (H2 E2). lia.
Qed.
